(** * wdbots: the ecoregion / boundary integration notebooks

    A shallow embedding of the data-frame pipeline of
    [ecoregions/Ecoregions Data Processing.ipynb] (both the cell-by-cell
    notebook and the later suite of functions) and of the boundaries
    notebook, together with the properties stated about them.

    Data frames are modelled as the notebooks use them: an index of row
    labels, an ordered list of column names, and one dictionary of cells
    per row.  Missing values keep pandas' two sentinels apart ([NaN] and
    Python's [None]).  Exceptions are modelled with [option]. *)

From Stdlib Require Import ZArith Qcanon Ascii.
From stdpp Require Import base option list strings gmap sets sorting.

#[local] Set Warnings "-clear-no-such-hyp".
#[local] Set Warnings "-ambiguous-paths".
#[local] Set Warnings "-notation-overridden".


(** ** Geometry: the interface of shapely and PostGIS used by the notebooks *)

Class Geometric (G : Type) `{Countable G} := {
  (** [geometry.geom_type], e.g. "Polygon", "MultiPolygon", "Point" *)
  geom_type : G → string;
  (** [shapely.ops.unary_union] over the geometries of a group *)
  unary_union : list G → G;
  (** [geometry.centroid.x], [geometry.centroid.y] *)
  centroid : G → Qc * Qc;
  (** [geometry.wkt] *)
  wkt : G → string;
  (** PostGIS reading a stored WKT text back as a geometry *)
  ST_GeomFromText : string → G;
  (** PostGIS [ST_Intersects] *)
  ST_Intersects : G → G → bool;
}.

(** ** Cells, rows and frames *)

Section Values.
Context {G : Type} `{Geometric G}.

Inductive scalar :=
  | NaN
  | PyNone
  | Str (s : string)
  | Num (x : Qc)
  | Geom (g : G)
  | WKTElement (text : string) (srid : Z).

#[global] Instance scalar_eq_dec : EqDecision scalar.
Proof. solve_decision. Defined.

Definition scalar_to_sum (v : scalar)
  : unit + unit + string + Qc + G + (string * Z) :=
  match v with
  | NaN => inl (inl (inl (inl (inl ()))))
  | PyNone => inl (inl (inl (inl (inr ()))))
  | Str s => inl (inl (inl (inr s)))
  | Num x => inl (inl (inr x))
  | Geom g => inl (inr g)
  | WKTElement t n => inr (t, n)
  end.

Definition scalar_of_sum (x : unit + unit + string + Qc + G + (string * Z))
  : scalar :=
  match x with
  | inl (inl (inl (inl (inl _)))) => NaN
  | inl (inl (inl (inl (inr _)))) => PyNone
  | inl (inl (inl (inr s))) => Str s
  | inl (inl (inr x)) => Num x
  | inl (inr g) => Geom g
  | inr (t, n) => WKTElement t n
  end.

#[global] Instance scalar_countable : Countable scalar.
Proof.
  apply (inj_countable' scalar_to_sum scalar_of_sum).
  by intros [].
Defined.

(** [pd.notnull] on one cell *)
Definition notnull (v : scalar) : bool :=
  match v with
  | NaN | PyNone => false
  | _ => true
  end.

(** Row labels: positions of a [RangeIndex], or the group keys that
    [dissolve] leaves in the index. *)
Inductive label :=
  | Pos (n : nat)
  | Key (s : string).

#[global] Instance label_eq_dec : EqDecision label.
Proof. solve_decision. Defined.

Record DataFrame := mkDataFrame {
  index_name : option string;
  columns : list string;
  rows : list (label * gmap string scalar);
}.

Definition index (df : DataFrame) : list label := (rows df).*1.

(** The cell of a row under a column of its frame; a column the frame
    does not have holds nothing. *)
Definition cell (df : DataFrame) (r : gmap string scalar) (c : string)
  : scalar :=
  if decide (c ∈ columns df) then default NaN (r !! c) else NaN.

(** [RangeIndex]: rows renumbered 0, 1, 2, ... *)
Definition range_index (rs : list (gmap string scalar))
  : list (label * gmap string scalar) :=
  zip (Pos <$> seq 0 (length rs)) rs.

(** *** [pd.concat(frames, ignore_index=True, sort=False)] *)

(** Columns are the union of the frames' columns, in order of first
    appearance. *)
Definition add_columns (acc new : list string) : list string :=
  foldl (λ a c, if decide (c ∈ a) then a else a ++ [c]) acc new.

Definition union_columns (dfs : list DataFrame) : list string :=
  foldl (λ a df, add_columns a (columns df)) [] dfs.

(** A row is re-indexed to the combined columns; a column its frame
    lacks is filled with [NaN]. *)
Definition reindex_row (df : DataFrame) (cols : list string)
    (r : gmap string scalar) : gmap string scalar :=
  list_to_map ((λ c, (c, cell df r c)) <$> cols).

Definition reindexed (cols : list string) (df : DataFrame)
  : list (gmap string scalar) :=
  (λ ir, reindex_row df cols ir.2) <$> rows df.

Definition concat (dfs : list DataFrame) : DataFrame :=
  let cols := union_columns dfs in
  {| index_name := None;
     columns := cols;
     rows := range_index (mjoin (reindexed cols <$> dfs)) |}.

(** *** [df.where(pd.notnull(df), None)]

    Cell by cell: a missing value becomes [None].  This is what pandas
    does on a column of object dtype (text, or text and missing values).
    On a column that holds floats only, what [where] leaves for a
    missing value depends on the pandas release. *)

Definition where_notnull_none_cell (v : scalar) : scalar :=
  if notnull v then v else PyNone.

Definition where_notnull_none (df : DataFrame) : DataFrame :=
  {| index_name := index_name df;
     columns := columns df;
     rows := (λ ir : label * gmap string scalar,
                (ir.1, where_notnull_none_cell <$> ir.2)) <$> rows df |}.

(** *** Row access, [df.apply(f, axis=1)] and column assignment *)

(** [row[c]] / [row.c] inside a row-wise lambda: a [KeyError] when the
    frame has no such column. *)
Definition getitem (df : DataFrame) (r : gmap string scalar) (c : string)
  : option scalar :=
  if decide (c ∈ columns df) then Some (cell df r c) else None.

Definition Series : Type := list (label * scalar).

(** [df.apply(f, axis=1)].  Over zero rows pandas does not call [f] on
    a row and hands back a frame and not a Series; what the column
    assignments of the notebooks make of it is outside the model, which
    is the [None] of the first case. *)
Definition apply_axis1 (f : (string → option scalar) → option scalar)
    (df : DataFrame) : option Series :=
  match rows df with
  | [] => None
  | rs => mapM (λ ir : label * gmap string scalar,
                  v ← f (getitem df ir.2); Some (ir.1, v)) rs
  end.

Fixpoint series_loc (s : Series) (i : label) : option scalar :=
  match s with
  | [] => None
  | (j, v) :: s' => if decide (j = i) then Some v else series_loc s' i
  end.

(** [df[c] = series]: values are aligned on the index; a label the
    series lacks gets [NaN]; a series with repeated labels on a
    different index cannot be re-indexed. *)
Definition setitem (c : string) (s : Series) (df : DataFrame)
  : option DataFrame :=
  if decide (s.*1 = index df) then
    Some {| index_name := index_name df;
            columns := add_columns (columns df) [c];
            rows := zip_with (λ (ir : label * gmap string scalar) v,
                                (ir.1, <[c:=v]> ir.2)) (rows df) s.*2 |}
  else if decide (NoDup s.*1) then
    Some {| index_name := index_name df;
            columns := add_columns (columns df) [c];
            rows := (λ ir : label * gmap string scalar,
                       (ir.1, <[c:=default NaN (series_loc s ir.1)]> ir.2))
                    <$> rows df |}
  else None.

(** [df.drop(cols, axis=1, inplace=True)]: a [KeyError] on a column the
    frame does not have. *)
Definition drop_columns (cs : list string) (df : DataFrame)
  : option DataFrame :=
  if decide (cs ⊆ columns df) then
    Some {| index_name := index_name df;
            columns := filter (λ c, c ∉ cs) (columns df);
            rows := (λ ir : label * gmap string scalar,
                       (ir.1, filter (λ kv, kv.1 ∉ cs) ir.2)) <$> rows df |}
  else None.

(** [df.drop(labels, inplace=True)]: every row carrying one of the
    labels goes.  The labels always come from the frame itself here. *)
Definition drop_labels (ls : list label) (df : DataFrame) : DataFrame :=
  {| index_name := index_name df;
     columns := columns df;
     rows := filter (λ ir, ir.1 ∉ ls) (rows df) |}.

(** [df[mask]] / [df.loc[mask]] for a mask computed row by row *)
Definition loc (mask : gmap string scalar → bool) (df : DataFrame)
  : DataFrame :=
  {| index_name := index_name df;
     columns := columns df;
     rows := filter (λ ir, mask ir.2 = true) (rows df) |}.

(** *** Geometry columns *)

(** [df.geometry.geom_type] of one row: [None] where the geometry is
    missing. *)
Definition row_geom_type (df : DataFrame) (r : gmap string scalar)
  : scalar :=
  match cell df r "geometry" with
  | Geom g => Str (geom_type g)
  | _ => PyNone
  end.

(** [WKTElement(x.wkt, srid=4326)]; [x.wkt] on a missing geometry is an
    [AttributeError]. *)
Definition to_wkt_element (v : scalar) : option scalar :=
  match v with
  | Geom g => Some (WKTElement (wkt g) 4326)
  | _ => None
  end.

(** [df[c].apply(f)]: element-wise over one column; over zero rows it
    is an empty Series. *)
Definition apply_column (c : string) (f : scalar → option scalar)
    (df : DataFrame) : option Series :=
  if decide (c ∈ columns df) then
    mapM (λ ir : label * gmap string scalar,
            v ← f (cell df ir.2 c); Some (ir.1, v)) (rows df)
  else None.

(** [df['geom'] = df['geometry'].apply(lambda x: WKTElement(x.wkt, srid=4326))] *)
Definition add_geom (df : DataFrame) : option DataFrame :=
  s ← apply_column "geometry" to_wkt_element df;
  setitem "geom" s df.

(** The two frames of like geometry, as both notebooks build them:
    a copy that loses its "Polygon" rows, and one that loses its
    "MultiPolygon" rows. *)
Definition split_geometry (df : DataFrame) : DataFrame * DataFrame :=
  let multi := df in
  let poly := df in
  let multi :=
    drop_labels (index (loc (λ r, bool_decide
                    (row_geom_type multi r = Str "Polygon")) multi)) multi in
  let poly :=
    drop_labels (index (loc (λ r, bool_decide
                    (row_geom_type poly r = Str "MultiPolygon")) poly)) poly in
  (multi, poly).

(** *** [GeoDataFrame.dissolve(by=key)] with the default [aggfunc='first'] *)

(** The group key of a row: the cell under [key], or the index label
    when the index carries that name.  A row whose key is missing
    belongs to no group; keys other than strings do not occur in the
    notebooks and are outside the model. *)
Definition group_key (key : string) (df : DataFrame)
    (ir : label * gmap string scalar) : option (option string) :=
  if decide (key ∈ columns df) then
    match cell df ir.2 key with
    | Str k => Some (Some k)
    | NaN | PyNone => Some None
    | _ => None
    end
  else if decide (index_name df = Some key) then
    match ir.1 with
    | Key k => Some (Some k)
    | Pos _ => None
    end
  else None.

(** First occurrences only, in order of appearance. *)
Fixpoint unique (l : list string) : list string :=
  match l with
  | [] => []
  | k :: l' => k :: filter (λ k', k' ≠ k) (unique l')
  end.

(** [groupby(...).first()]: the first value of the group that is not
    missing.  When every value of the group is missing the result is
    missing too, here [NaN]; which of its sentinels pandas leaves there
    depends on the column's dtype, and the properties only say that the
    value is missing. *)
Definition first_notnull (vs : list scalar) : scalar :=
  default NaN (head (filter (λ v, notnull v = true) vs)).

Definition geometry_of (v : scalar) : option G :=
  match v with
  | Geom g => Some g
  | _ => None
  end.

(** One group: the union of its geometries, and for every other
    column the first value present.  A group with a row that has no
    geometry is outside the model. *)
Definition aggregate (df : DataFrame)
    (keyed : list (option string * gmap string scalar))
    (others : list string) (k : string)
  : option (label * gmap string scalar) :=
  let group := (filter (λ kr, kr.1 = Some k) keyed).*2 in
  gs ← mapM (λ r, geometry_of (cell df r "geometry")) group;
  Some (Key k,
        <["geometry" := Geom (unary_union gs)]>
          (list_to_map
             ((λ c, (c, first_notnull ((λ r, cell df r c) <$> group)))
              <$> others) : gmap string scalar)).

(** Groups come out sorted by key, the key in the index, the geometry
    column first. *)
Definition dissolve (key : string) (df : DataFrame) : option DataFrame :=
  if decide ("geometry" ∈ columns df) then
    ks ← mapM (group_key key df) (rows df);
    let keyed := zip ks (rows df).*2 in
    let keys := merge_sort String.le (unique (omap id ks)) in
    let others :=
      filter (λ c, c ≠ "geometry" ∧ c ≠ key) (columns df) in
    agg ← mapM (aggregate df keyed others) keys;
    Some {| index_name := Some key;
            columns := "geometry" :: others;
            rows := agg |}
  else None.

(** The frames [dissolve] is run on: every key is text and every
    geometry is present. *)
Definition keyed_shapes (key : string) (df : DataFrame) : bool :=
  forallb (λ ir : label * gmap string scalar,
             match cell df ir.2 key, cell df ir.2 "geometry" with
             | Str _, Geom _ => true
             | _, _ => false
             end) (rows df).

(** [df.reset_index(level=0, inplace=True)] *)
Definition label_value (i : label) : scalar :=
  match i with
  | Key k => Str k
  | Pos n => Num (Qc_of_Z (Z.of_nat n))
  end.

Definition index_column (df : DataFrame) : string :=
  match index_name df with
  | Some name => name
  | None => if decide ("index" ∈ columns df) then "level_0" else "index"
  end.

Definition reset_index (df : DataFrame) : option DataFrame :=
  let name := index_column df in
  if decide (name ∈ columns df) then None
  else
    Some {| index_name := None;
            columns := name :: columns df;
            rows := range_index
                      ((λ ir : label * gmap string scalar,
                          <[name := label_value ir.1]> ir.2) <$> rows df) |}.

(** *** The PostGIS side: [to_sql], and the two queries *)

(** [df.to_sql(table, if_exists='replace', index=...)]: the table holds
    the frame's columns (and its index when asked); both missing-value
    sentinels are stored as NULL, written [PyNone]. *)
Definition to_sql (with_index : bool) (df : DataFrame) : option DataFrame :=
  df' ← (if with_index then reset_index df else Some df);
  Some (where_notnull_none df').

(** [SELECT cols FROM t]: an error on a column the table lacks. *)
Definition select (cols : list string) (t : DataFrame)
  : option (list (gmap string scalar)) :=
  if decide (cols ⊆ columns t) then Some (reindexed cols t) else None.

(** [pd.read_sql("SELECT cols FROM t1 UNION SELECT cols FROM t2")]:
    [UNION] keeps one copy of each row. *)
Definition read_sql_union (cols : list string) (t1 t2 : DataFrame)
  : option DataFrame :=
  r1 ← select cols t1;
  r2 ← select cols t2;
  Some {| index_name := None;
          columns := cols;
          rows := range_index (remove_dups (r1 ++ r2)) |}.

(** *** Strings *)

(** [s.split(sep)] for a one-character separator *)
Fixpoint split (sep : ascii) (s : string) : list string :=
  match s with
  | EmptyString => [EmptyString]
  | String c s' =>
      if decide (c = sep) then EmptyString :: split sep s'
      else match split sep s' with
           | h :: t => String c h :: t
           | [] => [String c EmptyString]
           end
  end.

(** [sep.join(parts)] *)
Fixpoint join (sep : string) (parts : list string) : string :=
  match parts with
  | [] => EmptyString
  | [x] => x
  | x :: rest => x +:+ sep +:+ join sep rest
  end.

(** [f"{v}"] of a cell.  Codes and names are text in the source
    shapefiles; the formatting of floats and geometries is outside the
    model. *)
Definition format (v : scalar) : option string :=
  match v with
  | Str s => Some s
  | PyNone => Some "None"
  | NaN => Some "nan"
  | _ => None
  end.

End Values.

Arguments scalar G : clear implicits.
Arguments DataFrame G : clear implicits.
Arguments Series G : clear implicits.

(** ** The notebooks *)

Section Notebooks.
Context {G : Type} `{Geometric G}.

(** Helpers of the repository's [functions] module and of Python that
    the notebooks call: [str.title], [lookup_wd] in its two call shapes
    ([lookup_wd(contextual_identifier)] in the suite,
    [lookup_wd("Ecoregions", common_name, None)] in the first notebook)
    and [lookup_admin_ref(country, name, identifier, return_var)]. *)
Variable title : string → string.
Variable lookup_wd : scalar G → scalar G.
Variable lookup_wd_named : string → scalar G → scalar G → scalar G.
Variable lookup_admin_ref :
  scalar G → scalar G → scalar G → string → scalar G.

(** *** Formatted string literals over a row *)

Inductive fpart :=
  | Lit (s : string)
  | Field (c : string).

Fixpoint fstring_text (parts : list fpart)
    (row : string → option (scalar G)) : option string :=
  match parts with
  | [] => Some EmptyString
  | Lit s :: rest => t ← fstring_text rest row; Some (s +:+ t)
  | Field c :: rest =>
      v ← row c; s ← format v; t ← fstring_text rest row; Some (s +:+ t)
  end.

Definition fstring (parts : list fpart)
    (row : string → option (scalar G)) : option (scalar G) :=
  Str <$> fstring_text parts row.

(** *** Schema normalization: [clean_synth_df] *)

(** [df.drop([c for c in list(df.columns) if c not in keep], axis=1,
    inplace=True)] *)
Definition keep_columns (keep : list string) (df : DataFrame G)
  : option (DataFrame G) :=
  drop_columns (filter (λ c, c ∉ keep) (columns df)) df.

(** One block of [clean_synth_df]: the contextual identifier, the
    common name and (below the top level) the identifiers of the
    ancestors, then the columns that are kept. *)
Definition clean_level (contextual_identifier : list fpart)
    (name : string) (part_of_identifiers : option (list fpart))
    (keep : list string) (df : DataFrame G) : option (DataFrame G) :=
  s ← apply_axis1 (fstring contextual_identifier) df;
  df ← setitem "contextual_identifier" s df;
  s ← apply_axis1 (λ row, row name) df;
  df ← setitem "common_name" s df;
  df ← match part_of_identifiers with
       | Some parts =>
           s ← apply_axis1 (fstring parts) df;
           setitem "part_of_identifiers" s df
       | None => Some df
       end;
  keep_columns keep df.

Definition keep_top : list string :=
  ["source"; "contextual_identifier"; "common_name"; "geometry"].
Definition keep_below : list string :=
  ["source"; "contextual_identifier"; "part_of_identifiers";
   "common_name"; "geometry"].

Definition part_of_l2 : list fpart :=
  [Lit "NA_L1CODE:"; Field "NA_L1CODE"].
Definition part_of_l3 : list fpart :=
  [Lit "NA_L1CODE:"; Field "NA_L1CODE";
   Lit ";NA_L2CODE:"; Field "NA_L2CODE"].
Definition part_of_us_l3 : list fpart :=
  [Lit "NA_L1CODE:"; Field "NA_L1CODE";
   Lit ";NA_L2CODE:"; Field "NA_L2CODE";
   Lit ";NA_L3CODE:"; Field "NA_L3CODE"].
Definition part_of_us_l4 : list fpart :=
  [Lit "NA_L1CODE:"; Field "NA_L1CODE";
   Lit ";NA_L2CODE:"; Field "NA_L2CODE";
   Lit ";NA_L3CODE:"; Field "NA_L3CODE";
   Lit ";US_L3CODE:"; Field "US_L3CODE"].

Definition clean_na_er1 : DataFrame G → option (DataFrame G) :=
  clean_level [Lit "NA_L1CODE:"; Field "NA_L1CODE"] "NA_L1NAME"
              None keep_top.
Definition clean_na_er2 : DataFrame G → option (DataFrame G) :=
  clean_level [Lit "NA_L2CODE:"; Field "NA_L2CODE"] "NA_L2NAME"
              (Some part_of_l2) keep_below.
Definition clean_na_er3 : DataFrame G → option (DataFrame G) :=
  clean_level [Lit "NA_L3CODE:"; Field "NA_L3CODE"] "NA_L3NAME"
              (Some part_of_l3) keep_below.
Definition clean_conus_er3 : DataFrame G → option (DataFrame G) :=
  clean_level [Lit "US_L3CODE:"; Field "US_L3CODE"] "US_L3NAME"
              (Some part_of_us_l3) keep_below.
Definition clean_conus_er4 : DataFrame G → option (DataFrame G) :=
  clean_level [Lit "US_L4CODE:"; Field "US_L4CODE"] "US_L4NAME"
              (Some part_of_us_l4) keep_below.

(** The suite's function (second notebook) *)
Definition clean_synth_df (na_er1 na_er2 na_er3 conus_er3 conus_er4
    : DataFrame G)
  : option (DataFrame G * DataFrame G * DataFrame G
            * DataFrame G * DataFrame G) :=
  na_er1 ← clean_na_er1 na_er1;
  na_er2 ← clean_na_er2 na_er2;
  na_er3 ← clean_na_er3 na_er3;
  conus_er3 ← clean_conus_er3 conus_er3;
  conus_er4 ← clean_conus_er4 conus_er4;
  Some (na_er1, na_er2, na_er3, conus_er3, conus_er4).

(** The same step as the first notebook's cell writes it: the block for
    the North American level 3 prefixes the level-3 code with the
    level-1 tag. *)
Definition notebook_clean_na_er3 : DataFrame G → option (DataFrame G) :=
  clean_level [Lit "NA_L1CODE:"; Field "NA_L3CODE"] "NA_L3NAME"
              (Some part_of_l3) keep_below.

Definition notebook_clean (na_er1 na_er2 na_er3 conus_er3 conus_er4
    : DataFrame G)
  : option (DataFrame G * DataFrame G * DataFrame G
            * DataFrame G * DataFrame G) :=
  na_er1 ← clean_na_er1 na_er1;
  na_er2 ← clean_na_er2 na_er2;
  na_er3 ← notebook_clean_na_er3 na_er3;
  conus_er3 ← clean_conus_er3 conus_er3;
  conus_er4 ← clean_conus_er4 conus_er4;
  Some (na_er1, na_er2, na_er3, conus_er3, conus_er4).

(** *** Combination and aggregation *)

Definition combine_source_data (na_er1 na_er2 na_er3 conus_er3 conus_er4
    : DataFrame G) : DataFrame G :=
  concat [na_er1; na_er2; na_er3; conus_er3; conus_er4].

Definition combine_geometries (combined_source : DataFrame G)
  : option (DataFrame G) :=
  dissolve "contextual_identifier" combined_source.

(** *** External identifiers: [prepare_wikidata_info] *)

(** [series.isin(values)] on one cell *)
Definition isin (v : scalar G) (values : list string) : bool :=
  match v with
  | Str s => bool_decide (s ∈ values)
  | _ => false
  end.

Definition centroid_x (v : scalar G) : option (scalar G) :=
  g ← geometry_of v; Some (Num (centroid g).1).
Definition centroid_y (v : scalar G) : option (scalar G) :=
  g ← geometry_of v; Some (Num (centroid g).2).

(** [series.str.title()]: a cell that is not text comes out as [NaN]. *)
Definition str_title (v : scalar G) : option (scalar G) :=
  Some match v with
       | Str s => Str (title s)
       | _ => NaN
       end.

(** The common part of both notebooks: the representative point and
    the title-cased name. *)
Definition add_point_and_title (df : DataFrame G) : option (DataFrame G) :=
  s ← apply_column "geometry" centroid_x df;
  df ← setitem "x" s df;
  s ← apply_column "geometry" centroid_y df;
  df ← setitem "y" s df;
  s ← apply_column "common_name" str_title df;
  setitem "common_name" s df.

(** The calls made to the lookup service are returned next to the
    frame: one entry per call, the label of the row it was made for
    and the argument passed. *)
Definition lookup_log : Type := list (label * scalar G).

Definition us_levels : list string := ["US_Eco_Level3"; "US_Eco_Level4"].

Definition prepare_wikidata_info (combined_source : DataFrame G)
  : option (DataFrame G * lookup_log) :=
  combined_source ← reset_index combined_source;
  combined_source ← add_point_and_title combined_source;
  if decide ("source" ∈ columns combined_source) then
    let selected :=
      loc (λ r, isin (cell combined_source r "source") us_levels)
          combined_source in
    s ← apply_axis1 (λ row, ci ← row "contextual_identifier";
                            Some (lookup_wd ci)) selected;
    let calls :=
      (λ ir : label * gmap string (scalar G),
         (ir.1, cell selected ir.2 "contextual_identifier"))
      <$> rows selected in
    combined_source ← setitem "wikidata_id" s combined_source;
    Some (where_notnull_none combined_source, calls)
  else None.

(** The first notebook's cell: every row is looked up, by name. *)
Definition notebook_wikidata_info (simplified_ecoregions : DataFrame G)
  : option (DataFrame G * lookup_log) :=
  df ← add_point_and_title simplified_ecoregions;
  s ← apply_axis1 (λ row, n ← row "common_name";
                          Some (lookup_wd_named "Ecoregions" n PyNone)) df;
  let calls :=
    (λ ir : label * gmap string (scalar G),
       (ir.1, cell df ir.2 "common_name")) <$> rows df in
  df ← setitem "wikidata_id" s df;
  Some (df, calls).

(** *** Geometry partition: [prep_source_for_pg] *)

Definition prep_source_for_pg (combined_dataset : DataFrame G)
  : option (DataFrame G * DataFrame G) :=
  let '(dataset_multi, dataset_poly) := split_geometry combined_dataset in
  dataset_multi ← add_geom dataset_multi;
  dataset_poly ← add_geom dataset_poly;
  dataset_multi ← drop_columns ["geometry"] dataset_multi;
  dataset_poly ← drop_columns ["geometry"] dataset_poly;
  Some (dataset_multi, dataset_poly).

(** A row as it is stored: every attribute as it was, the geometry
    replaced by its WKT element under [geom]. *)
Definition stored_row (g : G) (r : gmap string (scalar G))
  : gmap string (scalar G) :=
  filter (λ kv, kv.1 ∉ ["geometry"]) (<["geom" := WKTElement (wkt g) 4326]> r).

(** [load_to_pg]: the tables [ecoregions_m] and [ecoregions_p] *)
Definition load_to_pg (dataset_multi dataset_poly : DataFrame G)
  : option (DataFrame G * DataFrame G) :=
  ecoregions_p ← to_sql true dataset_poly;
  ecoregions_m ← to_sql true dataset_multi;
  Some (ecoregions_m, ecoregions_p).

(** *** The boundaries notebook *)

Definition combine_boundaries (ca_states us_states mx_states us_counties
    : DataFrame G) : DataFrame G :=
  let boundaries :=
    concat [ca_states; us_states; mx_states; us_counties] in
  where_notnull_none boundaries.

Definition admin_lookup (return_var : string)
    (row : string → option (scalar G)) : option (scalar G) :=
  c ← row "country"; n ← row "name"; i ← row "identifier";
  Some (lookup_admin_ref c n i return_var).

Definition resolve_boundaries (boundaries : DataFrame G)
  : option (DataFrame G) :=
  s ← apply_axis1 (admin_lookup "wd_id") boundaries;
  boundaries ← setitem "admin_id" s boundaries;
  s ← apply_axis1 (admin_lookup "country") boundaries;
  setitem "country_id" s boundaries.

Definition split_boundaries (boundaries : DataFrame G)
  : option (DataFrame G * DataFrame G) :=
  let '(boundaries_multi, boundaries) := split_geometry boundaries in
  boundaries_multi ← add_geom boundaries_multi;
  boundaries ← add_geom boundaries;
  boundaries_multi ← drop_columns ["geometry"] boundaries_multi;
  boundaries ← drop_columns ["geometry"] boundaries;
  Some (boundaries_multi, boundaries).

(** *** The intersections view (the SQL given in the notebook) *)

(** A stored [geom] cell as PostGIS sees it; NULL has no geometry. *)
Definition stored_geometry (v : scalar G) : option G :=
  match v with
  | WKTElement text _ => Some (ST_GeomFromText text)
  | _ => None
  end.

(** [ST_Intersects(b.geom, e.geom)] as a WHERE condition: NULL is not
    true. *)
Definition where_intersects (b e : scalar G) : bool :=
  match stored_geometry b, stored_geometry e with
  | Some gb, Some ge => ST_Intersects gb ge
  | _, _ => false
  end.

Definition intersection_row (b_tab e_tab : DataFrame G)
    (b e : gmap string (scalar G)) : gmap string (scalar G) :=
  {[ "boundary_name" := cell b_tab b "name";
     "wikidata_id" := cell b_tab b "wikidata_id";
     "contextual_identifier" := cell e_tab e "contextual_identifier" ]}.

(** [SELECT b.name AS boundary_name, b.wikidata_id AS wikidata_id,
     e.contextual_identifier FROM b_tab AS b, e_tab AS e
     WHERE ST_Intersects(b.geom, e.geom)] *)
Definition intersecting_rows (b_tab e_tab : DataFrame G)
  : list (gmap string (scalar G)) :=
  b ← (rows b_tab).*2;
  e ← (rows e_tab).*2;
  if where_intersects (cell b_tab b "geom") (cell e_tab e "geom")
  then [intersection_row b_tab e_tab b e] else [].

Definition select_intersecting (b_tab e_tab : DataFrame G)
  : option (list (gmap string (scalar G))) :=
  if decide (["name"; "wikidata_id"; "geom"] ⊆ columns b_tab
             ∧ ["contextual_identifier"; "geom"] ⊆ columns e_tab) then
    Some (intersecting_rows b_tab e_tab)
  else None.

Definition intersection_columns : list string :=
  ["boundary_name"; "wikidata_id"; "contextual_identifier"].

Definition intersections_view
    (boundaries_m boundaries_p ecoregions_m ecoregions_p : DataFrame G)
  : option (DataFrame G) :=
  mm ← select_intersecting boundaries_m ecoregions_m;
  mp ← select_intersecting boundaries_m ecoregions_p;
  pm ← select_intersecting boundaries_p ecoregions_m;
  pp ← select_intersecting boundaries_p ecoregions_p;
  Some {| index_name := None;
          columns := intersection_columns;
          rows := range_index (remove_dups (mm ++ mp ++ pm ++ pp)) |}.

(** The (boundary-id, region-id) pairs of a view *)
Definition id_pairs (view : DataFrame G) : gset (scalar G * scalar G) :=
  list_to_set ((λ r, (cell view r "wikidata_id",
                      cell view r "contextual_identifier"))
               <$> (rows view).*2).

(** *** Result assembly *)

(** [series == value]: a missing value equals nothing. *)
Definition pd_eq (a b : scalar G) : bool :=
  notnull a && notnull b && bool_decide (a = b).

(** The first notebook's lookup: the [wikidata_id] cells of the rows of
    the region, as they come. *)
Definition notebook_boundary_intersects_list
    (df_intersections : DataFrame G) (contextual_identifier : scalar G)
  : option (list (scalar G)) :=
  if decide ("contextual_identifier" ∈ columns df_intersections) then
    let selected :=
      loc (λ r, pd_eq (cell df_intersections r "contextual_identifier")
                      contextual_identifier) df_intersections in
    if decide ("wikidata_id" ∈ columns selected) then
      let intersects :=
        (λ r, cell selected r "wikidata_id") <$> (rows selected).*2 in
      Some intersects
    else None
  else None.

(** The suite's lookup: any identifier column, through a [set].  The
    set is a set of values.  (Python tells the members of a [set] apart
    by [==], under which a float [NaN] differs from itself: a column of
    floats can keep several [NaN].  The properties say nothing about how
    often [NaN] occurs.) *)
Definition boundary_intersects_list
    (df_intersections : DataFrame G) (contextual_identifier : scalar G)
    (intersect_type : string) : option (list (scalar G)) :=
  if decide ("contextual_identifier" ∈ columns df_intersections) then
    let selected :=
      loc (λ r, pd_eq (cell df_intersections r "contextual_identifier")
                      contextual_identifier) df_intersections in
    if decide (intersect_type ∈ columns selected) then
      let intersecting_ids :=
        (λ r, cell selected r intersect_type) <$> (rows selected).*2 in
      let intersecting_ids :=
        elements (list_to_set intersecting_ids : gset (scalar G)) in
      Some intersecting_ids
    else None
  else None.

(** Cells of the assembled records: a scalar or a list *)
Inductive pyobj :=
  | Scalar (v : scalar G)
  | PyList (l : list (scalar G)).

Record ObjFrame := mkObjFrame {
  ocolumns : list string;
  orows : list (label * gmap string pyobj);
}.

(** [lambda x: x.split(';') if x is not None else x] *)
Definition parse_part_of (x : scalar G) : option pyobj :=
  match x with
  | PyNone => Some (Scalar PyNone)
  | Str s => Some (PyList (Str <$> split ";" s))
  | _ => None
  end.

Definition q_ecoregions : list string :=
  ["contextual_identifier"; "wikidata_id"; "source"; "common_name";
   "part_of_identifiers"; "x"; "y"].

Definition recombine_ecoregions
    (ecoregions_m ecoregions_p df_intersections : DataFrame G)
  : option ObjFrame :=
  df_ecoregions ← read_sql_union q_ecoregions ecoregions_m ecoregions_p;
  records ← mapM (λ ir : label * gmap string (scalar G),
      let x := cell df_ecoregions ir.2 "contextual_identifier" in
      part_of ← parse_part_of (cell df_ecoregions ir.2 "part_of_identifiers");
      admin ← boundary_intersects_list df_intersections x "admin_id";
      country ← boundary_intersects_list df_intersections x "country_id";
      Some (ir.1,
            <["country_intersects" := PyList country]>
              (<["admin_intersects" := PyList admin]>
                 (<["part_of_identifiers" := part_of]>
                    (Scalar <$> ir.2))))) (rows df_ecoregions);
  Some {| ocolumns := q_ecoregions
                      ++ ["admin_intersects"; "country_intersects"];
          orows := records |}.

(** The suite from aggregated regions to assembled records *)
Definition assemble (ecoregions df_intersections : DataFrame G)
  : option (ObjFrame * lookup_log) :=
  '(ecoregions, calls) ← prepare_wikidata_info ecoregions;
  '(dataset_multi, dataset_poly) ← prep_source_for_pg ecoregions;
  '(ecoregions_m, ecoregions_p) ← load_to_pg dataset_multi dataset_poly;
  df_ecoregions ←
    recombine_ecoregions ecoregions_m ecoregions_p df_intersections;
  Some (df_ecoregions, calls).

(** *** The first notebook's assembly *)


(** [final_data.to_dict(orient="records")], the value that
    [cache_final_output] pickles: one dictionary per row, in order, with
    the frame's columns as keys. *)
Definition to_dict_records (final_data : ObjFrame)
  : list (gmap string pyobj) :=
  (λ ir : label * gmap string pyobj,
     list_to_map ((λ c, (c, default (Scalar NaN) (ir.2 !! c)))
                  <$> ocolumns final_data) : gmap string pyobj)
  <$> orows final_data.

(** *** The boundaries notebook, to its two tables *)

(** [boundaries.to_sql("boundaries_p", ..., index=False)] and
    [boundaries_multi.to_sql("boundaries_m", ..., index=False)] *)
Definition load_boundaries_to_pg (boundaries_multi boundaries : DataFrame G)
  : option (DataFrame G * DataFrame G) :=
  boundaries_p ← to_sql false boundaries;
  boundaries_m ← to_sql false boundaries_multi;
  Some (boundaries_m, boundaries_p).

(** The notebook from its four sources to [boundaries_m] and
    [boundaries_p] *)
Definition boundary_tables (ca_states us_states mx_states us_counties
    : DataFrame G) : option (DataFrame G * DataFrame G) :=
  let boundaries :=
    combine_boundaries ca_states us_states mx_states us_counties in
  boundaries ← resolve_boundaries boundaries;
  '(boundaries_multi, boundaries) ← split_boundaries boundaries;
  load_boundaries_to_pg boundaries_multi boundaries.

(** *** Serialized ancestors *)

(** How [clean_synth_df] leaves a record's ancestors in
    [part_of_identifiers]: their identifiers separated by ';' (the
    formatted strings of the levels below the top), and for the top
    level, whose frame has no such column, a missing value that reaches
    the table as [None]. *)
Definition serialize_part_of (ancestors : list string) : scalar G :=
  match ancestors with
  | [] => PyNone
  | _ => Str (join ";" ancestors)
  end.

Fixpoint contains (c : ascii) (s : string) : bool :=
  match s with
  | EmptyString => false
  | String c' s' => bool_decide (c' = c) || contains c s'
  end.

End Notebooks.

Arguments pyobj G : clear implicits.
Arguments ObjFrame G : clear implicits.

(** ** The vocabulary of the properties *)

Section Statements.
Context {G : Type} `{Geometric G}.
Implicit Types (df b_tab e_tab : DataFrame G).

(** Two row lists that agree label by label, the second row obtained
    from the first by [step]. *)
Definition rowwise (step : gmap string (scalar G) →
                          gmap string (scalar G) → Prop)
    (rs rs' : list (label * gmap string (scalar G))) : Prop :=
  Forall2 (λ ir ir', ir'.1 = ir.1 ∧ step ir.2 ir'.2) rs rs'.

(** Row by row, the new frame's contextual identifier is [tag], a
    colon, and the row's own code under the column [tag]. *)
Definition tagged_by (tag : string) (df df' : DataFrame G) : Prop :=
  rowwise (λ r r', ∃ v code,
             getitem df r tag = Some v ∧ format v = Some code
             ∧ r' !! "contextual_identifier"
               = Some (Str (tag +:+ ":" +:+ code)))
          (rows df) (rows df').

(** The identifiers read from a column whose cells are all text *)
Definition texts (key : string) df : list string :=
  omap (λ ir : label * gmap string (scalar G),
          match cell df ir.2 key with
          | Str k => Some k
          | _ => None
          end) (rows df).

(** A row of the intersections table that belongs to a region and
    carries an identifier under a column *)
Definition intersects_with (df_intersections : DataFrame G)
    (contextual_identifier : scalar G) (column : string) (id : scalar G)
  : Prop :=
  ∃ j t, (j, t) ∈ rows df_intersections
         ∧ pd_eq (cell df_intersections t "contextual_identifier")
                 contextual_identifier = true
         ∧ cell df_intersections t column = id.


(** What one block of [clean_synth_df] makes of a frame: the labels
    stay; the columns are the kept ones among the old and the new; row
    by row the identifier and the ancestors are the formatted strings
    over the old row, the name is the old row's name, and the other kept
    cells are as they were. *)
Definition normalized (contextual_identifier : list fpart) (name : string)
    (part_of_identifiers : option (list fpart)) (keep : list string)
    (df df' : DataFrame G) : Prop :=
  index df' = index df
  ∧ name ∈ columns df
  ∧ (∀ c, c ∈ columns df' ↔
       c ∈ keep
       ∧ (c ∈ columns df ∨ c = "contextual_identifier" ∨ c = "common_name"
          ∨ (is_Some part_of_identifiers ∧ c = "part_of_identifiers")))
  ∧ rowwise (λ r r',
       (∃ v, fstring contextual_identifier (getitem df r) = Some v
             ∧ r' !! "contextual_identifier" = Some v)
       ∧ r' !! "common_name" = Some (cell df r name)
       ∧ (∀ parts, part_of_identifiers = Some parts →
            ∃ v, fstring parts (getitem df r) = Some v
                 ∧ r' !! "part_of_identifiers" = Some v)
       ∧ (∀ c, c ∈ keep → c ≠ "contextual_identifier" →
               c ≠ "common_name" →
               part_of_identifiers = None ∨ c ≠ "part_of_identifiers" →
               r' !! c = r !! c))
      (rows df) (rows df').

(** The rows of a frame whose cell under [key] is the text [k], in
    order *)
Definition group (key k : string) (df : DataFrame G)
  : list (gmap string (scalar G)) :=
  (filter (λ ir : label * gmap string (scalar G),
             cell df ir.2 key = Str k) (rows df)).*2.

(** The cell of a row once [reset_index] has put its label in a
    column *)
Definition reset_cell (df : DataFrame G) (i : label)
    (r : gmap string (scalar G)) (c : string) : scalar G :=
  if decide (c = index_column df) then label_value i else cell df r c.

(** The row [r], labelled [i], of a frame, [g] being its geometry, once
    its label is in a column, its point is added and its name is in
    title case *)
Definition pointed_row (title : string → string)
    (df : DataFrame G) (i : label)
    (r : gmap string (scalar G)) (g : G) : gmap string (scalar G) :=
  <["common_name" :=
      match reset_cell df i r "common_name" with
      | Str s => Str (title s)
      | _ => NaN
      end]>
    (<["y" := Num (centroid g).2]>
       (<["x" := Num (centroid g).1]>
          (<[index_column df := label_value i]> r))).

(** The row that [prepare_wikidata_info] makes of it *)
Definition prepared_row (title : string → string)
    (lookup_wd : scalar G → scalar G) (df : DataFrame G) (i : label)
    (r : gmap string (scalar G)) (g : G) : gmap string (scalar G) :=
  where_notnull_none_cell <$>
    <["wikidata_id" :=
        if isin (reset_cell df i r "source") us_levels
        then lookup_wd (reset_cell df i r "contextual_identifier")
        else NaN]>
      (pointed_row title df i r g).

(** The row before the missing values are replaced *)
Definition looked_up_row (title : string → string)
    (lookup_wd : scalar G → scalar G) (df : DataFrame G) (i : label)
    (r : gmap string (scalar G)) (g : G) : gmap string (scalar G) :=
  <["wikidata_id" :=
      if isin (reset_cell df i r "source") us_levels
      then lookup_wd (reset_cell df i r "contextual_identifier")
      else NaN]>
    (pointed_row title df i r g).

(** A list in which no value but [NaN] occurs twice.  ([NaN] differs
    from itself, so a Python [set] may keep several.) *)
Definition distinct_values (l : list (scalar G)) : Prop :=
  NoDup (filter (λ v, v ≠ NaN) l).

(** The rows of the intersections table whose contextual identifier is
    that of a region, and what they hold under a column *)
Definition shares_identifier (df_intersections : DataFrame G)
    (contextual_identifier : scalar G) (column : string) (id : scalar G)
  : Prop :=
  notnull contextual_identifier = true
  ∧ ∃ j t, (j, t) ∈ rows df_intersections
           ∧ cell df_intersections t "contextual_identifier"
             = contextual_identifier
           ∧ cell df_intersections t column = id.

(** A column under which some frame holds a text: a column of pandas'
    object dtype *)
Definition text_column (c : string) (dfs : list (DataFrame G)) : bool :=
  existsb (λ df,
    existsb (λ ir : label * gmap string (scalar G),
               match cell df ir.2 c with Str _ => true | _ => false end)
            (rows df)) dfs.

(** A cell once missing values have been replaced: a value is kept, a
    missing value stays missing. *)
Definition kept_or_missing (v v' : scalar G) : Prop :=
  if notnull v then v' = v else notnull v' = false.

(** The first value that is not missing, or a missing value when there
    is none *)
Definition first_present (vs : list (scalar G)) (v : scalar G) : Prop :=
  match filter (λ w, notnull w = true) vs with
  | w :: _ => v = w
  | [] => notnull v = false
  end.

End Statements.

(** ** A small geometry to run the definitions on

    Shapes on a strip of unit cells: a point, or a list of cells, each
    cell one part.  One cell is a polygon, several are a multipolygon,
    none is an empty collection.  The union of shapes keeps each covered
    cell once, in increasing order; two shapes intersect when they share
    a cell. *)

Module Strip.

Inductive shape :=
  | Point (x : nat)
  | Cells (parts : list nat).

#[global] Instance shape_eq_dec : EqDecision shape.
Proof. solve_decision. Defined.

#[global] Instance shape_countable : Countable shape.
Proof.
  apply (inj_countable'
           (λ s, match s with Point x => inl x | Cells l => inr l end)
           (λ x, match x with inl x => Point x | inr l => Cells l end)).
  by intros [].
Defined.

Definition cells (s : shape) : list nat :=
  match s with
  | Point _ => []
  | Cells l => l
  end.

Definition type_name (s : shape) : string :=
  match s with
  | Point _ => "Point"
  | Cells [] => "GeometryCollection"
  | Cells [_] => "Polygon"
  | Cells _ => "MultiPolygon"
  end.

Definition union (ss : list shape) : shape :=
  Cells (merge_sort Nat.le (remove_dups (ss ≫= cells))).

Definition middle (s : shape) : Qc * Qc :=
  match s with
  | Point x => (Qc_of_Z (Z.of_nat x), 0%Qc)
  | Cells l => (Qc_of_Z (Z.of_nat (list_sum l))
                / Qc_of_Z (Z.of_nat (length l)), 0%Qc)%Qc
  end.

(** The text of a shape: a letter, then each number in unary, each
    closed by a dot. *)
Fixpoint unary (n : nat) : string :=
  match n with
  | 0 => "."
  | S n => String "1" (unary n)
  end.

Definition text (s : shape) : string :=
  match s with
  | Point x => String "P" (unary x)
  | Cells l => String "C" (foldr (λ n t, unary n +:+ t) EmptyString l)
  end.

Fixpoint numbers (cur : nat) (t : string) : list nat :=
  match t with
  | EmptyString => []
  | String c t' =>
      if decide (c = "."%char) then cur :: numbers 0 t'
      else numbers (S cur) t'
  end.

Definition from_text (t : string) : shape :=
  match t with
  | String c t' =>
      if decide (c = "P"%char) then Point (default 0 (head (numbers 0 t')))
      else Cells (numbers 0 t')
  | EmptyString => Cells []
  end.

Definition meet (a b : shape) : bool :=
  bool_decide (Exists (λ x, x ∈ cells b) (cells a)).

#[global] Instance strip_geometry : Geometric shape := {|
  geom_type := type_name;
  unary_union := union;
  centroid := middle;
  wkt := text;
  ST_GeomFromText := from_text;
  ST_Intersects := meet;
|}.

Definition row (cs : list (string * scalar shape))
  : gmap string (scalar shape) := list_to_map cs.

End Strip.

(** ** Sample data on the strip *)

Module Samples.
Import Strip.

Definition frame (cols : list string)
    (rs : list (list (string * scalar shape))) : DataFrame shape :=
  {| index_name := None;
     columns := cols;
     rows := range_index (row <$> rs) |}.

(** Raw ecoregion sources, one per level *)
Definition na_er1 : DataFrame shape :=
  frame ["NA_L1CODE"; "NA_L1NAME"; "geometry"; "source"]
    [[("NA_L1CODE", Str "9"); ("NA_L1NAME", Str "GREAT PLAINS");
      ("geometry", Geom (Cells [1])); ("source", Str "NA_CEC_Eco_Level1")];
     [("NA_L1CODE", Str "9"); ("NA_L1NAME", Str "GREAT PLAINS");
      ("geometry", Geom (Cells [5])); ("source", Str "NA_CEC_Eco_Level1")]].

Definition na_er2 : DataFrame shape :=
  frame ["NA_L2CODE"; "NA_L2NAME"; "NA_L1CODE"; "geometry"; "source"]
    [[("NA_L2CODE", Str "9.4"); ("NA_L2NAME", Str "SOUTH CENTRAL PRAIRIES");
      ("NA_L1CODE", Str "9");
      ("geometry", Geom (Cells [1])); ("source", Str "NA_CEC_Eco_Level2")]].

Definition cross_timbers : gmap string (scalar shape) :=
  row [("NA_L3CODE", Str "9.4.5"); ("NA_L3NAME", Str "Cross Timbers");
       ("NA_L2CODE", Str "9.4"); ("NA_L1CODE", Str "9");
       ("geometry", Geom (Cells [1])); ("source", Str "NA_CEC_Eco_Level3")].

Definition na_er3 : DataFrame shape :=
  {| index_name := None;
     columns := ["NA_L3CODE"; "NA_L3NAME"; "NA_L2CODE"; "NA_L1CODE";
                 "geometry"; "source"];
     rows := [(Pos 0, cross_timbers)] |}.

Definition conus_er3 : DataFrame shape :=
  frame ["US_L3CODE"; "US_L3NAME"; "NA_L3CODE"; "NA_L2CODE"; "NA_L1CODE";
         "geometry"; "source"]
    [[("US_L3CODE", Str "29"); ("US_L3NAME", Str "Cross Timbers");
      ("NA_L3CODE", Str "9.4.5"); ("NA_L2CODE", Str "9.4");
      ("NA_L1CODE", Str "9");
      ("geometry", Geom (Cells [1])); ("source", Str "US_Eco_Level3")];
     [("US_L3CODE", Str "29"); ("US_L3NAME", Str "Cross Timbers");
      ("NA_L3CODE", Str "9.4.5"); ("NA_L2CODE", Str "9.4");
      ("NA_L1CODE", Str "9");
      ("geometry", Geom (Cells [2])); ("source", Str "US_Eco_Level3")]].

Definition conus_er4 : DataFrame shape :=
  frame ["US_L4CODE"; "US_L4NAME"; "US_L3CODE"; "NA_L3CODE"; "NA_L2CODE";
         "NA_L1CODE"; "geometry"; "source"]
    [[("US_L4CODE", Str "29b"); ("US_L4NAME", Str "Eastern Cross Timbers");
      ("US_L3CODE", Str "29"); ("NA_L3CODE", Str "9.4.5");
      ("NA_L2CODE", Str "9.4"); ("NA_L1CODE", Str "9");
      ("geometry", Geom (Cells [2])); ("source", Str "US_Eco_Level4")]].

(** The lookup service: one US level-3 region is known. *)
Definition known (contextual_identifier : scalar shape) : scalar shape :=
  match contextual_identifier with
  | Str "US_L3CODE:29" => Str "Q5188529"
  | _ => PyNone
  end.

Definition known_by_name (kind : string) (name identifier : scalar shape)
  : scalar shape :=
  match name with
  | Str "Cross Timbers" => Str "Q5188529"
  | _ => PyNone
  end.

Definition as_is (s : string) : string := s.

Definition nothing : DataFrame shape := frame [] [].

(** The suite, from the sources to the combined and the aggregated
    regions *)
Definition combined : DataFrame shape :=
  default nothing
    ('(a, b, c, d, e) ←
       clean_synth_df na_er1 na_er2 na_er3 conus_er3 conus_er4;
     Some (combine_source_data a b c d e)).

Definition regions : DataFrame shape :=
  default nothing (combine_geometries combined).

(** The same with the first notebook's cell *)
Definition notebook_regions : DataFrame shape :=
  default nothing
    ('(a, b, c, d, e) ←
       notebook_clean na_er1 na_er2 na_er3 conus_er3 conus_er4;
     combine_geometries (combine_source_data a b c d e)).

(** Intersections of the regions with two states and a country *)
Definition df_intersections : DataFrame shape :=
  frame ["boundary_name"; "wikidata_id"; "admin_id"; "country_id";
         "contextual_identifier"]
    [[("boundary_name", Str "Texas"); ("wikidata_id", Str "Q1439");
      ("admin_id", Str "Q1439"); ("country_id", Str "Q30");
      ("contextual_identifier", Str "US_L3CODE:29")];
     [("boundary_name", Str "Oklahoma"); ("wikidata_id", Str "Q1649");
      ("admin_id", Str "Q1649"); ("country_id", Str "Q30");
      ("contextual_identifier", Str "US_L3CODE:29")];
     [("boundary_name", Str "Cooke"); ("wikidata_id", PyNone);
      ("admin_id", PyNone); ("country_id", Str "Q30");
      ("contextual_identifier", Str "US_L3CODE:29")];
     [("boundary_name", Str "Grayson"); ("wikidata_id", PyNone);
      ("admin_id", PyNone); ("country_id", Str "Q30");
      ("contextual_identifier", Str "US_L3CODE:29")];
     [("boundary_name", Str "Texas"); ("wikidata_id", Str "Q1439");
      ("admin_id", Str "Q1439"); ("country_id", Str "Q30");
      ("contextual_identifier", Str "NA_L1CODE:9")]].

(** The tables [ecoregions_m] and [ecoregions_p] the suite stores *)
Definition stored : option (DataFrame shape * DataFrame shape) :=
  '(prepared, _) ← prepare_wikidata_info as_is known regions;
  '(dataset_multi, dataset_poly) ← prep_source_for_pg prepared;
  load_to_pg dataset_multi dataset_poly.
Definition stored_m : DataFrame shape := default nothing (fst <$> stored).
Definition stored_p : DataFrame shape := default nothing (snd <$> stored).

(** Boundaries, each source with its own columns *)
Definition alberta : gmap string (scalar shape) :=
  row [("name", Str "Alberta"); ("abbreviation", Str "Alta.");
       ("geometry", Geom (Cells [7; 8])); ("country", Str "CA")].

Definition ca_states : DataFrame shape :=
  {| index_name := None;
     columns := ["name"; "abbreviation"; "geometry"; "country"];
     rows := [(Pos 0, alberta)] |}.

Definition us_states : DataFrame shape :=
  frame ["name"; "identifier"; "abbreviation"; "geometry"; "country"]
    [[("name", Str "Texas"); ("identifier", Str "48");
      ("abbreviation", Str "TX");
      ("geometry", Geom (Cells [1])); ("country", Str "US")]].

Definition mx_states : DataFrame shape :=
  frame ["name"; "identifier"; "abbreviation"; "geometry"; "country"]
    [[("name", Str "Sonora"); ("identifier", Str "MX26");
      ("abbreviation", Str "MEX-SON");
      ("geometry", Geom (Cells [0])); ("country", Str "MX")]].

Definition us_counties : DataFrame shape :=
  frame ["name"; "identifier"; "geometry"; "country"]
    [[("name", Str "Cooke"); ("identifier", Str "48097");
      ("geometry", Geom (Cells [1])); ("country", Str "US")]].

(** A frame with a polygon, a multipolygon and a point *)
Definition polygon_row : gmap string (scalar shape) :=
  row [("contextual_identifier", Str "NA_L1CODE:1");
       ("geometry", Geom (Cells [1]))].
Definition multipolygon_row : gmap string (scalar shape) :=
  row [("contextual_identifier", Str "NA_L1CODE:2");
       ("geometry", Geom (Cells [2; 4]))].
Definition point_row : gmap string (scalar shape) :=
  row [("contextual_identifier", Str "NA_L1CODE:3");
       ("geometry", Geom (Point 6))].

Definition mixed : DataFrame shape :=
  {| index_name := None;
     columns := ["contextual_identifier"; "geometry"];
     rows := [(Pos 0, polygon_row); (Pos 1, multipolygon_row);
              (Pos 2, point_row)] |}.

(** One row per key, its multipolygon made of the same cell twice *)
Definition overlapping_row : gmap string (scalar shape) :=
  row [("contextual_identifier", Str "US_L3CODE:7");
       ("geometry", Geom (Cells [3; 3])); ("source", Str "US_Eco_Level3")].

Definition overlapping : DataFrame shape :=
  {| index_name := None;
     columns := ["contextual_identifier"; "geometry"; "source"];
     rows := [(Pos 0, overlapping_row)] |}.

(** Typed tables for the intersections view *)
Definition boundaries_m : DataFrame shape :=
  frame ["name"; "wikidata_id"; "geom"]
    [[("name", Str "Alberta"); ("wikidata_id", Str "Q1951");
      ("geom", WKTElement (text (Cells [7; 8])) 4326)]].
Definition boundaries_p : DataFrame shape :=
  frame ["name"; "wikidata_id"; "geom"]
    [[("name", Str "Texas"); ("wikidata_id", Str "Q1439");
      ("geom", WKTElement (text (Cells [1])) 4326)]].
Definition ecoregions_m : DataFrame shape :=
  frame ["contextual_identifier"; "geom"]
    [[("contextual_identifier", Str "US_L3CODE:29");
      ("geom", WKTElement (text (Cells [1; 2])) 4326)]].
Definition ecoregions_p : DataFrame shape :=
  frame ["contextual_identifier"; "geom"]
    [[("contextual_identifier", Str "NA_L1CODE:2");
      ("geom", WKTElement (text (Cells [8])) 4326)]].

(** Two collections that each carry the columns of both roles *)
Definition twin_columns : list string :=
  ["name"; "wikidata_id"; "contextual_identifier"; "geom"].
Definition twin_boundaries : DataFrame shape :=
  frame twin_columns
    [[("name", Str "Texas"); ("wikidata_id", Str "Q1439");
      ("contextual_identifier", Str "US-TX");
      ("geom", WKTElement (text (Cells [1])) 4326)]].
Definition twin_regions : DataFrame shape :=
  frame twin_columns
    [[("name", Str "Cross Timbers"); ("wikidata_id", Str "Q5188529");
      ("contextual_identifier", Str "US_L3CODE:29");
      ("geom", WKTElement (text (Cells [1; 2])) 4326)]].
Definition twin_empty : DataFrame shape := frame twin_columns [].

(** What the suite and the first notebook compute on these data *)
Definition mixed_multi : DataFrame shape :=
  default nothing (fst <$> prep_source_for_pg mixed).
Definition mixed_poly : DataFrame shape :=
  default nothing (snd <$> prep_source_for_pg mixed).

Definition cleaned : DataFrame shape * DataFrame shape * DataFrame shape
                     * DataFrame shape * DataFrame shape :=
  default (nothing, nothing, nothing, nothing, nothing)
    (clean_synth_df na_er1 na_er2 na_er3 conus_er3 conus_er4).

Definition prepared : DataFrame shape :=
  default nothing (fst <$> prepare_wikidata_info as_is known regions).
Definition calls : lookup_log :=
  default [] (snd <$> prepare_wikidata_info as_is known regions).

Definition assembled : ObjFrame shape :=
  default (mkObjFrame [] [])
    (recombine_ecoregions stored_m stored_p df_intersections).

Definition notebook_prepared : DataFrame shape :=
  default nothing
    (fst <$> notebook_wikidata_info as_is known_by_name notebook_regions).
Definition notebook_calls : lookup_log :=
  default []
    (snd <$> notebook_wikidata_info as_is known_by_name notebook_regions).

(** The cells of a frame under some columns, row by row *)
Definition cells_of (cols : list string) (df : DataFrame shape)
  : list (label * list (scalar shape)) :=
  (λ ir : label * gmap string (scalar shape),
     (ir.1, (λ c, cell df ir.2 c) <$> cols)) <$> rows df.

(** The view over the typed tables *)
Definition view : DataFrame shape :=
  default nothing
    (intersections_view boundaries_m boundaries_p ecoregions_m ecoregions_p).

(** The lookup service of the boundaries: two states and the three
    countries are known. *)
Definition admin_ref (country name identifier : scalar shape)
    (return_var : string) : scalar shape :=
  if decide (return_var = "wd_id") then
    match name with
    | Str "Texas" => Str "Q1439"
    | Str "Alberta" => Str "Q1951"
    | _ => PyNone
    end
  else
    match country with
    | Str "US" => Str "Q30"
    | Str "CA" => Str "Q16"
    | Str "MX" => Str "Q96"
    | _ => PyNone
    end.

(** What the boundaries notebook computes on the four sources *)
Definition resolved : DataFrame shape :=
  default nothing
    (resolve_boundaries admin_ref
       (combine_boundaries ca_states us_states mx_states us_counties)).

Definition tables : option (DataFrame shape * DataFrame shape) :=
  boundary_tables admin_ref ca_states us_states mx_states us_counties.
Definition tables_m : DataFrame shape := default nothing (fst <$> tables).
Definition tables_p : DataFrame shape := default nothing (snd <$> tables).

(** The first notebook on the same data *)
Definition notebook_na_er3 : DataFrame shape :=
  default nothing (notebook_clean_na_er3 na_er3).


(** The US level-4 record of the sources *)
Definition eastern_cross_timbers : gmap string (scalar shape) :=
  row [("US_L4CODE", Str "29b"); ("US_L4NAME", Str "Eastern Cross Timbers");
       ("US_L3CODE", Str "29"); ("NA_L3CODE", Str "9.4.5");
       ("NA_L2CODE", Str "9.4"); ("NA_L1CODE", Str "9");
       ("geometry", Geom (Cells [2])); ("source", Str "US_Eco_Level4")].

(** The first record of the top level, once normalized *)
Definition great_plains : gmap string (scalar shape) :=
  default ∅ (snd <$> rows cleaned.1.1.1.1 !! 0).

End Samples.

(** * Properties *)

Section FrameLemmas.
Context {G : Type} `{Geometric G}.
Implicit Types (df : DataFrame G) (r : gmap string (scalar G)).

Lemma lookup_tabulated (g : string → scalar G) (cols : list string) c :
  (list_to_map ((λ c, (c, g c)) <$> cols) : gmap string (scalar G)) !! c
  = if decide (c ∈ cols) then Some (g c) else None.
Proof.
  induction cols as [|c' cols IH]; [done|].
  rewrite fmap_cons, list_to_map_cons.
  destruct (decide (c' = c)) as [->|Hne].
  - rewrite lookup_insert_eq. by rewrite decide_True by set_solver.
  - rewrite lookup_insert_ne by done. rewrite IH.
    destruct (decide (c ∈ cols)).
    + by rewrite decide_True by set_solver.
    + by rewrite decide_False by set_solver.
Qed.

Lemma range_index_lookup (rs : list (gmap string (scalar G))) j i r :
  range_index rs !! j = Some (i, r) ↔ i = Pos j ∧ rs !! j = Some r.
Proof.
  unfold range_index. rewrite lookup_zip_with_Some. split.
  - intros (x & y & [= <- <-] & Hx & Hy).
    rewrite list_lookup_fmap in Hx.
    destruct (seq 0 (length rs) !! j) as [n|] eqn:Hs; [|done].
    apply lookup_seq in Hs as [-> _]. simpl in Hx. by simplify_eq.
  - intros [-> Hr]. exists (Pos j), r. split_and!; [done| |done].
    rewrite list_lookup_fmap, lookup_seq_lt; [done|].
    by eapply lookup_lt_Some.
Qed.

Lemma range_index_snd (rs : list (gmap string (scalar G))) :
  (range_index rs).*2 = rs.
Proof.
  unfold range_index. apply snd_zip. by rewrite length_fmap, length_seq.
Qed.

Lemma range_index_fst (rs : list (gmap string (scalar G))) :
  (range_index rs).*1 = Pos <$> seq 0 (length rs).
Proof.
  unfold range_index. apply fst_zip. by rewrite length_fmap, length_seq.
Qed.

Lemma range_index_NoDup (rs : list (gmap string (scalar G))) :
  NoDup (range_index rs).*1.
Proof.
  rewrite range_index_fst. apply NoDup_fmap_2; [|apply NoDup_seq].
  by intros ?? [= ->].
Qed.

Lemma range_index_elem_of (rs : list (gmap string (scalar G))) i r :
  (i, r) ∈ range_index rs → r ∈ rs.
Proof.
  intros [j Hj]%list_elem_of_lookup.
  apply range_index_lookup in Hj as [_ Hr].
  by eapply list_elem_of_lookup_2.
Qed.

Lemma elem_of_range_index (rs : list (gmap string (scalar G))) r :
  r ∈ rs → ∃ i, (i, r) ∈ range_index rs.
Proof.
  intros [j Hj]%list_elem_of_lookup. exists (Pos j).
  eapply list_elem_of_lookup_2. by apply range_index_lookup.
Qed.

Lemma mjoin_lookup_offset {A} (ls : list (list A)) k l j :
  ls !! k = Some l → j < length l →
  mjoin ls !! (length (mjoin (take k ls)) + j) = l !! j.
Proof.
  revert k. induction ls as [|l0 ls IH]; intros [|k] Hk Hj;
    simplify_eq/=.
  - by rewrite lookup_app_l.
  - rewrite length_app, <-Nat.add_assoc.
    rewrite lookup_app_r by lia.
    replace (length l0 + _ - length l0) with
      (length (mjoin (take k ls)) + j) by lia.
    by apply IH.
Qed.

Lemma add_columns_elem_of (acc new : list string) c :
  c ∈ add_columns acc new ↔ c ∈ acc ∨ c ∈ new.
Proof.
  unfold add_columns. revert acc.
  induction new as [|c' new IH]; intros acc; simpl; [set_solver|].
  rewrite IH. case_decide; set_solver.
Qed.

Lemma where_cell_not_NaN (v : scalar G) : where_notnull_none_cell v ≠ NaN.
Proof. by destruct v. Qed.

Lemma where_cell_null (v : scalar G) :
  notnull v = false → where_notnull_none_cell v = PyNone.
Proof. unfold where_notnull_none_cell. by intros ->. Qed.

Lemma where_cell_notnull (v : scalar G) :
  notnull v = true → where_notnull_none_cell v = v.
Proof. unfold where_notnull_none_cell. by intros ->. Qed.

Lemma where_rows df :
  rows (where_notnull_none df)
  = (λ ir : label * gmap string (scalar G),
       (ir.1, where_notnull_none_cell <$> ir.2)) <$> rows df.
Proof. done. Qed.

Lemma where_columns df : columns (where_notnull_none df) = columns df.
Proof. done. Qed.

Lemma cell_absent df r c : c ∉ columns df → cell df r c = NaN.
Proof. intros ?. unfold cell. by rewrite decide_False. Qed.

Lemma cell_present df r c v :
  c ∈ columns df → r !! c = Some v → cell df r c = v.
Proof. intros ? Hv. unfold cell. rewrite decide_True by done. by rewrite Hv. Qed.

End FrameLemmas.

(** ** The combined boundaries hold no [NaN] *)

Section CombinedBoundaries.
Context {G : Type} `{Geometric G}.
Implicit Types (df : DataFrame G) (r : gmap string (scalar G)).

Lemma union_columns_acc (dfs : list (DataFrame G)) acc c :
  c ∈ acc → c ∈ foldl (λ a df, add_columns a (columns df)) acc dfs.
Proof.
  revert acc. induction dfs as [|d dfs IH]; intros acc Hc; simpl; [done|].
  apply IH, add_columns_elem_of. by left.
Qed.

Lemma union_columns_elem_of (dfs : list (DataFrame G)) df c :
  df ∈ dfs → c ∈ columns df → c ∈ union_columns dfs.
Proof.
  unfold union_columns. generalize (@nil string).
  induction dfs as [|d dfs IH]; intros acc Hin Hc; [by inv Hin|].
  simpl. apply elem_of_cons in Hin as [->|Hin].
  - apply union_columns_acc, add_columns_elem_of. by right.
  - by apply IH.
Qed.

(** A row of a concatenation, seen from the frame it came from. *)
Lemma concat_lookup (dfs : list (DataFrame G)) k df j i r :
  dfs !! k = Some df → rows df !! j = Some (i, r) →
  let n := length (mjoin (rows <$> take k dfs)) + j in
  rows (concat dfs) !! n
  = Some (Pos n, reindex_row df (union_columns dfs) r).
Proof.
  intros Hk Hj n. unfold concat; simpl.
  apply range_index_lookup. split; [done|].
  assert (length (mjoin (rows <$> take k dfs))
          = length (mjoin (take k (reindexed (union_columns dfs) <$> dfs))))
    as Hlen.
  { rewrite <-fmap_take. generalize (take k dfs). intros l.
    induction l as [|d l IH]; csimpl; [done|].
    rewrite !length_app, IH. unfold reindexed. by rewrite length_fmap. }
  subst n. rewrite Hlen.
  rewrite (mjoin_lookup_offset _ k (reindexed (union_columns dfs) df)).
  - unfold reindexed. rewrite list_lookup_fmap, Hj. done.
  - by rewrite list_lookup_fmap, Hk.
  - unfold reindexed. rewrite length_fmap. by eapply lookup_lt_Some.
Qed.

Lemma concat_row_inv (dfs : list (DataFrame G)) i r' :
  (i, r') ∈ rows (concat dfs) →
  ∃ df r, df ∈ dfs ∧ r ∈ (rows df).*2
          ∧ r' = reindex_row df (union_columns dfs) r.
Proof.
  unfold concat; simpl. intros Hin%range_index_elem_of.
  apply list_elem_of_join in Hin as (l & Hr & Hl).
  apply list_elem_of_fmap in Hl as (df & -> & Hdf).
  unfold reindexed in Hr.
  apply list_elem_of_fmap in Hr as ([i0 r] & -> & Hr).
  exists df, r. split_and!; [done| |done].
  apply list_elem_of_fmap. by exists (i0, r).
Qed.

Lemma text_column_spec c (dfs : list (DataFrame G)) :
  text_column c dfs = true →
  ∃ df, df ∈ dfs ∧ c ∈ columns df.
Proof.
  unfold text_column. rewrite existsb_exists.
  intros (df & Hdf%list_elem_of_In & (ir & _ & Hc)%existsb_exists).
  exists df. split; [done|].
  destruct (decide (c ∈ columns df)) as [|Hn]; [done|].
  by rewrite cell_absent in Hc.
Qed.

(** C10: for a column under which some boundary source holds a text
    (the columns of the boundary schema: name, identifier, abbreviation,
    country), the combined boundaries have the column, no cell under it
    is [NaN] (so no [NaN] under it is read by the row-wise identifier
    lookup), and a row whose source frame does not have the column
    holds [None] there, a cell it does have being carried over. *)
Theorem combine_boundaries_no_NaN
    (ca_states us_states mx_states us_counties : DataFrame G) c :
  let sources := [ca_states; us_states; mx_states; us_counties] in
  let boundaries :=
    combine_boundaries ca_states us_states mx_states us_counties in
  text_column c sources = true →
  c ∈ columns boundaries
  ∧ (∀ i r, (i, r) ∈ rows boundaries →
       ∃ v, r !! c = Some v ∧ getitem boundaries r c = Some v ∧ v ≠ NaN)
  ∧ (∀ k df j i r, sources !! k = Some df → rows df !! j = Some (i, r) →
       let n := length (mjoin (rows <$> take k sources)) + j in
       ∃ r', rows boundaries !! n = Some (Pos n, r')
         ∧ (c ∉ columns df → r' !! c = Some PyNone)
         ∧ (c ∈ columns df →
              r' !! c = Some (where_notnull_none_cell (cell df r c)))).
Proof.
  intros sources boundaries (df0 & Hdf0 & Hc0)%text_column_spec.
  assert (c ∈ union_columns sources) as Hu
    by (by eapply union_columns_elem_of).
  assert (c ∈ columns boundaries) as Hc by done.
  split_and!; [done| |].
  - intros i r Hin.
    unfold boundaries, combine_boundaries in Hin.
    rewrite where_rows in Hin.
    apply list_elem_of_fmap in Hin as ([i0 r0] & [= -> ->] & Hin).
    apply concat_row_inv in Hin as (df & r1 & _ & _ & ->).
    cbn [fst snd].
    exists (where_notnull_none_cell (cell df r1 c)).
    assert ((where_notnull_none_cell <$>
               reindex_row df (union_columns sources) r1) !! c
            = Some (where_notnull_none_cell (cell df r1 c))) as Hlk.
    { rewrite lookup_fmap. unfold reindex_row.
      rewrite lookup_tabulated, decide_True by done. done. }
    split_and!; [done| |apply where_cell_not_NaN].
    unfold getitem. rewrite decide_True by done. f_equal.
    by apply cell_present.
  - intros k df j i r Hk Hj n.
    pose proof (concat_lookup sources k df j i r Hk Hj) as Hrow.
    cbv zeta in Hrow.
    exists (where_notnull_none_cell <$>
              reindex_row df (union_columns sources) r).
    split_and!.
    + unfold boundaries, combine_boundaries. rewrite where_rows.
      rewrite list_lookup_fmap. fold sources. subst n.
      by rewrite Hrow.
    + intros Hnc. rewrite lookup_fmap. unfold reindex_row.
      rewrite lookup_tabulated, decide_True by done. simpl.
      by rewrite cell_absent.
    + intros _. rewrite lookup_fmap. unfold reindex_row.
      by rewrite lookup_tabulated, decide_True.
Qed.

End CombinedBoundaries.

(** ** Column assignment, row by row *)

Section Assignment.
Context {G : Type} `{Geometric G}.
Implicit Types (df : DataFrame G) (r : gmap string (scalar G)).
Implicit Types (rs : list (label * gmap string (scalar G))).

Lemma rowwise_index step rs rs' : rowwise step rs rs' → rs'.*1 = rs.*1.
Proof.
  induction 1 as [|[i r] [i' r'] rs rs' [Hi _] _ IH]; [done|].
  rewrite !fmap_cons. simpl in Hi. by rewrite IH, Hi.
Qed.

Lemma rowwise_elem_of step rs rs' i r :
  rowwise step rs rs' → (i, r) ∈ rs →
  ∃ r', (i, r') ∈ rs' ∧ step r r'.
Proof.
  intros HF [j Hj]%list_elem_of_lookup.
  destruct (Forall2_lookup_l _ _ _ _ _ HF Hj) as ([i' r'] & Hj' & Hi & Hs).
  simpl in *. subst i'. exists r'. split; [|done].
  by eapply list_elem_of_lookup_2.
Qed.

Lemma rowwise_elem_of_inv step rs rs' i r' :
  rowwise step rs rs' → (i, r') ∈ rs' →
  ∃ r, (i, r) ∈ rs ∧ step r r'.
Proof.
  intros HF [j Hj]%list_elem_of_lookup.
  destruct (Forall2_lookup_r _ _ _ _ _ HF Hj) as ([i0 r] & Hj' & Hi & Hs).
  simpl in *. subst i. exists r. split; [|done].
  by eapply list_elem_of_lookup_2.
Qed.

(** The Series computed row by row *)
Lemma series_spec (f : gmap string (scalar G) → option (scalar G))
    (rs : list (label * gmap string (scalar G))) (s : Series G) :
  mapM (λ ir : label * gmap string (scalar G),
          v ← f ir.2; Some (ir.1, v)) rs = Some s →
  s.*1 = rs.*1
  ∧ Forall2 (λ ir v, f ir.2 = Some v) rs s.*2.
Proof.
  rewrite mapM_Some. induction 1 as [|[i r] [i' v] rs s Hx _ [IH1 IH2]].
  - done.
  - simpl in *. destruct (f r) as [v'|] eqn:Hf; simplify_eq/=.
    split; [f_equal; exact IH1|]. constructor; [done|exact IH2].
Qed.

Lemma setitem_aligned c (s : Series G) df df' :
  s.*1 = index df → setitem c s df = Some df' →
  index_name df' = index_name df
  ∧ columns df' = add_columns (columns df) [c]
  ∧ rows df' = zip_with (λ (ir : label * gmap string (scalar G)) v,
                           (ir.1, <[c:=v]> ir.2)) (rows df) s.*2.
Proof.
  intros Hs. unfold setitem. rewrite decide_True by done.
  by intros [= <-].
Qed.

(** [df[c] = ...] with a Series computed from the rows of [df] itself *)
Lemma assign_spec c (f : gmap string (scalar G) → option (scalar G))
    df (s : Series G) df' :
  mapM (λ ir : label * gmap string (scalar G),
          v ← f ir.2; Some (ir.1, v)) (rows df) = Some s →
  setitem c s df = Some df' →
  index_name df' = index_name df
  ∧ columns df' = add_columns (columns df) [c]
  ∧ rowwise (λ r r', ∃ v, f r = Some v ∧ r' = <[c:=v]> r)
            (rows df) (rows df').
Proof.
  intros [Hidx HF]%series_spec Hset.
  apply setitem_aligned in Hset as (Hn & Hc & Hr); [|done].
  split_and!; [done..|]. rewrite Hr. clear Hr Hidx.
  unfold rowwise. induction HF as [|[i r] v rs vs Hv _ IH]; [constructor|].
  simpl. constructor; [|done]. simpl. eauto.
Qed.

Lemma drop_columns_spec cs df df' :
  drop_columns cs df = Some df' →
  index_name df' = index_name df
  ∧ columns df' = filter (λ c, c ∉ cs) (columns df)
  ∧ rowwise (λ r r', r' = filter (λ kv, kv.1 ∉ cs) r) (rows df) (rows df').
Proof.
  unfold drop_columns. case_decide; [|done]. intros [= <-]. simpl.
  split_and!; [done..|]. unfold rowwise.
  induction (rows df) as [|[i r] rs IH]; [constructor|].
  rewrite fmap_cons. by constructor.
Qed.

Lemma rowwise_compose step1 step2 rs1 rs2 rs3 :
  rowwise step1 rs1 rs2 → rowwise step2 rs2 rs3 →
  rowwise (λ r r'', ∃ r', step1 r r' ∧ step2 r' r'') rs1 rs3.
Proof.
  intros H1. revert rs3.
  induction H1 as [|[i r] [i' r'] rs1 rs2 [Hi Hs] _ IH]; intros rs3 H2.
  - inversion H2. constructor.
  - inversion H2 as [|x [i'' r''] l l' [Hi' Hs'] Hrest]; subst.
    simpl in *.
    constructor; [|by apply IH]. simpl. split; [congruence|eauto].
Qed.

Lemma rowwise_impl (step1 step2 : gmap string (scalar G) →
                                  gmap string (scalar G) → Prop) rs rs' :
  (∀ r r', step1 r r' → step2 r r') →
  rowwise step1 rs rs' → rowwise step2 rs rs'.
Proof.
  intros Himpl HF. eapply Forall2_impl; [done|].
  intros [i r] [i' r'] [? ?]. split; [done|]. by apply Himpl.
Qed.

End Assignment.

(** ** The geometry partition *)

Section Partition.
Context {G : Type} `{Geometric G}.
Implicit Types (df : DataFrame G) (r : gmap string (scalar G)).

Lemma index_functional (rs : list (label * gmap string (scalar G))) i r1 r2 :
  NoDup rs.*1 → (i, r1) ∈ rs → (i, r2) ∈ rs → r1 = r2.
Proof.
  induction rs as [|[j r] rs IH]; [by intros _ ?%elem_of_nil|].
  rewrite fmap_cons, NoDup_cons. simpl. intros [Hj Hnd].
  rewrite !elem_of_cons. intros [[= -> ->]|H1] [[= ->]|H2]; try done.
  - destruct Hj. apply list_elem_of_fmap. by exists (j, r2).
  - simplify_eq. destruct Hj. apply list_elem_of_fmap. by exists (j, r1).
  - by apply IH.
Qed.

Lemma index_filter_NoDup (P : label * gmap string (scalar G) → Prop)
    `{∀ x, Decision (P x)} (rs : list (label * gmap string (scalar G))) :
  NoDup rs.*1 → NoDup (filter P rs).*1.
Proof.
  induction rs as [|x rs IH]; [done|].
  rewrite fmap_cons, NoDup_cons. intros [Hx Hnd].
  rewrite filter_cons. case_decide; [|by apply IH].
  rewrite fmap_cons. apply NoDup_cons. split; [|by apply IH].
  intros (y & Hy & Hin%list_elem_of_filter)%list_elem_of_fmap.
  apply Hx, list_elem_of_fmap. exists y. tauto.
Qed.

Lemma apply_column_series c (f : scalar G → option (scalar G)) df s :
  apply_column c f df = Some s →
  c ∈ columns df
  ∧ mapM (λ ir : label * gmap string (scalar G),
            v ← (λ r, f (cell df r c)) ir.2; Some (ir.1, v)) (rows df)
    = Some s.
Proof. unfold apply_column. by case_decide. Qed.

(** [add_geom] followed by dropping the geometry column stores every
    row. *)
Lemma stored_spec df df1 df2 :
  add_geom df = Some df1 → drop_columns ["geometry"] df1 = Some df2 →
  index_name df2 = index_name df
  ∧ rowwise (λ r r', ∃ g, cell df r "geometry" = Geom g
                          ∧ r' = stored_row g r) (rows df) (rows df2).
Proof.
  unfold add_geom. intros Hadd Hdrop.
  destruct (apply_column "geometry" to_wkt_element df) as [s|] eqn:Hs;
    [|done].
  apply apply_column_series in Hs as [_ Hs]. simpl in Hadd.
  destruct (assign_spec "geom"
              (λ r, to_wkt_element (cell df r "geometry")) _ _ _ Hs Hadd)
    as (Hn1 & _ & Hr1).
  destruct (drop_columns_spec _ _ _ Hdrop) as (Hn2 & _ & Hr2).
  split; [congruence|].
  eapply rowwise_impl; [|by eapply rowwise_compose].
  intros r r'' (r' & (v & Hv & ->) & ->). simpl in Hv.
  destruct (cell df r "geometry") as [| | | |g|] eqn:Hg; simplify_eq/=.
  by exists g.
Qed.

Lemma drop_labels_columns ls df : columns (drop_labels ls df) = columns df.
Proof. done. Qed.

Lemma cell_same_columns df df' r c :
  columns df' = columns df → cell df' r c = cell df r c.
Proof. unfold cell. by intros ->. Qed.

(** Where a row of the input lands, by the type of its geometry. *)
Lemma prep_source_for_pg_rows df dataset_multi dataset_poly i r g :
  prep_source_for_pg df = Some (dataset_multi, dataset_poly) →
  NoDup (index df) →
  (i, r) ∈ rows df → cell df r "geometry" = Geom g →
  ((i, stored_row g r) ∈ rows dataset_multi ↔ geom_type g ≠ "Polygon")
  ∧ ((i, stored_row g r) ∈ rows dataset_poly
     ↔ geom_type g ≠ "MultiPolygon")
  ∧ (i ∈ index dataset_multi ↔ geom_type g ≠ "Polygon")
  ∧ (i ∈ index dataset_poly ↔ geom_type g ≠ "MultiPolygon")
  ∧ NoDup (index dataset_multi) ∧ NoDup (index dataset_poly).
Proof.
  unfold prep_source_for_pg, split_geometry.
  intros Hprep Hnd Hin Hg.
  set (m0 := drop_labels (index (loc (λ r, bool_decide
                (row_geom_type df r = Str "Polygon")) df)) df) in Hprep.
  set (p0 := drop_labels (index (loc (λ r, bool_decide
                (row_geom_type df r = Str "MultiPolygon")) df)) df) in Hprep.
  destruct (add_geom m0) as [m1|] eqn:Hm1; [|done]. simpl in Hprep.
  destruct (add_geom p0) as [p1|] eqn:Hp1; [|done]. simpl in Hprep.
  destruct (drop_columns ["geometry"] m1) as [m2|] eqn:Hm2; [|done].
  simpl in Hprep.
  destruct (drop_columns ["geometry"] p1) as [p2|] eqn:Hp2; [|done].
  simpl in Hprep. injection Hprep as <- <-.
  destruct (stored_spec _ _ _ Hm1 Hm2) as [_ Hrm].
  destruct (stored_spec _ _ _ Hp1 Hp2) as [_ Hrp].
  assert (∀ t df0,
    rows df0 = filter (λ ir : label * gmap string (scalar G),
      ir.1 ∉ index (loc (λ r, bool_decide
                (row_geom_type df r = Str t)) df)) (rows df) →
    columns df0 = columns df →
    ∀ df2, rowwise (λ r r', ∃ g, cell df0 r "geometry" = Geom g
                                 ∧ r' = stored_row g r)
                   (rows df0) (rows df2) →
    ((i, stored_row g r) ∈ rows df2 ↔ geom_type g ≠ t)
    ∧ (i ∈ index df2 ↔ geom_type g ≠ t)
    ∧ NoDup (index df2)) as Hside.
  { intros t df0 Hrows Hcols df2 Hrw.
    assert (i ∈ index (loc (λ r, bool_decide
              (row_geom_type df r = Str t)) df) ↔ geom_type g = t) as Hlab.
    { unfold index, loc. simpl. rewrite list_elem_of_fmap. split.
      - intros ([i' r'] & -> & [Hm Hr']%list_elem_of_filter). simpl in *.
        assert (r' = r) as -> by by eapply index_functional.
        apply bool_decide_eq_true in Hm. unfold row_geom_type in Hm.
        rewrite Hg in Hm. by injection Hm.
      - intros Ht. exists (i, r). split; [done|].
        apply list_elem_of_filter. split; [|done]. simpl.
        apply bool_decide_eq_true. unfold row_geom_type.
        by rewrite Hg, Ht. }
    assert (index df2 = index df0) as Hidx
      by (by apply rowwise_index in Hrw).
    assert (i ∈ index df0 ↔ geom_type g ≠ t) as Hi0.
    { unfold index. rewrite Hrows, list_elem_of_fmap. split.
      - intros ([i' r'] & -> & [Hm _]%list_elem_of_filter). simpl in Hm.
        by rewrite Hlab in Hm.
      - intros Hne. exists (i, r). split; [done|].
        apply list_elem_of_filter. split; [|done]. simpl. by rewrite Hlab. }
    split_and!.
    - split.
      + intros Hin2. apply Hi0. rewrite <-Hidx. unfold index.
        apply list_elem_of_fmap. by exists (i, stored_row g r).
      + intros Hne.
        assert ((i, r) ∈ rows df0) as Hin0.
        { rewrite Hrows. apply list_elem_of_filter. split; [|done].
          simpl. by rewrite Hlab. }
        destruct (rowwise_elem_of _ _ _ _ _ Hrw Hin0)
          as (r' & Hin2 & g' & Hg' & ->).
        rewrite (cell_same_columns df) in Hg' by done.
        rewrite Hg in Hg'. by simplify_eq.
    - by rewrite Hidx.
    - rewrite Hidx. unfold index. rewrite Hrows.
      by apply index_filter_NoDup. }
  destruct (Hside "Polygon" m0 eq_refl eq_refl m2 Hrm) as (? & ? & ?).
  destruct (Hside "MultiPolygon" p0 eq_refl eq_refl p2 Hrp) as (? & ? & ?).
  done.
Qed.

(** C1, for rows whose geometry is a polygon or a multipolygon and a
    frame with unique row labels: the row is stored in exactly one of
    the two frames (the one of its type), under its own label, with
    its attributes unchanged. *)
Theorem prep_source_for_pg_partition df dataset_multi dataset_poly i r g :
  prep_source_for_pg df = Some (dataset_multi, dataset_poly) →
  NoDup (index df) →
  (i, r) ∈ rows df → cell df r "geometry" = Geom g →
  geom_type g = "Polygon" ∨ geom_type g = "MultiPolygon" →
  (geom_type g = "MultiPolygon" ∧
     (i, stored_row g r) ∈ rows dataset_multi ∧ i ∉ index dataset_poly
   ∨ geom_type g = "Polygon" ∧
     (i, stored_row g r) ∈ rows dataset_poly ∧ i ∉ index dataset_multi)
  ∧ NoDup (index dataset_multi) ∧ NoDup (index dataset_poly)
  ∧ (∀ c, c ≠ "geometry" → c ≠ "geom" → stored_row g r !! c = r !! c).
Proof.
  intros Hprep Hnd Hin Hg Ht.
  destruct (prep_source_for_pg_rows _ _ _ _ _ _ Hprep Hnd Hin Hg)
    as (Hm & Hp & Him & Hip & Hndm & Hndp).
  split_and!; [|done..|].
  - destruct Ht as [Ht|Ht].
    + right. split; [done|]. split.
      * apply Hp. by rewrite Ht.
      * rewrite Him. by intros [].
    + left. split; [done|]. split.
      * apply Hm. by rewrite Ht.
      * rewrite Hip. by intros [].
  - intros c Hc1 Hc2. unfold stored_row.
    rewrite map_lookup_filter. rewrite lookup_insert_ne by done.
    destruct (r !! c) as [v|] eqn:Hv; simpl; [|done].
    rewrite option_guard_True; [done|]. simpl. set_solver.
Qed.

(** A row with any other type of geometry is stored in both frames. *)
Lemma prep_source_for_pg_other df dataset_multi dataset_poly i r g :
  prep_source_for_pg df = Some (dataset_multi, dataset_poly) →
  NoDup (index df) →
  (i, r) ∈ rows df → cell df r "geometry" = Geom g →
  geom_type g ≠ "Polygon" → geom_type g ≠ "MultiPolygon" →
  (i, stored_row g r) ∈ rows dataset_multi
  ∧ (i, stored_row g r) ∈ rows dataset_poly.
Proof.
  intros Hprep Hnd Hin Hg H1 H2.
  destruct (prep_source_for_pg_rows _ _ _ _ _ _ Hprep Hnd Hin Hg)
    as (Hm & Hp & _).
  split; [by apply Hm|by apply Hp].
Qed.

(** The boundaries notebook splits its frame by the same steps. *)
Lemma split_boundaries_eq (boundaries : DataFrame G) :
  split_boundaries boundaries = prep_source_for_pg boundaries.
Proof. done. Qed.

End Partition.

(** ** Serialized ancestors: split after join *)

Section Strings.

Lemma append_cons c (s t : string) : String c s +:+ t = String c (s +:+ t).
Proof. done. Qed.

Lemma append_nil_l (t : string) : EmptyString +:+ t = t.
Proof. done. Qed.

Lemma append_nil_r (s : string) : s +:+ EmptyString = s.
Proof. induction s as [|c s IH]; [done|]. by rewrite append_cons, IH. Qed.

Lemma append_assoc (s t u : string) : (s +:+ t) +:+ u = s +:+ (t +:+ u).
Proof.
  induction s as [|c s IH]; [done|]. by rewrite !append_cons, IH.
Qed.

Lemma contains_cons sep c s :
  contains sep (String c s) = false ↔ c ≠ sep ∧ contains sep s = false.
Proof.
  simpl. rewrite orb_false_iff, bool_decide_eq_false. done.
Qed.

Lemma split_cons_ne sep c s :
  c ≠ sep →
  split sep (String c s)
  = match split sep s with
    | h :: t => String c h :: t
    | [] => [String c EmptyString]
    end.
Proof. intros Hne. simpl. by rewrite decide_False. Qed.

Lemma split_sep sep s :
  split sep (String sep s) = EmptyString :: split sep s.
Proof. simpl. by rewrite decide_True. Qed.

Lemma split_no_sep sep (a : string) :
  contains sep a = false → split sep a = [a].
Proof.
  induction a as [|c a IH]; [done|].
  intros [Hne Ha]%contains_cons.
  rewrite split_cons_ne by done. by rewrite IH.
Qed.

Lemma split_append sep (a b : string) :
  contains sep a = false →
  split sep (a +:+ String sep b) = a :: split sep b.
Proof.
  induction a as [|c a IH].
  - intros _. by rewrite append_nil_l, split_sep.
  - intros [Hne Ha]%contains_cons.
    rewrite append_cons, split_cons_ne by done. by rewrite IH.
Qed.

Lemma join_cons_cons sep x y (rest : list string) :
  join sep (x :: y :: rest) = x +:+ sep +:+ join sep (y :: rest).
Proof. done. Qed.

(** Splitting on ';' undoes joining with ';'. *)
Lemma split_join (parts : list string) :
  parts ≠ [] → Forall (λ a, contains ";" a = false) parts →
  split ";" (join ";" parts) = parts.
Proof.
  induction parts as [|x [|y rest] IH]; [done| |].
  - intros _ [Hx _]%Forall_cons. by apply split_no_sep.
  - intros _ [Hx Hrest]%Forall_cons.
    rewrite join_cons_cons.
    change (";" +:+ join ";" (y :: rest))
      with (String ";" (join ";" (y :: rest))).
    rewrite split_append by done. f_equal. by apply IH.
Qed.

End Strings.

Section RoundTrip.
Context {G : Type} `{Geometric G}.

(** C5: parsing the serialized ancestors gives the sequence back, in
    order, when no identifier contains ';'; no ancestors, serialized
    as [None], come back as [None]. *)
Theorem part_of_identifiers_roundtrip (ancestors : list string) :
  Forall (λ a, contains ";" a = false) ancestors →
  parse_part_of (serialize_part_of (G:=G) ancestors)
  = Some match ancestors with
         | [] => Scalar PyNone
         | _ => PyList (Str <$> ancestors)
         end.
Proof.
  intros Hsep. destruct ancestors as [|a rest]; [done|].
  unfold serialize_part_of, parse_part_of.
  by rewrite split_join.
Qed.

(** The strings that [clean_synth_df] writes are such joins, of one to
    four ancestors. *)
Lemma part_of_l2_serialized (row : string → option (scalar G)) c1 :
  row "NA_L1CODE" = Some (Str c1) →
  fstring part_of_l2 row
  = Some (serialize_part_of ["NA_L1CODE:" +:+ c1]).
Proof.
  intros H1. unfold fstring, part_of_l2. simpl. rewrite H1. simpl.
  by rewrite append_nil_r.
Qed.

Lemma part_of_l3_serialized (row : string → option (scalar G)) c1 c2 :
  row "NA_L1CODE" = Some (Str c1) → row "NA_L2CODE" = Some (Str c2) →
  fstring part_of_l3 row
  = Some (serialize_part_of ["NA_L1CODE:" +:+ c1; "NA_L2CODE:" +:+ c2]).
Proof.
  intros H1 H2. unfold fstring, part_of_l3. simpl. rewrite H1, H2. simpl.
  do 2 f_equal. unfold join.
  by rewrite append_nil_r, !append_assoc.
Qed.

Lemma part_of_us_l3_serialized (row : string → option (scalar G))
    c1 c2 c3 :
  row "NA_L1CODE" = Some (Str c1) → row "NA_L2CODE" = Some (Str c2) →
  row "NA_L3CODE" = Some (Str c3) →
  fstring part_of_us_l3 row
  = Some (serialize_part_of
            ["NA_L1CODE:" +:+ c1; "NA_L2CODE:" +:+ c2;
             "NA_L3CODE:" +:+ c3]).
Proof.
  intros H1 H2 H3. unfold fstring, part_of_us_l3. simpl.
  rewrite H1, H2, H3. simpl.
  do 2 f_equal. unfold join.
  by rewrite append_nil_r, !append_assoc.
Qed.

Lemma part_of_us_l4_serialized (row : string → option (scalar G))
    c1 c2 c3 c4 :
  row "NA_L1CODE" = Some (Str c1) → row "NA_L2CODE" = Some (Str c2) →
  row "NA_L3CODE" = Some (Str c3) → row "US_L3CODE" = Some (Str c4) →
  fstring part_of_us_l4 row
  = Some (serialize_part_of
            ["NA_L1CODE:" +:+ c1; "NA_L2CODE:" +:+ c2;
             "NA_L3CODE:" +:+ c3; "US_L3CODE:" +:+ c4]).
Proof.
  intros H1 H2 H3 H4. unfold fstring, part_of_us_l4. simpl.
  rewrite H1, H2, H3, H4. simpl.
  do 2 f_equal. unfold join.
  by rewrite append_nil_r, !append_assoc.
Qed.

End RoundTrip.

(** ** Contextual identifiers *)

Section ContextualIdentifier.
Context {G : Type} `{Geometric G}.
Implicit Types (df : DataFrame G) (r : gmap string (scalar G)).

Lemma apply_axis1_series
    (f : (string → option (scalar G)) → option (scalar G)) df s :
  apply_axis1 f df = Some s →
  rows df ≠ []
  ∧ mapM (λ ir : label * gmap string (scalar G),
            v ← (λ r, f (getitem df r)) ir.2; Some (ir.1, v)) (rows df)
    = Some s.
Proof. unfold apply_axis1. by destruct (rows df). Qed.

Lemma keep_columns_lookup keep df df' :
  keep_columns keep df = Some df' →
  rowwise (λ r r', ∀ c, c ∈ keep → r' !! c = r !! c) (rows df) (rows df').
Proof.
  unfold keep_columns. intros (_ & _ & Hr)%drop_columns_spec.
  eapply rowwise_impl; [|done]. intros r r' -> c Hc.
  rewrite map_lookup_filter. destruct (r !! c) as [v|]; simpl; [|done].
  rewrite option_guard_True; [done|]. simpl.
  rewrite list_elem_of_filter. tauto.
Qed.

Lemma clean_level_contextual_identifier ci name part keep df df' :
  clean_level ci name part keep df = Some df' →
  "contextual_identifier" ∈ keep →
  rowwise (λ r r', ∃ v, fstring ci (getitem df r) = Some v
                        ∧ r' !! "contextual_identifier" = Some v)
          (rows df) (rows df').
Proof.
  unfold clean_level. intros Hclean Hkeep.
  destruct (apply_axis1 (fstring ci) df) as [s1|] eqn:Hs1; [|done].
  simpl in Hclean.
  destruct (setitem "contextual_identifier" s1 df) as [df1|] eqn:Hd1;
    [|done]. simpl in Hclean.
  destruct (apply_axis1 (λ row, row name) df1) as [s2|] eqn:Hs2; [|done].
  simpl in Hclean.
  destruct (setitem "common_name" s2 df1) as [df2|] eqn:Hd2; [|done].
  simpl in Hclean.
  apply apply_axis1_series in Hs1 as [_ Hs1].
  apply apply_axis1_series in Hs2 as [_ Hs2].
  destruct (assign_spec "contextual_identifier"
              (λ r, fstring ci (getitem df r)) _ _ _ Hs1 Hd1)
    as (_ & _ & Hr1).
  destruct (assign_spec "common_name"
              (λ r, getitem df1 r name) _ _ _ Hs2 Hd2) as (_ & _ & Hr2).
  pose proof (rowwise_compose _ _ _ _ _ Hr1 Hr2) as Hr12.
  assert (∃ df3, keep_columns keep df3 = Some df'
    ∧ rowwise (λ r r', ∃ v, fstring ci (getitem df r) = Some v
                 ∧ r' !! "contextual_identifier" = Some v)
              (rows df) (rows df3)) as (df3 & Hk & Hr3).
  { destruct part as [parts|]; simpl in Hclean.
    - destruct (apply_axis1 (fstring parts) df2) as [s3|] eqn:Hs3;
        [|done]. simpl in Hclean.
      destruct (setitem "part_of_identifiers" s3 df2) as [df3|] eqn:Hd3;
        [|done]. simpl in Hclean.
      apply apply_axis1_series in Hs3 as [_ Hs3].
      destruct (assign_spec "part_of_identifiers"
                  (λ r, fstring parts (getitem df2 r)) _ _ _ Hs3 Hd3)
        as (_ & _ & Hr3).
      exists df3. split; [done|].
      eapply rowwise_impl; [|by eapply rowwise_compose].
      intros r r3 (r2 & (r1 & (v & Hv & ->) & (v2 & _ & ->)) & (v3 & _ & ->)).
      exists v. split; [done|].
      rewrite !lookup_insert_ne by done. by rewrite lookup_insert_eq.
    - exists df2. split; [done|].
      eapply rowwise_impl; [|done].
      intros r r2 (r1 & (v & Hv & ->) & (v2 & _ & ->)).
      exists v. split; [done|].
      rewrite !lookup_insert_ne by done. by rewrite lookup_insert_eq. }
  apply keep_columns_lookup in Hk.
  eapply rowwise_impl; [|by eapply rowwise_compose].
  intros r r' (r3 & (v & Hv & Hl) & Hkeep'). exists v. split; [done|].
  by rewrite Hkeep'.
Qed.

Lemma fstring_tag (tag field : string)
    (row : string → option (scalar G)) v :
  fstring [Lit (tag +:+ ":"); Field field] row = Some v →
  ∃ c code, row field = Some c ∧ format c = Some code
            ∧ v = Str (tag +:+ ":" +:+ code).
Proof.
  unfold fstring. simpl.
  destruct (row field) as [c|]; [|done]. simpl.
  destruct (format c) as [code|] eqn:Hcode; [|done]. simpl. intros [= <-].
  exists c, code. split_and!; [done..|].
  by rewrite append_nil_r, append_assoc.
Qed.

Lemma clean_level_tagged tag name part keep df df' :
  clean_level [Lit (tag +:+ ":"); Field tag] name part keep df = Some df' →
  "contextual_identifier" ∈ keep →
  tagged_by tag df df'.
Proof.
  intros Hclean Hkeep. unfold tagged_by.
  eapply rowwise_impl;
    [|by eapply clean_level_contextual_identifier].
  intros r r' (v & (c & code & Hc & Hf & ->)%fstring_tag & Hl).
  by exists c, code.
Qed.

(** The suite's normalization: every record of every level carries the
    tag of its own level before its own code of that level. *)
Theorem clean_synth_df_contextual_identifier
    (na_er1 na_er2 na_er3 conus_er3 conus_er4
     na_er1' na_er2' na_er3' conus_er3' conus_er4' : DataFrame G) :
  clean_synth_df na_er1 na_er2 na_er3 conus_er3 conus_er4
  = Some (na_er1', na_er2', na_er3', conus_er3', conus_er4') →
  tagged_by "NA_L1CODE" na_er1 na_er1'
  ∧ tagged_by "NA_L2CODE" na_er2 na_er2'
  ∧ tagged_by "NA_L3CODE" na_er3 na_er3'
  ∧ tagged_by "US_L3CODE" conus_er3 conus_er3'
  ∧ tagged_by "US_L4CODE" conus_er4 conus_er4'.
Proof.
  unfold clean_synth_df. intros Hc.
  destruct (clean_na_er1 na_er1) as [a|] eqn:Ha; [|done]. simpl in Hc.
  destruct (clean_na_er2 na_er2) as [b|] eqn:Hb; [|done]. simpl in Hc.
  destruct (clean_na_er3 na_er3) as [c|] eqn:Hc3; [|done]. simpl in Hc.
  destruct (clean_conus_er3 conus_er3) as [d|] eqn:Hd; [|done].
  simpl in Hc.
  destruct (clean_conus_er4 conus_er4) as [e|] eqn:He; [|done].
  simpl in Hc. simplify_eq.
  split_and!;
    (eapply (clean_level_tagged _ _ _ _ _ _); [done|];
     unfold keep_top, keep_below; set_solver).
Qed.

End ContextualIdentifier.

(** ** Dissolve: one row per key *)

Section Dissolve.
Context {G : Type} `{Geometric G}.
Implicit Types (df out : DataFrame G) (r : gmap string (scalar G)).

Lemma elem_of_unique (l : list string) x : x ∈ unique l ↔ x ∈ l.
Proof.
  induction l as [|k l IH]; [done|]. simpl.
  rewrite !elem_of_cons, list_elem_of_filter, IH.
  destruct (decide (x = k)); naive_solver.
Qed.

Lemma NoDup_unique (l : list string) : NoDup (unique l).
Proof.
  induction l as [|k l IH]; simpl; [constructor|].
  apply NoDup_cons. split.
  - rewrite list_elem_of_filter. naive_solver.
  - by apply NoDup_filter.
Qed.

Lemma filter_all {A} (P : A → Prop) `{∀ x, Decision (P x)} (l : list A) :
  Forall P l → filter P l = l.
Proof.
  induction 1 as [|x l Hx _ IH]; [done|].
  by rewrite filter_cons_True, IH.
Qed.

Lemma unique_NoDup (l : list string) : NoDup l → unique l = l.
Proof.
  induction l as [|k l IH]; [done|].
  intros [Hk Hl]%NoDup_cons. simpl. rewrite IH by done. f_equal.
  apply filter_all, Forall_forall. by intros x Hx ->.
Qed.

Lemma size_distinct (l : list string) :
  size (list_to_set (Str <$> l) : gset (scalar G)) = length (unique l).
Proof.
  assert ((list_to_set (Str <$> l) : gset (scalar G))
          = list_to_set (Str <$> unique l)) as ->.
  { apply set_eq. intros x. rewrite !elem_of_list_to_set.
    rewrite !list_elem_of_fmap. by setoid_rewrite elem_of_unique. }
  rewrite size_list_to_set, length_fmap; [done|].
  apply NoDup_fmap_2; [|apply NoDup_unique]. by intros ?? [= ->].
Qed.

Lemma aggregate_label df keyed others k ir :
  aggregate df keyed others k = Some ir → ir.1 = Key k.
Proof.
  unfold aggregate.
  destruct (mapM _ _) as [gs|]; [|done]. simpl. by intros [= <-].
Qed.

(** The shape of a dissolved frame *)
Lemma dissolve_Some key df out :
  dissolve key df = Some out →
  ∃ ks,
    let keyed := zip ks (rows df).*2 in
    let keys := merge_sort String.le (unique (omap id ks)) in
    let others :=
      filter (λ c, c ≠ "geometry" ∧ c ≠ key) (columns df) in
    "geometry" ∈ columns df
    ∧ mapM (group_key key df) (rows df) = Some ks
    ∧ mapM (aggregate df keyed others) keys = Some (rows out)
    ∧ index_name out = Some key
    ∧ columns out = "geometry" :: others
    ∧ index out = Key <$> keys.
Proof.
  unfold dissolve. case_decide as Hgeo; [|done].
  destruct (mapM (group_key key df) (rows df)) as [ks|] eqn:Hks; [|done].
  simpl.
  destruct (mapM _ (merge_sort _ _)) as [agg|] eqn:Hagg; [|done]. simpl.
  intros [= <-]. exists ks. simpl. split_and!; [done..|].
  apply mapM_Some in Hagg. unfold index. simpl.
  induction Hagg as [|k ir keys agg Hk _ IH]; [done|].
  rewrite !fmap_cons. f_equal; [|done]. by eapply aggregate_label.
Qed.

Lemma keys_NoDup (ks : list (option string)) :
  NoDup (merge_sort String.le (unique (omap id ks))).
Proof. rewrite merge_sort_Permutation. apply NoDup_unique. Qed.

Lemma dissolve_index_NoDup key df out :
  dissolve key df = Some out → NoDup (index out).
Proof.
  intros (ks & _ & _ & _ & _ & _ & ->)%dissolve_Some.
  apply NoDup_fmap_2; [by intros ?? [= ->]|]. apply keys_NoDup.
Qed.

Lemma all_text_cells key df :
  (∀ i r, (i, r) ∈ rows df → ∃ k, cell df r key = Str k) →
  (λ ir : label * gmap string (scalar G), cell df ir.2 key) <$> rows df
  = Str <$> texts key df.
Proof.
  unfold texts. induction (rows df) as [|[i r] rs IH]; [done|].
  intros Hall. rewrite fmap_cons. simpl.
  destruct (Hall i r) as [k Hk]; [by left|]. rewrite Hk. simpl.
  f_equal. apply IH. intros i' r' Hin.
  apply (Hall i' r'). by right.
Qed.

Lemma all_text_keys key df :
  key ∈ columns df →
  (∀ i r, (i, r) ∈ rows df → ∃ k, cell df r key = Str k) →
  mapM (group_key key df) (rows df) = Some (Some <$> texts key df).
Proof.
  intros Hkey. unfold texts.
  induction (rows df) as [|[i r] rs IH]; [done|].
  intros Hall. rewrite mapM_Some. simpl.
  destruct (Hall i r) as [k Hk]; [by left|]. rewrite Hk. simpl.
  constructor.
  - unfold group_key. rewrite decide_True by done. simpl. by rewrite Hk.
  - apply mapM_Some, IH. intros i' r' Hin. apply (Hall i' r'). by right.
Qed.

Lemma omap_id_Some (l : list string) : omap id (Some <$> l) = l.
Proof. induction l as [|x l IH]; [done|]. csimpl. by rewrite IH. Qed.

Lemma group_rows (ks : list (option string))
    (rs : list (gmap string (scalar G))) k r :
  r ∈ (filter (λ kr : option string * gmap string (scalar G),
                 kr.1 = Some k) (zip ks rs)).*2 → r ∈ rs.
Proof.
  intros ([k' r'] & -> & [_ Hin]%list_elem_of_filter)%list_elem_of_fmap.
  by eapply elem_of_zip_r.
Qed.

Lemma keyed_shapes_spec key df :
  keyed_shapes key df = true →
  ∀ i r, (i, r) ∈ rows df →
    ∃ k g, cell df r key = Str k ∧ cell df r "geometry" = Geom g.
Proof.
  unfold keyed_shapes. rewrite forallb_forall. intros Hall i r Hin.
  specialize (Hall (i, r)). simpl in Hall.
  destruct (cell df r key), (cell df r "geometry");
    try (by discriminate Hall; apply list_elem_of_In); eauto.
Qed.

(** C6: over a frame whose contextual identifiers are text and whose
    geometries are present, the dissolve succeeds, every identifier of
    the input labels exactly one row of the result, and the number of
    rows is the number of distinct identifiers of the input. *)
Theorem dissolve_one_row_per_key key df :
  "geometry" ∈ columns df → key ∈ columns df →
  (∀ i r, (i, r) ∈ rows df →
     ∃ k g, cell df r key = Str k ∧ cell df r "geometry" = Geom g) →
  ∃ out, dissolve key df = Some out
    ∧ NoDup (index out)
    ∧ length (rows out)
      = size (list_to_set ((λ ir : label * gmap string (scalar G),
                              cell df ir.2 key) <$> rows df)
              : gset (scalar G))
    ∧ (∀ i r, (i, r) ∈ rows df →
         ∃ k, cell df r key = Str k ∧ Key k ∈ index out)
    ∧ (∀ l, l ∈ index out →
         ∃ k i r, l = Key k ∧ (i, r) ∈ rows df ∧ cell df r key = Str k).
Proof.
  intros Hgeo Hkey Hall.
  assert (∀ i r, (i, r) ∈ rows df → ∃ k, cell df r key = Str k) as Htext.
  { intros i r Hin. destruct (Hall i r Hin) as (k & _ & Hk & _). eauto. }
  pose proof (all_text_keys key df Hkey Htext) as Hks.
  assert (is_Some (dissolve key df)) as [out Hout].
  { unfold dissolve. rewrite decide_True by done. rewrite Hks. simpl.
    destruct (mapM _ (merge_sort _ _)) as [agg|] eqn:Hagg; [done|].
    exfalso. apply mapM_None, Exists_exists in Hagg as (k & _ & Hk).
    unfold aggregate in Hk.
    destruct (mapM _ (filter _ _).*2) as [gs|] eqn:Hgs; [done|].
    apply mapM_None, Exists_exists in Hgs as (r & Hr%group_rows & Hnone).
    apply list_elem_of_fmap in Hr as ([i r'] & -> & Hin).
    destruct (Hall i r' Hin) as (_ & g & _ & Hg). simpl in Hnone.
    by rewrite Hg in Hnone. }
  exists out. split; [done|].
  pose proof (dissolve_index_NoDup _ _ _ Hout) as Hnd.
  destruct (dissolve_Some _ _ _ Hout)
    as (ks & _ & Hks' & _ & _ & _ & Hidx).
  rewrite Hks in Hks'. injection Hks' as <-.
  rewrite omap_id_Some in Hidx.
  assert (∀ k, Key k ∈ index out ↔ k ∈ texts key df) as Hmem.
  { intros k. rewrite Hidx, list_elem_of_fmap. split.
    - intros (k' & [= <-] & Hin). revert Hin.
      by rewrite merge_sort_Permutation, elem_of_unique.
    - intros Hin. exists k. split; [done|].
      by rewrite merge_sort_Permutation, elem_of_unique. }
  assert (∀ k, k ∈ texts key df ↔
               ∃ i r, (i, r) ∈ rows df ∧ cell df r key = Str k) as Htexts.
  { intros k. unfold texts. rewrite list_elem_of_omap. split.
    - intros ([i r] & Hin & Hc). exists i, r. split; [done|].
      simpl in Hc. by destruct (cell df r key); simplify_eq.
    - intros (i & r & Hin & Hc). exists (i, r). split; [done|].
      simpl. by rewrite Hc. }
  split_and!; [done| | |].
  - rewrite all_text_cells by done. rewrite size_distinct.
    transitivity (length (index out)).
    + unfold index. by rewrite length_fmap.
    + by rewrite Hidx, length_fmap, merge_sort_Permutation.
  - intros i r Hin. destruct (Htext i r Hin) as [k Hk]. exists k.
    split; [done|]. apply Hmem, Htexts. eauto.
  - intros l Hl. rewrite Hidx in Hl.
    apply list_elem_of_fmap in Hl as (k & -> & Hk).
    assert (k ∈ texts key df) as (i & r & ? & ?)%Htexts.
    { revert Hk. by rewrite merge_sort_Permutation, elem_of_unique. }
    by exists k, i, r.
Qed.

(** *** Dissolving twice *)

Lemma first_notnull_idem (vs : list (scalar G)) :
  first_notnull [first_notnull vs] = first_notnull vs.
Proof.
  unfold first_notnull at 2 3.
  destruct (filter (λ v, notnull v = true) vs) as [|v vs'] eqn:Hf; simpl.
  - done.
  - assert (notnull v = true) as Hv.
    { assert (v ∈ filter (λ v, notnull v = true) vs) as Hin
        by (rewrite Hf; by left).
      by apply list_elem_of_filter in Hin as [? _]. }
    unfold first_notnull. by rewrite filter_cons_True.
Qed.

Lemma others_idem key (cols : list string) :
  let others := filter (λ c, c ≠ "geometry" ∧ c ≠ key) cols in
  filter (λ c, c ≠ "geometry" ∧ c ≠ key) ("geometry" :: others) = others.
Proof.
  intros others. rewrite filter_cons_False by naive_solver.
  apply filter_all, Forall_forall. intros c Hc.
  by apply list_elem_of_filter in Hc as [? _].
Qed.

Lemma keys_fixed (l : list string) :
  NoDup l →
  let keys := merge_sort String.le l in
  merge_sort String.le (unique keys) = keys.
Proof.
  intros Hnd keys.
  assert (NoDup keys) as Hk by (unfold keys; by rewrite merge_sort_Permutation).
  rewrite unique_NoDup by done.
  apply (Sorted_unique String.le).
  - apply Sorted_merge_sort, _.
  - apply Sorted_merge_sort, _.
  - apply merge_sort_Permutation.
Qed.

Lemma group_empty (keys : list string)
    (ms : list (gmap string (scalar G))) k :
  k ∉ keys →
  filter (λ kr : option string * gmap string (scalar G), kr.1 = Some k)
         (zip (Some <$> keys) ms) = [].
Proof.
  revert ms. induction keys as [|k0 keys IH]; intros [|m0 ms] Hk;
    try done.
  rewrite fmap_cons. simpl.
  rewrite filter_cons_False by (simpl; intros [= ->]; set_solver).
  apply IH. set_solver.
Qed.

Lemma group_singleton (keys : list string)
    (ms : list (gmap string (scalar G))) j k m :
  NoDup keys → keys !! j = Some k → ms !! j = Some m →
  (filter (λ kr : option string * gmap string (scalar G), kr.1 = Some k)
          (zip (Some <$> keys) ms)).*2 = [m].
Proof.
  revert ms j. induction keys as [|k0 keys IH];
    intros [|m0 ms] [|j] Hnd Hk Hm; simplify_eq/=.
  - apply NoDup_cons in Hnd as [Hk0 _].
    rewrite filter_cons_True by done.
    fold (zip (Some <$> keys) ms).
    by rewrite group_empty.
  - apply NoDup_cons in Hnd as [Hk0 Hnd].
    assert (k0 ≠ k).
    { intros ->. apply Hk0. by eapply list_elem_of_lookup_2. }
    rewrite filter_cons_False by (simpl; congruence).
    by eapply IH.
Qed.

Lemma aggregate_fixed df out keyed keyed' others k ir :
  (∀ gs : list G, unary_union [unary_union gs] = unary_union gs) →
  columns out = "geometry" :: others → "geometry" ∉ others →
  aggregate df keyed others k = Some ir →
  (filter (λ kr : option string * gmap string (scalar G), kr.1 = Some k)
          keyed').*2 = [ir.2] →
  aggregate out keyed' others k = Some ir.
Proof.
  intros Hlaw Hcols Hgeo. unfold aggregate.
  destruct (mapM _ (filter _ keyed).*2) as [gs|] eqn:Hgs; [|done].
  simpl.
  set (tab := (list_to_map ((λ c, (c, first_notnull ((λ r, cell df r c)
                 <$> (filter (λ kr : option string * gmap string (scalar G),
                                kr.1 = Some k) keyed).*2))) <$> others)
               : gmap string (scalar G))).
  intros [= <-]. simpl. intros ->.
  assert (cell out (<["geometry" := Geom (unary_union gs)]> tab) "geometry"
          = Geom (unary_union gs)) as Hcg.
  { apply cell_present; [rewrite Hcols; by left|].
    by rewrite lookup_insert_eq. }
  simpl. rewrite Hcg. simpl. rewrite Hlaw. do 3 f_equal.
  unfold tab at 2. f_equal. apply Forall_fmap_ext, Forall_forall.
  intros c Hc. f_equal.
  assert (c ≠ "geometry") as Hne by (by intros ->).
  rewrite (cell_present out _ c
             (first_notnull ((λ r, cell df r c) <$> (filter
                (λ kr : option string * gmap string (scalar G),
                   kr.1 = Some k) keyed).*2))).
  - apply first_notnull_idem.
  - rewrite Hcols. by right.
  - rewrite lookup_insert_ne by done. unfold tab.
    by rewrite lookup_tabulated, decide_True.
Qed.

Lemma keyed_elem key df ks k :
  mapM (group_key key df) (rows df) = Some ks → Some k ∈ ks →
  ∃ i r, (i, r) ∈ rows df ∧ group_key key df (i, r) = Some (Some k)
         ∧ (Some k, r) ∈ zip ks (rows df).*2.
Proof.
  intros HF%mapM_Some [j Hj]%list_elem_of_lookup.
  destruct (Forall2_lookup_r _ _ _ _ _ HF Hj) as ([i r] & Hr & Hg).
  exists i, r. split_and!; [by eapply list_elem_of_lookup_2|done|].
  apply (list_elem_of_lookup_2 _ j).
  apply lookup_zip_with_Some. exists (Some k), r.
  split_and!; [done..|]. by rewrite list_lookup_fmap, Hr.
Qed.

Lemma index_keys key out (keys : list string) :
  key ∉ columns out → index_name out = Some key →
  index out = Key <$> keys →
  mapM (group_key key out) (rows out) = Some (Some <$> keys).
Proof.
  intros Hcol Hname. unfold index. intros Hidx. apply mapM_Some.
  revert keys Hidx. induction (rows out) as [|[l m] rs IH];
    intros [|k keys] Hidx; simplify_eq/=; constructor.
  - unfold group_key. rewrite decide_False by done.
    by rewrite decide_True.
  - by apply IH.
Qed.

Lemma aggregate_geometries df keyed others k ir r :
  aggregate df keyed others k = Some ir → (Some k, r) ∈ keyed →
  ∃ g, cell df r "geometry" = Geom g.
Proof.
  unfold aggregate.
  destruct (mapM _ (filter _ keyed).*2) as [gs|] eqn:Hgs; [|done].
  intros _ Hin. apply mapM_Some in Hgs.
  assert (r ∈ (filter (λ kr : option string * gmap string (scalar G),
                         kr.1 = Some k) keyed).*2) as Hrg.
  { apply list_elem_of_fmap. exists (Some k, r). split; [done|].
    by apply list_elem_of_filter. }
  apply list_elem_of_lookup in Hrg as [j Hj].
  destruct (Forall2_lookup_l _ _ _ _ _ Hgs Hj) as (g & _ & Hgeom).
  simpl in Hgeom. exists g.
  by destruct (cell df r "geometry"); simplify_eq/=.
Qed.

Lemma dissolve_by_geometry_empty df out :
  dissolve "geometry" df = Some out → rows out = [].
Proof.
  intros (ks & Hgeo & Hks & Hagg & _)%dissolve_Some.
  cbv zeta in Hagg. apply mapM_Some in Hagg.
  inversion Hagg as [|k ir keys' rs Hk _ Hkeys Hrows]; [done|]. exfalso.
  assert (Some k ∈ ks) as Hin.
  { assert (k ∈ merge_sort String.le (unique (omap id ks))) as Hk'
      by (rewrite <-Hkeys; by left).
    rewrite merge_sort_Permutation, elem_of_unique in Hk'.
    apply list_elem_of_omap in Hk' as (o & ? & ?). by simplify_eq/=. }
  destruct (keyed_elem _ _ _ _ Hks Hin) as (i & r & Hr & Hg & Hz).
  unfold group_key in Hg. rewrite decide_True in Hg by done.
  destruct (aggregate_geometries _ _ _ _ _ _ Hk Hz) as [g Hgeom].
  simpl in Hg. by rewrite Hgeom in Hg.
Qed.

(** C7, for the result of a dissolve: dissolving it again by the same
    key changes nothing, when the union of one already unioned shape
    is that shape. *)
Theorem dissolve_idempotent key df out :
  (∀ gs : list G, unary_union [unary_union gs] = unary_union gs) →
  dissolve key df = Some out →
  dissolve key out = Some out.
Proof.
  intros Hlaw Hout.
  destruct (dissolve_Some _ _ _ Hout)
    as (ks & Hgeo & Hks & Hagg & Hname & Hcols & Hidx).
  cbv zeta in Hagg, Hcols, Hidx.
  set (keys := merge_sort String.le (unique (omap id ks))) in *.
  set (others := filter (λ c, c ≠ "geometry" ∧ c ≠ key) (columns df)) in *.
  set (keyed := zip ks (rows df).*2) in *.
  assert ("geometry" ∉ others) as Hgo.
  { unfold others. rewrite list_elem_of_filter. naive_solver. }
  assert (key ∉ others) as Hko.
  { unfold others. rewrite list_elem_of_filter. naive_solver. }
  assert (NoDup keys) as Hnd by apply keys_NoDup.
  assert (out = {| index_name := Some key;
                   columns := "geometry" :: others;
                   rows := rows out |}) as Hrec.
  { destruct out; simpl in *. by subst. }
  unfold dissolve. rewrite decide_True by (rewrite Hcols; by left).
  destruct (decide (key = "geometry")) as [->|Hkg].
  - (* grouping by the geometry column itself leaves no group *)
    pose proof (dissolve_by_geometry_empty _ _ Hout) as Hrows.
    pose proof (others_idem "geometry" (columns df)) as Hoi.
    cbv zeta in Hoi. fold others in Hoi.
    rewrite Hrows. simpl. rewrite Hcols, Hoi.
    rewrite Hrec. by rewrite Hrows.
  - assert (key ∉ columns out) as Hkc.
    { rewrite Hcols. set_solver. }
    rewrite (index_keys key out keys) by done. simpl.
    rewrite omap_id_Some. unfold keys at 1 2.
    rewrite keys_fixed by apply NoDup_unique. fold keys.
    pose proof (others_idem key (columns df)) as Hoi.
    cbv zeta in Hoi. fold others in Hoi.
    rewrite Hcols, Hoi.
    assert (mapM (aggregate out (zip (Some <$> keys) (rows out).*2) others)
                 keys = Some (rows out)) as ->.
    { apply mapM_Some. apply mapM_Some in Hagg.
      apply Forall2_same_length_lookup. split.
      - by eapply Forall2_length.
      - intros j k ir Hk Hir.
        eapply (aggregate_fixed df out keyed); [done..| |].
        + by apply (Forall2_lookup_lr _ _ _ j _ _ Hagg).
        + eapply group_singleton; [done..|].
          by rewrite list_lookup_fmap, Hir. }
    simpl. by rewrite <-Hrec.
Qed.

End Dissolve.

(** ** Result assembly *)

Section Assembly.
Context {G : Type} `{Geometric G}.
Implicit Types (df : DataFrame G) (r : gmap string (scalar G)).

Lemma selected_cells df ci column id :
  id ∈ (λ r, cell (loc (λ r, pd_eq (cell df r "contextual_identifier") ci)
                       df) r column)
       <$> (rows (loc (λ r, pd_eq (cell df r "contextual_identifier") ci)
                      df)).*2
  ↔ intersects_with df ci column id.
Proof.
  unfold intersects_with, loc. simpl.
  rewrite list_elem_of_fmap. split.
  - intros (r & -> & ([j t] & -> & [Hm Hin]%list_elem_of_filter)
                    %list_elem_of_fmap).
    by exists j, t.
  - intros (j & t & Hin & Hm & <-). exists t. split; [done|].
    apply list_elem_of_fmap. exists (j, t). split; [done|].
    by apply list_elem_of_filter.
Qed.

Lemma boundary_intersects_list_spec df ci column l :
  boundary_intersects_list df ci column = Some l →
  NoDup l ∧ ∀ id, id ∈ l ↔ intersects_with df ci column id.
Proof.
  unfold boundary_intersects_list.
  case_decide; [|done]. case_decide; [|done]. intros [= <-]. split.
  - apply NoDup_elements.
  - intros id. rewrite elem_of_elements, elem_of_list_to_set.
    apply selected_cells.
Qed.

Lemma notebook_boundary_intersects_list_spec df ci l :
  notebook_boundary_intersects_list df ci = Some l →
  ∀ id, id ∈ l ↔ intersects_with df ci "wikidata_id" id.
Proof.
  unfold notebook_boundary_intersects_list.
  case_decide; [|done]. case_decide; [|done]. intros [= <-] id.
  apply selected_cells.
Qed.

Lemma pd_eq_true (a b : scalar G) :
  pd_eq a b = true ↔ notnull b = true ∧ a = b.
Proof.
  unfold pd_eq. rewrite !andb_true_iff, bool_decide_eq_true.
  split; [naive_solver|]. intros [? ->]. done.
Qed.

Lemma intersects_with_shares df ci column id :
  intersects_with df ci column id ↔ shares_identifier df ci column id.
Proof.
  unfold intersects_with, shares_identifier. split.
  - intros (j & t & Hin & [Hn He]%pd_eq_true & Hid).
    split; [done|]. by exists j, t.
  - intros (Hn & j & t & Hin & He & Hid). exists j, t.
    split_and!; [done| |done]. by apply pd_eq_true.
Qed.

Lemma distinct_values_NoDup (l : list (scalar G)) :
  NoDup l → distinct_values l.
Proof. apply NoDup_filter. Qed.

(** C9, the suite's lookup against the first notebook's, on the column
    the notebook reads: they fail together, and otherwise the two lists
    hold the same values, the suite's holds no value but [NaN] twice,
    and, when the notebook's list holds no [NaN], the two are equal up
    to order exactly when the notebook's list has no repetition. *)
Theorem boundary_intersects_list_refines df ci :
  match notebook_boundary_intersects_list df ci,
        boundary_intersects_list df ci "wikidata_id" with
  | Some l, Some l' =>
      (∀ id, id ∈ l' ↔ id ∈ l)
      ∧ distinct_values l'
      ∧ (NaN ∉ l → (l' ≡ₚ l ↔ NoDup l))
  | None, None => True
  | _, _ => False
  end.
Proof.
  destruct (notebook_boundary_intersects_list df ci) as [l|] eqn:Hl;
    destruct (boundary_intersects_list df ci "wikidata_id") as [l'|] eqn:Hl'.
  - destruct (boundary_intersects_list_spec _ _ _ _ Hl') as [Hnd Hin].
    pose proof (notebook_boundary_intersects_list_spec _ _ _ Hl) as Hin0.
    assert (∀ id, id ∈ l' ↔ id ∈ l) as Hiff.
    { intros id. by rewrite Hin, Hin0. }
    split_and!; [done|by apply distinct_values_NoDup|].
    intros _. split.
    + intros Hp. by rewrite <-Hp.
    + intros Hndl. by apply NoDup_Permutation.
  - unfold notebook_boundary_intersects_list, boundary_intersects_list in *.
    repeat case_decide; simplify_eq.
  - unfold notebook_boundary_intersects_list, boundary_intersects_list in *.
    repeat case_decide; simplify_eq.
  - done.
Qed.

Lemma read_sql_union_spec cols (t1 t2 : DataFrame G) df :
  read_sql_union cols t1 t2 = Some df →
  columns df = cols
  ∧ (∀ i r, (i, r) ∈ rows df →
       ∃ t, (t ∈ (rows t1).*2 ∧ r = reindex_row t1 cols t)
            ∨ (t ∈ (rows t2).*2 ∧ r = reindex_row t2 cols t))
  ∧ (∀ t, t ∈ (rows t1).*2 → ∃ i, (i, reindex_row t1 cols t) ∈ rows df)
  ∧ (∀ t, t ∈ (rows t2).*2 → ∃ i, (i, reindex_row t2 cols t) ∈ rows df).
Proof.
  unfold read_sql_union, select.
  destruct (decide (cols ⊆ columns t1)); simpl; [|done].
  destruct (decide (cols ⊆ columns t2)); simpl; [|done].
  intros [= <-]. simpl.
  assert (∀ r, r ∈ remove_dups (reindexed cols t1 ++ reindexed cols t2) ↔
       ∃ t, (t ∈ (rows t1).*2 ∧ r = reindex_row t1 cols t)
            ∨ (t ∈ (rows t2).*2 ∧ r = reindex_row t2 cols t)) as Hmem.
  { intros r. rewrite elem_of_remove_dups, elem_of_app.
    unfold reindexed. rewrite !list_elem_of_fmap. split.
    - intros [([i t] & -> & Hin)|([i t] & -> & Hin)]; exists t;
        [left|right]; (split; [|done]); apply list_elem_of_fmap;
        by exists (i, t).
    - intros (t & [[([i t'] & -> & Hin)%list_elem_of_fmap ->]
                  |[([i t'] & -> & Hin)%list_elem_of_fmap ->]]);
        [left|right]; by exists (i, t'). }
  split_and!; [done| | |].
  - intros i r Hin. by apply Hmem, (range_index_elem_of _ i).
  - intros t Ht. apply elem_of_range_index, Hmem. exists t. by left.
  - intros t Ht. apply elem_of_range_index, Hmem. exists t. by right.
Qed.

Lemma reindex_row_lookup df cols r c :
  c ∈ cols → reindex_row df cols r !! c = Some (cell df r c).
Proof.
  intros Hc. unfold reindex_row. by rewrite lookup_tabulated, decide_True.
Qed.

(** C2: every assembled record carries, under [admin_intersects], the
    [admin_id] cells of the rows of the intersections table whose
    contextual identifier is its own (and nothing, when its own is
    missing), no value but [NaN] twice, and under [country_intersects]
    their [country_id] cells in the same way; and every stored region
    has such a record. *)
Theorem recombine_ecoregions_intersects
    (ecoregions_m ecoregions_p df_intersections : DataFrame G) out :
  recombine_ecoregions ecoregions_m ecoregions_p df_intersections
  = Some out →
  (∀ i o, (i, o) ∈ orows out →
     ∃ ci admin country,
       o !! "contextual_identifier" = Some (Scalar ci)
       ∧ o !! "admin_intersects" = Some (PyList admin)
       ∧ o !! "country_intersects" = Some (PyList country)
       ∧ distinct_values admin ∧ distinct_values country
       ∧ (∀ id, id ∈ admin ↔
                shares_identifier df_intersections ci "admin_id" id)
       ∧ (∀ id, id ∈ country ↔
                shares_identifier df_intersections ci "country_id" id))
  ∧ (∀ t, t ∈ (rows ecoregions_m).*2 →
       ∃ i o, (i, o) ∈ orows out
         ∧ o !! "contextual_identifier"
           = Some (Scalar (cell ecoregions_m t "contextual_identifier")))
  ∧ (∀ t, t ∈ (rows ecoregions_p).*2 →
       ∃ i o, (i, o) ∈ orows out
         ∧ o !! "contextual_identifier"
           = Some (Scalar (cell ecoregions_p t "contextual_identifier"))).
Proof.
  unfold recombine_ecoregions. intros Hrec.
  destruct (read_sql_union q_ecoregions ecoregions_m ecoregions_p)
    as [df|] eqn:Hdf; [|done]. simpl in Hrec.
  destruct (mapM _ (rows df)) as [records|] eqn:Hrecs; [|done].
  simpl in Hrec. injection Hrec as <-. simpl.
  apply mapM_Some in Hrecs.
  destruct (read_sql_union_spec _ _ _ _ Hdf) as (Hcols & Hfrom & Hm & Hp).
  assert ("contextual_identifier" ∈ q_ecoregions) as Hq
    by (unfold q_ecoregions; set_solver).
  assert (∀ i0 r0 i o, (i0, r0) ∈ rows df →
    (let x := cell df r0 "contextual_identifier" in
     parse_part_of (cell df r0 "part_of_identifiers") ≫= λ part_of,
     boundary_intersects_list df_intersections x "admin_id" ≫= λ admin,
     boundary_intersects_list df_intersections x "country_id" ≫= λ country,
     Some (i0,
           <["country_intersects" := PyList country]>
             (<["admin_intersects" := PyList admin]>
                (<["part_of_identifiers" := part_of]> (Scalar <$> r0)))))
    = Some (i, o) →
    ∃ admin country,
      o !! "contextual_identifier"
      = Some (Scalar (cell df r0 "contextual_identifier"))
      ∧ o !! "admin_intersects" = Some (PyList admin)
      ∧ o !! "country_intersects" = Some (PyList country)
      ∧ distinct_values admin ∧ distinct_values country
      ∧ (∀ id, id ∈ admin ↔ shares_identifier df_intersections
                 (cell df r0 "contextual_identifier") "admin_id" id)
      ∧ (∀ id, id ∈ country ↔ shares_identifier df_intersections
                 (cell df r0 "contextual_identifier") "country_id" id))
    as Hstep.
  { intros i0 r0 i o Hin0. cbv zeta.
    destruct (parse_part_of _) as [part_of|]; [|done]. simpl.
    destruct (boundary_intersects_list _ _ "admin_id") as [admin|] eqn:Ha;
      [|done]. simpl.
    destruct (boundary_intersects_list _ _ "country_id")
      as [country|] eqn:Hc; [|done]. simpl.
    intros [= <- <-]. exists admin, country.
    destruct (boundary_intersects_list_spec _ _ _ _ Ha) as [Hnda Hina].
    destruct (boundary_intersects_list_spec _ _ _ _ Hc) as [Hndc Hinc].
    split_and!;
      [|by simplify_map_eq..
       |by apply distinct_values_NoDup|by apply distinct_values_NoDup
       |intros id; by rewrite Hina, intersects_with_shares
       |intros id; by rewrite Hinc, intersects_with_shares].
    rewrite !lookup_insert_ne by done. rewrite lookup_fmap.
    destruct (Hfrom _ _ Hin0) as (t & [[_ ->]|[_ ->]]);
      rewrite reindex_row_lookup by done; simpl; do 2 f_equal;
      symmetry; apply cell_present;
      rewrite ?Hcols; try done; by apply reindex_row_lookup. }
  assert (∀ tab t, (∃ i0, (i0, reindex_row tab q_ecoregions t) ∈ rows df) →
    ∃ i o, (i, o) ∈ records
      ∧ o !! "contextual_identifier"
        = Some (Scalar (cell tab t "contextual_identifier"))) as Hcover.
  { intros tab t [i0 Hin0].
    apply list_elem_of_lookup in Hin0 as [j Hj].
    destruct (Forall2_lookup_l _ _ _ _ _ Hrecs Hj) as ([i o] & Hj' & Hf).
    simpl in Hf.
    destruct (Hstep i0 _ i o (list_elem_of_lookup_2 _ _ _ Hj) Hf)
      as (admin & country & Hci & _).
    exists i, o. split; [by eapply list_elem_of_lookup_2|].
    rewrite Hci. do 2 f_equal. apply cell_present; [by rewrite Hcols|].
    by apply reindex_row_lookup. }
  split_and!.
  - intros i o [j Hj]%list_elem_of_lookup.
    destruct (Forall2_lookup_r _ _ _ _ _ Hrecs Hj) as ([i0 r0] & Hj0 & Hf).
    simpl in Hf.
    destruct (Hstep i0 r0 i o (list_elem_of_lookup_2 _ _ _ Hj0) Hf)
      as (admin & country & ?).
    by exists (cell df r0 "contextual_identifier"), admin, country.
  - intros t Ht. apply Hcover. by apply Hm.
  - intros t Ht. apply Hcover. by apply Hp.
Qed.

(** Where the scalar cells of an assembled record come from *)
Lemma recombine_ecoregions_cells
    (ecoregions_m ecoregions_p df_intersections : DataFrame G) out i o :
  recombine_ecoregions ecoregions_m ecoregions_p df_intersections
  = Some out →
  (i, o) ∈ orows out →
  ∃ tab t, (tab = ecoregions_m ∨ tab = ecoregions_p)
    ∧ t ∈ (rows tab).*2
    ∧ ∀ c, c ∈ q_ecoregions → c ≠ "part_of_identifiers" →
           o !! c = Some (Scalar (cell tab t c)).
Proof.
  unfold recombine_ecoregions. intros Hrec.
  destruct (read_sql_union q_ecoregions ecoregions_m ecoregions_p)
    as [df|] eqn:Hdf; [|done]. simpl in Hrec.
  destruct (mapM _ (rows df)) as [records|] eqn:Hrecs; [|done].
  simpl in Hrec. injection Hrec as <-. simpl.
  apply mapM_Some in Hrecs.
  destruct (read_sql_union_spec _ _ _ _ Hdf) as (Hcols & Hfrom & _ & _).
  intros [j Hj]%list_elem_of_lookup.
  destruct (Forall2_lookup_r _ _ _ _ _ Hrecs Hj) as ([i0 r0] & Hj0 & Hf).
  simpl in Hf.
  destruct (parse_part_of _) as [part_of|]; [|done]. simpl in Hf.
  destruct (boundary_intersects_list _ _ "admin_id") as [admin|];
    [|done]. simpl in Hf.
  destruct (boundary_intersects_list _ _ "country_id") as [country|];
    [|done]. simpl in Hf. injection Hf as <- <-.
  destruct (Hfrom _ _ (list_elem_of_lookup_2 _ _ _ Hj0))
    as (t & [[Ht ->]|[Ht ->]]).
  - exists ecoregions_m, t. split_and!; [by left|done|].
    intros c Hc Hne.
    assert (c ≠ "country_intersects" ∧ c ≠ "admin_intersects") as [? ?].
    { unfold q_ecoregions in Hc. set_solver. }
    rewrite !lookup_insert_ne by done.
    by rewrite lookup_fmap, reindex_row_lookup.
  - exists ecoregions_p, t. split_and!; [by right|done|].
    intros c Hc Hne.
    assert (c ≠ "country_intersects" ∧ c ≠ "admin_intersects") as [? ?].
    { unfold q_ecoregions in Hc. set_solver. }
    rewrite !lookup_insert_ne by done.
    by rewrite lookup_fmap, reindex_row_lookup.
Qed.

End Assembly.

(** ** The intersections view, row by row *)

Section Intersections.
Context {G : Type} `{Geometric G}.
Implicit Types (b_tab e_tab : DataFrame G).



End Intersections.

(** ** External identifiers are looked up for the US levels only *)

Section ExternalIdentifiers.
Context {G : Type} `{Geometric G}.
Variable title : string → string.
Variable lookup_wd : scalar G → scalar G.
Implicit Types (df : DataFrame G) (r : gmap string (scalar G)).

Lemma series_loc_None (s : Series G) i : i ∉ s.*1 → series_loc s i = None.
Proof.
  induction s as [|[j v] s IH]; [done|]. rewrite fmap_cons. simpl.
  intros Hi. rewrite decide_False by set_solver. apply IH. set_solver.
Qed.

Lemma series_loc_head (s : Series G) i v :
  series_loc ((i, v) :: s) i = Some v.
Proof. simpl. by rewrite decide_True. Qed.

Lemma zip_with_series c (rs : list (label * gmap string (scalar G)))
    (s : Series G) :
  s.*1 = rs.*1 → NoDup rs.*1 →
  zip_with (λ (ir : label * gmap string (scalar G)) v,
              (ir.1, <[c:=v]> ir.2)) rs s.*2
  = (λ ir : label * gmap string (scalar G),
       (ir.1, <[c:=default NaN (series_loc s ir.1)]> ir.2)) <$> rs.
Proof.
  revert s. induction rs as [|[i r] rs IH]; intros [|[j v] s] Hidx Hnd;
    simplify_eq/=; [done|].
  apply NoDup_cons in Hnd as [Hi Hnd].
  rewrite decide_True by done. simpl. f_equal.
  rewrite IH by done. apply Forall_fmap_ext, Forall_forall.
  intros [i' r'] Hin. simpl. rewrite decide_False; [done|].
  intros ->. apply Hi. apply list_elem_of_fmap. by exists (i', r').
Qed.

(** Assignment of a Series to a frame with unique labels *)
Lemma setitem_by_label c (s : Series G) df df' :
  NoDup (index df) → setitem c s df = Some df' →
  index_name df' = index_name df
  ∧ columns df' = add_columns (columns df) [c]
  ∧ rows df' = (λ ir : label * gmap string (scalar G),
                  (ir.1, <[c:=default NaN (series_loc s ir.1)]> ir.2))
               <$> rows df.
Proof.
  intros Hnd. unfold setitem. case_decide as Hidx.
  - intros [= <-]. simpl. split_and!; [done..|].
    by apply zip_with_series.
  - case_decide; [|done]. by intros [= <-].
Qed.

Lemma reset_index_spec df d :
  reset_index df = Some d →
  NoDup (index d)
  ∧ columns d = index_column df :: columns df
  ∧ index_column df ∉ columns df.
Proof.
  unfold reset_index. case_decide as Hn; [done|]. intros [= <-].
  split_and!; [|done..]. apply range_index_NoDup.
Qed.

Lemma assign_column_spec c c' (f : scalar G → option (scalar G)) df df' s :
  apply_column c f df = Some s → setitem c' s df = Some df' →
  index_name df' = index_name df
  ∧ columns df' = add_columns (columns df) [c']
  ∧ rowwise (λ r r', ∃ v, r' = <[c':=v]> r) (rows df) (rows df').
Proof.
  intros [_ Hs]%apply_column_series Hset.
  destruct (assign_spec c' (λ r, f (cell df r c)) _ _ _ Hs Hset)
    as (? & ? & Hr).
  split_and!; [done..|]. eapply rowwise_impl; [|done]. naive_solver.
Qed.

Lemma add_point_and_title_spec df df' :
  add_point_and_title title df = Some df' →
  index df' = index df
  ∧ (∀ c, c ∈ columns df → c ∈ columns df')
  ∧ rowwise (λ r r', ∀ c, c ∈ columns df →
               c ≠ "x" → c ≠ "y" → c ≠ "common_name" →
               cell df' r' c = cell df r c) (rows df) (rows df').
Proof.
  unfold add_point_and_title. intros Hadd.
  destruct (apply_column "geometry" centroid_x df) as [s1|] eqn:Hs1;
    [|done]. simpl in Hadd.
  destruct (setitem "x" s1 df) as [d1|] eqn:Hd1; [|done]. simpl in Hadd.
  destruct (apply_column "geometry" centroid_y d1) as [s2|] eqn:Hs2;
    [|done]. simpl in Hadd.
  destruct (setitem "y" s2 d1) as [d2|] eqn:Hd2; [|done]. simpl in Hadd.
  destruct (apply_column "common_name" (str_title title) d2)
    as [s3|] eqn:Hs3; [|done]. simpl in Hadd.
  destruct (assign_column_spec _ _ _ _ _ _ Hs1 Hd1) as (_ & Hc1 & Hr1).
  destruct (assign_column_spec _ _ _ _ _ _ Hs2 Hd2) as (_ & Hc2 & Hr2).
  destruct (assign_column_spec _ _ _ _ _ _ Hs3 Hadd) as (_ & Hc3 & Hr3).
  pose proof (rowwise_compose _ _ _ _ _
                (rowwise_compose _ _ _ _ _ Hr1 Hr2) Hr3) as Hr.
  assert (∀ c, c ∈ columns df → c ∈ columns df') as Hcols.
  { intros c Hc. rewrite Hc3, Hc2, Hc1.
    rewrite !add_columns_elem_of. tauto. }
  split_and!; [|done|].
  - unfold index. by apply rowwise_index in Hr.
  - eapply rowwise_impl; [|done].
    intros r r' (r2 & (r1 & [v1 ->] & [v2 ->]) & [v3 ->]) c Hc ???.
    unfold cell. rewrite !decide_True by auto.
    by rewrite !lookup_insert_ne by done.
Qed.

Lemma isin_where (v : scalar G) values :
  isin (where_notnull_none_cell v) values = isin v values.
Proof. by destruct v. Qed.

Lemma isin_where_cell df r c values :
  isin (cell (where_notnull_none df) (where_notnull_none_cell <$> r) c)
       values
  = isin (cell df r c) values.
Proof.
  unfold cell. rewrite where_columns. case_decide; [|done].
  rewrite lookup_fmap. destruct (r !! c); simpl; [apply isin_where|done].
Qed.

Lemma where_cell_present df r c v :
  c ∈ columns df → r !! c = Some v →
  cell (where_notnull_none df) (where_notnull_none_cell <$> r) c
  = where_notnull_none_cell v.
Proof.
  intros Hc Hv. apply cell_present; [done|].
  by rewrite lookup_fmap, Hv.
Qed.

(** The frame that [prepare_wikidata_info] returns: a record whose
    source is not one of the two US levels has no external identifier
    ([None]) and no lookup was made for it; a lookup was made for every
    record of the two US levels. *)
Theorem prepare_wikidata_info_us_only df out calls :
  prepare_wikidata_info title lookup_wd df = Some (out, calls) →
  ∀ i r, (i, r) ∈ rows out →
    if isin (cell out r "source") us_levels
    then i ∈ calls.*1
    else cell out r "wikidata_id" = PyNone ∧ i ∉ calls.*1.
Proof.
  unfold prepare_wikidata_info. intros Hprep.
  destruct (reset_index df) as [d1|] eqn:Hd1; [|done]. simpl in Hprep.
  destruct (add_point_and_title title d1) as [d2|] eqn:Hd2; [|done].
  simpl in Hprep.
  case_decide as Hsrc; [|done].
  set (selected := loc (λ r, isin (cell d2 r "source") us_levels) d2)
    in Hprep.
  destruct (apply_axis1 _ selected) as [s|] eqn:Hs; [|done].
  simpl in Hprep.
  destruct (setitem "wikidata_id" s d2) as [d3|] eqn:Hd3; [|done].
  simpl in Hprep. injection Hprep as <- <-.
  destruct (reset_index_spec _ _ Hd1) as (Hnd1 & _ & _).
  destruct (add_point_and_title_spec _ _ Hd2) as (Hidx2 & _ & _).
  assert (NoDup (index d2)) as Hnd2 by (by rewrite Hidx2).
  destruct (setitem_by_label _ _ _ _ Hnd2 Hd3) as (_ & Hc3 & Hr3).
  apply apply_axis1_series in Hs as [_ Hs].
  apply (series_spec
           (λ r, ci ← getitem selected r "contextual_identifier";
                 Some (lookup_wd ci))) in Hs as [Hsidx _].
  assert ("source" ∈ columns d3) as Hsrc3.
  { rewrite Hc3, add_columns_elem_of. by left. }
  assert ("wikidata_id" ∈ columns d3) as Hwid3.
  { rewrite Hc3, add_columns_elem_of. right. by left. }
  intros i r Hin. rewrite where_rows in Hin.
  apply list_elem_of_fmap in Hin as ([i3 r3] & [= -> ->] & Hin3).
  rewrite Hr3 in Hin3.
  apply list_elem_of_fmap in Hin3 as ([i2 r2] & [= -> ->] & Hin2).
  cbn [fst snd].
  rewrite isin_where_cell.
  rewrite (where_cell_present d3 _ "wikidata_id"
             (default NaN (series_loc s i2)))
    by (done || by rewrite lookup_insert_eq).
  assert (cell d3 (<["wikidata_id" := default NaN (series_loc s i2)]> r2)
            "source" = cell d2 r2 "source") as ->.
  { unfold cell. rewrite !decide_True by done.
    by rewrite lookup_insert_ne. }
  assert (calls_index :
    ((λ ir : label * gmap string (scalar G),
        (ir.1, cell selected ir.2 "contextual_identifier"))
     <$> rows selected).*1 = index selected).
  { unfold index. rewrite <-list_fmap_compose.
    by apply list_fmap_ext. }
  assert (i2 ∈ index selected ↔
          isin (cell d2 r2 "source") us_levels = true) as Hsel.
  { unfold index, selected, loc. simpl. rewrite list_elem_of_fmap. split.
    - intros ([i' r'] & -> & [Hm Hin']%list_elem_of_filter). simpl in *.
      assert (r' = r2) as -> by (by eapply index_functional). done.
    - intros Hm. exists (i2, r2). split; [done|].
      by apply list_elem_of_filter. }
  assert (if isin (cell d2 r2 "source") us_levels
          then i2 ∈ index selected
          else where_notnull_none_cell (default NaN (series_loc s i2))
               = PyNone ∧ i2 ∉ index selected) as Hgoal.
  { destruct (isin (cell d2 r2 "source") us_levels) eqn:Hm.
    - by apply Hsel.
    - assert (i2 ∉ index selected) as Hni.
      { rewrite Hsel. done. }
      split; [|done].
      rewrite series_loc_None; [done|]. by rewrite Hsidx. }
  rewrite <-calls_index in Hgoal. exact Hgoal.
Qed.

(** *** From the prepared frame to the assembled records *)

Lemma prepare_wikidata_info_frame df out calls :
  prepare_wikidata_info title lookup_wd df = Some (out, calls) →
  index_name out = None
  ∧ "wikidata_id" ∈ columns out
  ∧ ∀ i r c v, (i, r) ∈ rows out → r !! c = Some v →
               where_notnull_none_cell v = v.
Proof.
  unfold prepare_wikidata_info. intros Hprep.
  destruct (reset_index df) as [d1|] eqn:Hd1; [|done]. simpl in Hprep.
  destruct (add_point_and_title title d1) as [d2|] eqn:Hd2; [|done].
  simpl in Hprep.
  case_decide as Hsrc; [|done].
  destruct (apply_axis1 _ _) as [s|] eqn:Hs; [|done]. simpl in Hprep.
  destruct (setitem "wikidata_id" s d2) as [d3|] eqn:Hd3; [|done].
  simpl in Hprep. injection Hprep as <- <-.
  destruct (reset_index_spec _ _ Hd1) as (Hnd1 & _ & _).
  destruct (add_point_and_title_spec _ _ Hd2) as (Hidx2 & _ & _).
  assert (NoDup (index d2)) as Hnd2 by (by rewrite Hidx2).
  destruct (setitem_by_label _ _ _ _ Hnd2 Hd3) as (Hn3 & Hc3 & _).
  split_and!.
  - simpl. rewrite Hn3.
    unfold add_point_and_title in Hd2.
    destruct (apply_column "geometry" centroid_x d1) as [s1|] eqn:Hs1;
      [|done]. simpl in Hd2.
    destruct (setitem "x" s1 d1) as [e1|] eqn:He1; [|done]. simpl in Hd2.
    destruct (apply_column "geometry" centroid_y e1) as [s2|] eqn:Hs2;
      [|done]. simpl in Hd2.
    destruct (setitem "y" s2 e1) as [e2|] eqn:He2; [|done]. simpl in Hd2.
    destruct (apply_column "common_name" (str_title title) e2)
      as [s3|] eqn:Hs3; [|done]. simpl in Hd2.
    destruct (assign_column_spec _ _ _ _ _ _ Hs1 He1) as (Hn1 & _ & _).
    destruct (assign_column_spec _ _ _ _ _ _ Hs2 He2) as (Hn2 & _ & _).
    destruct (assign_column_spec _ _ _ _ _ _ Hs3 Hd2) as (Hn2' & _ & _).
    rewrite Hn2', Hn2, Hn1.
    unfold reset_index in Hd1. case_decide; [done|]. by injection Hd1 as <-.
  - rewrite where_columns, Hc3, add_columns_elem_of. right. by left.
  - intros i r c v Hin Hv. rewrite where_rows in Hin.
    apply list_elem_of_fmap in Hin as ([i3 r3] & [= -> ->] & _).
    simpl in Hv. rewrite lookup_fmap in Hv.
    destruct (r3 !! c) as [v3|]; simplify_eq/=. by destruct v3.
Qed.

Lemma prep_source_for_pg_from (d dm dp : DataFrame G) :
  prep_source_for_pg d = Some (dm, dp) →
  ∀ tab, tab = dm ∨ tab = dp →
    index_name tab = index_name d
    ∧ columns tab = filter (λ c, c ∉ ["geometry"])
                           (add_columns (columns d) ["geom"])
    ∧ ∀ i t, (i, t) ∈ rows tab →
             ∃ r0 g, (i, r0) ∈ rows d ∧ t = stored_row g r0.
Proof.
  unfold prep_source_for_pg, split_geometry. intros Hprep.
  set (m0 := drop_labels (index (loc (λ r, bool_decide
                (row_geom_type d r = Str "Polygon")) d)) d) in Hprep.
  set (p0 := drop_labels (index (loc (λ r, bool_decide
                (row_geom_type d r = Str "MultiPolygon")) d)) d) in Hprep.
  destruct (add_geom m0) as [m1|] eqn:Hm1; [|done]. simpl in Hprep.
  destruct (add_geom p0) as [p1|] eqn:Hp1; [|done]. simpl in Hprep.
  destruct (drop_columns ["geometry"] m1) as [m2|] eqn:Hm2; [|done].
  simpl in Hprep.
  destruct (drop_columns ["geometry"] p1) as [p2|] eqn:Hp2; [|done].
  simpl in Hprep. injection Hprep as <- <-.
  assert (∀ x0 x1 x2 : DataFrame G,
    index_name x0 = index_name d → columns x0 = columns d →
    (∀ ir, ir ∈ rows x0 → ir ∈ rows d) →
    add_geom x0 = Some x1 → drop_columns ["geometry"] x1 = Some x2 →
    index_name x2 = index_name d
    ∧ columns x2 = filter (λ c, c ∉ ["geometry"])
                          (add_columns (columns d) ["geom"])
    ∧ ∀ i t, (i, t) ∈ rows x2 →
             ∃ r0 g, (i, r0) ∈ rows d ∧ t = stored_row g r0) as Hside.
  { intros x0 x1 x2 Hn0 Hc0 Hsub Hadd Hdrop.
    destruct (stored_spec _ _ _ Hadd Hdrop) as [Hn Hrw].
    split_and!; [congruence| |].
    - destruct (drop_columns_spec _ _ _ Hdrop) as (_ & -> & _).
      unfold add_geom in Hadd.
      destruct (apply_column "geometry" to_wkt_element x0)
        as [s|] eqn:Hs; [|done]. simpl in Hadd.
      destruct (assign_column_spec _ _ _ _ _ _ Hs Hadd) as (_ & -> & _).
      by rewrite Hc0.
    - intros i t Hin.
      destruct (rowwise_elem_of_inv _ _ _ _ _ Hrw Hin)
        as (r0 & Hin0 & g & _ & ->).
      exists r0, g. split; [by apply Hsub|done]. }
  intros tab [-> | ->].
  - apply (Hside m0 m1); [done..| |done|done].
    intros ir. unfold m0, drop_labels. simpl.
    by intros [_ ?]%list_elem_of_filter.
  - apply (Hside p0 p1); [done..| |done|done].
    intros ir. unfold p0, drop_labels. simpl.
    by intros [_ ?]%list_elem_of_filter.
Qed.

Lemma to_sql_from (tab e : DataFrame G) :
  to_sql true tab = Some e →
  columns e = index_column tab :: columns tab
  ∧ ∀ t, t ∈ (rows e).*2 →
         ∃ i t0, (i, t0) ∈ rows tab
           ∧ t = where_notnull_none_cell
                 <$> <[index_column tab := label_value i]> t0.
Proof.
  unfold to_sql. destruct (reset_index tab) as [d|] eqn:Hd; [|done].
  simpl. intros [= <-]. unfold reset_index in Hd.
  case_decide; [done|]. injection Hd as <-. simpl. split; [done|].
  intros t ([j t'] & -> & Hin)%list_elem_of_fmap.
  apply list_elem_of_fmap in Hin as ([j' t''] & [= -> ->] & Hin).
  apply range_index_elem_of in Hin.
  apply list_elem_of_fmap in Hin as ([i t0] & -> & Hin).
  by exists i, t0.
Qed.

Lemma stored_row_lookup (g : G) r c :
  c ≠ "geometry" → c ≠ "geom" → stored_row g r !! c = r !! c.
Proof.
  intros Hc1 Hc2. unfold stored_row.
  rewrite map_lookup_filter. rewrite lookup_insert_ne by done.
  destruct (r !! c) as [v|] eqn:Hv; simpl; [|done].
  rewrite option_guard_True; [done|]. simpl. set_solver.
Qed.

(** The selected cells of a stored row are those of the prepared row
    it was made from. *)
Lemma stored_cells (prepared x e : DataFrame G) t :
  (∀ i r c v, (i, r) ∈ rows prepared → r !! c = Some v →
              where_notnull_none_cell v = v) →
  index_name x = None →
  columns x = filter (λ c, c ∉ ["geometry"])
                     (add_columns (columns prepared) ["geom"]) →
  (∀ i t, (i, t) ∈ rows x →
          ∃ r0 g, (i, r0) ∈ rows prepared ∧ t = stored_row g r0) →
  to_sql true x = Some e → t ∈ (rows e).*2 →
  ∃ i0 r0, (i0, r0) ∈ rows prepared
    ∧ ∀ c, c ∈ q_ecoregions → cell e t c = cell prepared r0 c.
Proof.
  intros Hnorm Hname Hcols Hrows Hsql Ht.
  destruct (to_sql_from _ _ Hsql) as [Hce Hre].
  destruct (Hre t Ht) as (i0 & t0 & Hin0 & ->).
  destruct (Hrows _ _ Hin0) as (r0 & g & Hin & ->).
  exists i0, r0. split; [done|]. intros c Hc.
  assert (c ≠ "geometry" ∧ c ≠ "geom" ∧ c ≠ "index" ∧ c ≠ "level_0")
    as (? & ? & ? & ?).
  { unfold q_ecoregions in Hc. set_solver. }
  assert (c ≠ index_column x) as Hidx.
  { unfold index_column. rewrite Hname. by case_decide. }
  assert (c ∈ columns e ↔ c ∈ columns prepared) as Hiff.
  { rewrite Hce, Hcols, elem_of_cons, list_elem_of_filter.
    rewrite add_columns_elem_of. set_solver. }
  unfold cell. rewrite lookup_fmap, lookup_insert_ne by done.
  rewrite stored_row_lookup by done.
  destruct (decide (c ∈ columns prepared)) as [Hin'|Hnin].
  - rewrite decide_True by (by apply Hiff).
    destruct (r0 !! c) as [v|] eqn:Hv; simpl; [|done].
    by eapply Hnorm.
  - rewrite decide_False; [done|]. by rewrite Hiff.
Qed.

(** C4, for the suite: in the assembled records, a record whose source
    is not one of the two US levels has [None] for its external
    identifier, and it is the record of a prepared row for which no
    lookup was made. *)
Theorem assemble_us_only (ecoregions df_intersections prepared : DataFrame G)
    final calls calls' :
  prepare_wikidata_info title lookup_wd ecoregions
  = Some (prepared, calls) →
  assemble title lookup_wd ecoregions df_intersections
  = Some (final, calls') →
  calls' = calls
  ∧ ∀ i o src, (i, o) ∈ orows final →
      o !! "source" = Some (Scalar src) → isin src us_levels = false →
      o !! "wikidata_id" = Some (Scalar PyNone)
      ∧ ∃ i0 r0, (i0, r0) ∈ rows prepared ∧ ¬ (i0 ∈ calls.*1)
          ∧ ∀ c, c ∈ q_ecoregions → c ≠ "part_of_identifiers" →
                 o !! c = Some (Scalar (cell prepared r0 c)).
Proof.
  intros Hprep. unfold assemble. rewrite Hprep. simpl.
  destruct (prep_source_for_pg prepared) as [[dm dp]|] eqn:Hpg; [|done].
  simpl. unfold load_to_pg.
  destruct (to_sql true dp) as [ep|] eqn:Hep; [|done]. simpl.
  destruct (to_sql true dm) as [em|] eqn:Hem; [|done]. simpl.
  destruct (recombine_ecoregions em ep df_intersections)
    as [out|] eqn:Hrec; [|done]. simpl.
  intros [= <- <-]. split; [done|].
  intros i o src Hin Hsrc Hus.
  destruct (prepare_wikidata_info_frame _ _ _ Hprep)
    as (Hname & Hwid & Hnorm).
  pose proof (prep_source_for_pg_from _ _ _ Hpg) as Hfrom.
  destruct (recombine_ecoregions_cells _ _ _ _ _ _ Hrec Hin)
    as (tab & t & Htab & Ht & Hcells).
  assert (∃ i0 r0, (i0, r0) ∈ rows prepared
            ∧ ∀ c, c ∈ q_ecoregions → cell tab t c = cell prepared r0 c)
    as (i0 & r0 & Hin0 & Hsame).
  { destruct Htab as [-> | ->].
    - destruct (Hfrom dm (or_introl eq_refl)) as (Hn & Hc & Hr).
      eapply (stored_cells prepared dm); [done|congruence|done..].
    - destruct (Hfrom dp (or_intror eq_refl)) as (Hn & Hc & Hr).
      eapply (stored_cells prepared dp); [done|congruence|done..]. }
  assert (∀ c, c ∈ q_ecoregions → c ≠ "part_of_identifiers" →
               o !! c = Some (Scalar (cell prepared r0 c))) as Hcarried.
  { intros c Hc Hne. rewrite Hcells by done. by rewrite Hsame. }
  assert ("source" ∈ q_ecoregions ∧ "wikidata_id" ∈ q_ecoregions)
    as [Hqs Hqw] by (unfold q_ecoregions; set_solver).
  rewrite (Hcarried "source") in Hsrc by done.
  injection Hsrc as <-.
  pose proof (prepare_wikidata_info_us_only _ _ _ Hprep _ _ Hin0) as Hrow.
  rewrite Hus in Hrow. destruct Hrow as [Hnone Hnocall].
  split.
  - rewrite (Hcarried "wikidata_id") by done. by rewrite Hnone.
  - by exists i0, r0.
Qed.

End ExternalIdentifiers.

(** ** More on frames *)

Section MoreFrameLemmas.
Context {G : Type} `{Geometric G}.
Implicit Types (df d : DataFrame G) (r : gmap string (scalar G)).

Lemma assign_axis1 c (f : (string → option (scalar G)) → option (scalar G))
    df s df' :
  apply_axis1 f df = Some s → setitem c s df = Some df' →
  rows df ≠ []
  ∧ index_name df' = index_name df
  ∧ columns df' = add_columns (columns df) [c]
  ∧ rowwise (λ r r', ∃ v, f (getitem df r) = Some v ∧ r' = <[c:=v]> r)
            (rows df) (rows df').
Proof.
  intros [Hne Hs]%apply_axis1_series Hd. split; [done|].
  exact (assign_spec c (λ r, f (getitem df r)) _ _ _ Hs Hd).
Qed.

Lemma getitem_insert_ne df df1 r c c' v :
  (∀ x, x ∈ columns df1 ↔ x ∈ columns df ∨ x = c') → c ≠ c' →
  getitem df1 (<[c':=v]> r) c = getitem df r c.
Proof.
  intros Hcols Hne. unfold getitem, cell.
  destruct (decide (c ∈ columns df)) as [Hc|Hc].
  - rewrite !decide_True by (apply Hcols; by left).
    by rewrite lookup_insert_ne.
  - rewrite decide_False; [done|]. rewrite Hcols. naive_solver.
Qed.

Lemma add_column_elem_of (cols : list string) c x :
  x ∈ add_columns cols [c] ↔ x ∈ cols ∨ x = c.
Proof. rewrite add_columns_elem_of, list_elem_of_singleton. done. Qed.


Lemma cell_insert_ne df df1 r c c' v :
  (∀ x, x ∈ columns df1 ↔ x ∈ columns df ∨ x = c') → c ≠ c' →
  cell df1 (<[c':=v]> r) c = cell df r c.
Proof.
  intros Hcols Hne. unfold cell.
  destruct (decide (c ∈ columns df)) as [Hc|Hc].
  - rewrite !decide_True by (apply Hcols; by left).
    by rewrite lookup_insert_ne.
  - rewrite decide_False; [done|]. rewrite Hcols. naive_solver.
Qed.

Lemma assign_column c c' (f : scalar G → option (scalar G)) df df' s :
  apply_column c f df = Some s → setitem c' s df = Some df' →
  c ∈ columns df
  ∧ index_name df' = index_name df
  ∧ columns df' = add_columns (columns df) [c']
  ∧ rowwise (λ r r', ∃ v, f (cell df r c) = Some v ∧ r' = <[c':=v]> r)
            (rows df) (rows df').
Proof.
  intros [Hc Hs]%apply_column_series Hset. split; [done|].
  exact (assign_spec c' (λ r, f (cell df r c)) _ _ _ Hs Hset).
Qed.

Lemma reset_index_rows df d :
  reset_index df = Some d →
  ¬ (index_column df ∈ columns df)
  ∧ index_name d = None
  ∧ columns d = index_column df :: columns df
  ∧ rows d = range_index
               ((λ ir : label * gmap string (scalar G),
                   <[index_column df := label_value ir.1]> ir.2)
                <$> rows df).
Proof.
  unfold reset_index. case_decide as Hn; [done|]. by intros [= <-].
Qed.

Lemma reset_cell_spec df d i r c :
  columns d = index_column df :: columns df →
  cell d (<[index_column df := label_value i]> r) c = reset_cell df i r c.
Proof.
  intros Hc. unfold reset_cell, cell. rewrite Hc.
  destruct (decide (c = index_column df)) as [->|Hne].
  - rewrite decide_True by apply list_elem_of_here.
    by rewrite lookup_insert_eq.
  - rewrite lookup_insert_ne by done.
    destruct (decide (c ∈ columns df)).
    + by rewrite decide_True by (by apply list_elem_of_further).
    + rewrite decide_False; [done|]. by intros [?|?]%elem_of_cons.
Qed.

Lemma series_elem (f : gmap string (scalar G) → option (scalar G))
    (rs : list (label * gmap string (scalar G))) (s : Series G) i r :
  mapM (λ ir : label * gmap string (scalar G),
          v ← f ir.2; Some (ir.1, v)) rs = Some s →
  (i, r) ∈ rs → ∃ v, f r = Some v ∧ (i, v) ∈ s.
Proof.
  intros Hs%mapM_Some [j Hj]%list_elem_of_lookup.
  destruct (Forall2_lookup_l _ _ _ _ _ Hs Hj) as ([i' v] & Hj' & Hf).
  simpl in Hf. destruct (f r) as [v'|]; simplify_eq/=.
  exists v. split; [done|]. by eapply list_elem_of_lookup_2.
Qed.

Lemma series_loc_elem (s : Series G) i v :
  NoDup s.*1 → (i, v) ∈ s → series_loc s i = Some v.
Proof.
  induction s as [|[j w] s IH]; [by intros _ ?%elem_of_nil|].
  rewrite fmap_cons. intros [Hj Hnd]%NoDup_cons [[= -> ->]|Hin]%elem_of_cons.
  - apply series_loc_head.
  - simpl. rewrite decide_False; [by apply IH|].
    intros ->. apply Hj. apply list_elem_of_fmap. by exists (i, v).
Qed.

Lemma series_loc_not_in (s : Series G) i :
  i ∉ s.*1 → series_loc s i = None.
Proof.
  induction s as [|[j v] s IH]; [done|]. rewrite fmap_cons.
  intros [Hne Hi]%not_elem_of_cons. simpl in *.
  rewrite decide_False by congruence. by apply IH.
Qed.

Lemma fmap_fst_relabel {A} (f : label * gmap string (scalar G) → A)
    (l : list (label * gmap string (scalar G))) :
  ((λ ir, (ir.1, f ir)) <$> l).*1 = l.*1.
Proof. induction l as [|x l IH]; [done|]. rewrite !fmap_cons. by f_equal. Qed.

Lemma union_columns_inv (dfs : list (DataFrame G)) c :
  c ∈ union_columns dfs → ∃ df, df ∈ dfs ∧ c ∈ columns df.
Proof.
  unfold union_columns.
  assert (∀ acc, c ∈ foldl (λ a df, add_columns a (columns df)) acc dfs →
                 c ∈ acc ∨ ∃ df, df ∈ dfs ∧ c ∈ columns df) as Hgen.
  { induction dfs as [|df dfs IH]; intros acc Hc; [by left|].
    simpl in Hc. apply IH in Hc as [Hc|(df' & ? & ?)].
    - apply add_columns_elem_of in Hc as [?|?]; [by left|].
      right. exists df. split; [apply list_elem_of_here|done].
    - right. exists df'. split; [by apply list_elem_of_further|done]. }
  intros Hc. apply Hgen in Hc as [Hc|?]; [by apply elem_of_nil in Hc|done].
Qed.

Lemma to_sql_false df e : to_sql false df = Some e → e = where_notnull_none df.
Proof. unfold to_sql. simpl. by intros [= <-]. Qed.

Lemma add_geom_columns df df1 :
  add_geom df = Some df1 → columns df1 = add_columns (columns df) ["geom"].
Proof.
  unfold add_geom.
  destruct (apply_column "geometry" to_wkt_element df) as [s|] eqn:Hs;
    [|done]. simpl. intros Hset.
  apply apply_column_series in Hs as [_ Hs].
  by destruct (assign_spec "geom"
                 (λ r, to_wkt_element (cell df r "geometry")) _ _ _ Hs Hset)
    as (_ & ? & _).
Qed.

Lemma prep_source_for_pg_columns df dataset_multi dataset_poly :
  prep_source_for_pg df = Some (dataset_multi, dataset_poly) →
  columns dataset_multi
  = filter (λ c, c ∉ ["geometry"]) (add_columns (columns df) ["geom"])
  ∧ columns dataset_poly
    = filter (λ c, c ∉ ["geometry"]) (add_columns (columns df) ["geom"]).
Proof.
  unfold prep_source_for_pg, split_geometry. intros Hprep.
  set (m0 := drop_labels (index (loc (λ r, bool_decide
                (row_geom_type df r = Str "Polygon")) df)) df) in Hprep.
  set (p0 := drop_labels (index (loc (λ r, bool_decide
                (row_geom_type df r = Str "MultiPolygon")) df)) df) in Hprep.
  destruct (add_geom m0) as [m1|] eqn:Hm1; [|done]. simpl in Hprep.
  destruct (add_geom p0) as [p1|] eqn:Hp1; [|done]. simpl in Hprep.
  destruct (drop_columns ["geometry"] m1) as [m2|] eqn:Hm2; [|done].
  simpl in Hprep.
  destruct (drop_columns ["geometry"] p1) as [p2|] eqn:Hp2; [|done].
  simpl in Hprep. injection Hprep as <- <-.
  destruct (drop_columns_spec _ _ _ Hm2) as (_ & -> & _).
  destruct (drop_columns_spec _ _ _ Hp2) as (_ & -> & _).
  by rewrite (add_geom_columns _ _ Hm1), (add_geom_columns _ _ Hp1).
Qed.


Lemma lookup_tabulated_obj (g : string → pyobj G) (cols : list string) c :
  (list_to_map ((λ c, (c, g c)) <$> cols) : gmap string (pyobj G)) !! c
  = if decide (c ∈ cols) then Some (g c) else None.
Proof.
  induction cols as [|c' cols IH]; [done|].
  rewrite fmap_cons, list_to_map_cons.
  destruct (decide (c' = c)) as [->|Hne].
  - rewrite lookup_insert_eq. by rewrite decide_True by set_solver.
  - rewrite lookup_insert_ne by done. rewrite IH.
    destruct (decide (c ∈ cols)).
    + by rewrite decide_True by set_solver.
    + by rewrite decide_False by set_solver.
Qed.
End MoreFrameLemmas.

(** ** Schema normalization, block by block *)

Section Normalization.
Context {G : Type} `{Geometric G}.
Implicit Types (df : DataFrame G) (r : gmap string (scalar G)).

Lemma fstring_text_ext parts (row1 row2 : string → option (scalar G)) :
  (∀ c, Field c ∈ parts → row1 c = row2 c) →
  fstring_text parts row1 = fstring_text parts row2.
Proof.
  induction parts as [|[s|c] parts IH]; intros Hext; simpl; [done| |].
  - rewrite IH; [done|]. intros c Hc. apply Hext. by apply list_elem_of_further.
  - rewrite (Hext c) by apply list_elem_of_here.
    rewrite IH; [done|]. intros c' Hc. apply Hext. by apply list_elem_of_further.
Qed.

Lemma fstring_text_fields parts (row : string → option (scalar G)) t c :
  fstring_text parts row = Some t → Field c ∈ parts → is_Some (row c).
Proof.
  revert t. induction parts as [|[s|c'] parts IH]; intros t Ht Hc.
  - by apply elem_of_nil in Hc.
  - apply elem_of_cons in Hc as [Hc|Hc]; [done|].
    simpl in Ht. destruct (fstring_text parts row) as [t'|] eqn:Ht'; [|done].
    by eapply IH.
  - simpl in Ht. destruct (row c') as [v|] eqn:Hv; [|done]. simpl in Ht.
    destruct (format v); [|done]. simpl in Ht.
    destruct (fstring_text parts row) as [t'|] eqn:Ht'; [|done].
    apply elem_of_cons in Hc as [Hc|Hc].
    + simplify_eq. by rewrite Hv.
    + by eapply IH.
Qed.

Lemma clean_level_spec ci name part keep df df' :
  name ≠ "contextual_identifier" →
  (∀ parts, part = Some parts →
     ¬ (Field "contextual_identifier" ∈ parts)
     ∧ ¬ (Field "common_name" ∈ parts)) →
  "contextual_identifier" ∈ keep → "common_name" ∈ keep →
  (is_Some part → "part_of_identifiers" ∈ keep) →
  clean_level ci name part keep df = Some df' →
  rows df ≠ [] ∧ normalized ci name part keep df df'.
Proof.
  intros Hname Hparts Hk1 Hk2 Hk3. unfold clean_level. intros Hclean.
  destruct (apply_axis1 (fstring ci) df) as [s1|] eqn:Hs1; [|done].
  simpl in Hclean.
  destruct (setitem "contextual_identifier" s1 df) as [df1|] eqn:Hd1;
    [|done]. simpl in Hclean.
  destruct (apply_axis1 (λ row, row name) df1) as [s2|] eqn:Hs2; [|done].
  simpl in Hclean.
  destruct (setitem "common_name" s2 df1) as [df2|] eqn:Hd2; [|done].
  simpl in Hclean.
  destruct (assign_axis1 _ _ _ _ _ Hs1 Hd1) as (Hne & _ & Hc1 & Hr1).
  destruct (assign_axis1 _ _ _ _ _ Hs2 Hd2) as (Hne1 & _ & Hc2 & Hr2).
  split; [done|].
  assert (∀ x, x ∈ columns df1 ↔ x ∈ columns df ∨ x = "contextual_identifier")
    as Hcols1 by (intros x; by rewrite Hc1, add_column_elem_of).
  assert (∀ x, x ∈ columns df2 ↔ x ∈ columns df1 ∨ x = "common_name")
    as Hcols2 by (intros x; by rewrite Hc2, add_column_elem_of).
  assert (name ∈ columns df) as Hnamein.
  { destruct (rows df) as [|[i r] rs] eqn:Hrows; [done|].
    destruct (rowwise_elem_of _ _ _ i r Hr1) as (r1 & Hin1 & _);
      [apply list_elem_of_here|].
    destruct (rowwise_elem_of _ _ _ i r1 Hr2 Hin1) as (r2 & _ & v2 & Hv2 & _).
    unfold getitem in Hv2. case_decide as Hn; [|done].
    apply Hcols1 in Hn as [?|?]; done. }
  assert (∃ df3, keep_columns keep df3 = Some df'
    ∧ (∀ x, x ∈ columns df3 ↔
            x ∈ columns df ∨ x = "contextual_identifier" ∨ x = "common_name"
            ∨ (is_Some part ∧ x = "part_of_identifiers"))
    ∧ rowwise (λ r r3,
         (∃ v, fstring ci (getitem df r) = Some v
               ∧ r3 !! "contextual_identifier" = Some v)
         ∧ r3 !! "common_name" = Some (cell df r name)
         ∧ (∀ parts, part = Some parts →
              ∃ v, fstring parts (getitem df r) = Some v
                   ∧ r3 !! "part_of_identifiers" = Some v)
         ∧ (∀ c, c ≠ "contextual_identifier" → c ≠ "common_name" →
                 part = None ∨ c ≠ "part_of_identifiers" →
                 r3 !! c = r !! c))
        (rows df) (rows df3)) as (df3 & Hk & Hcols3 & Hr3).
  { assert (∀ r v, getitem df1 (<["contextual_identifier":=v]> r) name
                   = Some (cell df r name)) as Hgetname.
    { intros r v. rewrite (getitem_insert_ne df df1) by done.
      unfold getitem. by rewrite decide_True. }
    destruct part as [parts|]; simpl in Hclean.
    - destruct (Hparts parts eq_refl) as [Hp1 Hp2].
      destruct (apply_axis1 (fstring parts) df2) as [s3|] eqn:Hs3;
        [|done]. simpl in Hclean.
      destruct (setitem "part_of_identifiers" s3 df2) as [df3|] eqn:Hd3;
        [|done]. simpl in Hclean.
      destruct (assign_axis1 _ _ _ _ _ Hs3 Hd3) as (_ & _ & Hc3 & Hr3).
      exists df3. split; [done|]. split.
      { intros x. rewrite Hc3, add_column_elem_of, Hcols2, Hcols1.
        split; [|naive_solver]. intros [[[?|?]|?]|?]; eauto 10. }
      eapply rowwise_impl; [|by eapply rowwise_compose, Hr3;
                               eapply rowwise_compose].
      intros r r3 (r2 & (r1 & (v & Hv & ->) & (v2 & Hv2 & ->))
                   & (v3 & Hv3 & ->)).
      rewrite Hgetname in Hv2. simplify_eq.
      split_and!.
      + exists v. split; [done|].
        rewrite !lookup_insert_ne by done. by rewrite lookup_insert_eq.
      + rewrite lookup_insert_ne by done. by rewrite lookup_insert_eq.
      + intros ? [= <-]. exists v3. split; [|by rewrite lookup_insert_eq].
        rewrite <-Hv3. unfold fstring. f_equal.
        apply fstring_text_ext. intros c Hc.
        rewrite (getitem_insert_ne df1 df2) by (done || by intros ->).
        rewrite (getitem_insert_ne df df1) by (done || by intros ->).
        done.
      + intros c ? ? [?|?]; [done|]. by rewrite !lookup_insert_ne.
    - exists df2. split; [done|]. split.
      { intros x. rewrite Hcols2, Hcols1. split; [naive_solver|].
        intros [?|[?|[?|[[? ?] _]]]]; eauto; done. }
      eapply rowwise_impl; [|by eapply rowwise_compose].
      intros r r2 (r1 & (v & Hv & ->) & (v2 & Hv2 & ->)).
      rewrite Hgetname in Hv2. simplify_eq.
      split_and!.
      + exists v. split; [done|].
        rewrite !lookup_insert_ne by done. by rewrite lookup_insert_eq.
      + by rewrite lookup_insert_eq.
      + done.
      + intros c ? ? _. by rewrite !lookup_insert_ne. }
  pose proof Hk as Hk'. unfold keep_columns in Hk'.
  apply drop_columns_spec in Hk' as (_ & Hcols' & _).
  apply keep_columns_lookup in Hk.
  pose proof (rowwise_compose _ _ _ _ _ Hr3 Hk) as Hr.
  split_and!.
  - unfold index. by rewrite (rowwise_index _ _ _ Hr).
  - done.
  - intros c. rewrite Hcols', list_elem_of_filter, list_elem_of_filter.
    rewrite <-Hcols3. split.
    + intros [Hn Hc]. split; [|done].
      destruct (decide (c ∈ keep)); [done|]. exfalso. by apply Hn.
    + intros [? ?]. split; [|done]. by intros [? _].
  - eapply rowwise_impl; [|done].
    intros r r' (r3 & ((v & Hv & Hl1) & Hl2 & Hl3 & Hl4) & Hkeep).
    split_and!.
    + exists v. split; [done|]. by rewrite Hkeep.
    + by rewrite Hkeep.
    + intros parts ->. destruct (Hl3 parts eq_refl) as (v3 & ? & ?).
      exists v3. split; [done|]. rewrite Hkeep; [done|]. by apply Hk3.
    + intros c ? ? ? ?. rewrite Hkeep by done. by apply Hl4.
Qed.

Lemma clean_levels na_er1 na_er2 na_er3 conus_er3 conus_er4
    (na_er1' na_er2' na_er3' conus_er3' conus_er4' : DataFrame G) :
  clean_synth_df na_er1 na_er2 na_er3 conus_er3 conus_er4
  = Some (na_er1', na_er2', na_er3', conus_er3', conus_er4') →
  clean_na_er1 na_er1 = Some na_er1'
  ∧ clean_na_er2 na_er2 = Some na_er2'
  ∧ clean_na_er3 na_er3 = Some na_er3'
  ∧ clean_conus_er3 conus_er3 = Some conus_er3'
  ∧ clean_conus_er4 conus_er4 = Some conus_er4'.
Proof.
  unfold clean_synth_df. intros Hc.
  destruct (clean_na_er1 na_er1) as [a|]; [|done]. simpl in Hc.
  destruct (clean_na_er2 na_er2) as [b|]; [|done]. simpl in Hc.
  destruct (clean_na_er3 na_er3) as [c|]; [|done]. simpl in Hc.
  destruct (clean_conus_er3 conus_er3) as [d|]; [|done]. simpl in Hc.
  destruct (clean_conus_er4 conus_er4) as [e|]; [|done]. simpl in Hc.
  by simplify_eq.
Qed.


Lemma fstring_fields parts (row : string → option (scalar G)) v c :
  fstring parts row = Some v → Field c ∈ parts → is_Some (row c).
Proof.
  unfold fstring. destruct (fstring_text parts row) as [t|] eqn:Ht; [|done].
  intros _. by eapply fstring_text_fields.
Qed.

Lemma getitem_columns df r c : is_Some (getitem df r c) → c ∈ columns df.
Proof. unfold getitem. case_decide; [done|]. by intros [? ?]. Qed.

Lemma normalized_fields ci name part keep df df' c :
  rows df ≠ [] → normalized ci name part keep df df' →
  Field c ∈ ci ∨ c = name ∨ (∃ parts, part = Some parts ∧ Field c ∈ parts) →
  c ∈ columns df.
Proof.
  intros Hne (_ & Hname & _ & Hr) Hc.
  destruct (rows df) as [|[i r] rs] eqn:Hrows; [done|].
  destruct (rowwise_elem_of _ _ _ i r Hr) as (r' & _ & (v & Hv & _) & _ & Hp & _);
    [apply list_elem_of_here|].
  destruct Hc as [Hc|[->|(parts & -> & Hc)]]; [|done|].
  - eapply getitem_columns, fstring_fields; done.
  - destruct (Hp parts eq_refl) as (vp & Hvp & _).
    eapply getitem_columns, fstring_fields; done.
Qed.
End Normalization.

Ltac no_field :=
  let Hin := fresh in
  intros Hin;
  repeat (apply elem_of_cons in Hin as [Hin|Hin]; [done|]);
  by apply elem_of_nil in Hin.

Ltac level_spec Hlevel :=
  refine (proj2 (clean_level_spec _ _ _ _ _ _ _ _ _ _ _ Hlevel));
  [done
  |intros ? Hp; first [discriminate Hp|injection Hp as <-; split; no_field]
  |compute_done
  |compute_done
  |first [by intros [? [=]]|intros _; compute_done]].

Ltac mem :=
  solve [repeat first [apply list_elem_of_here|apply list_elem_of_further]].

Ltac required Hlevel :=
  let x := fresh "x" in
  let Hx := fresh "Hx" in
  intros x Hx;
  refine (normalized_fields _ _ _ _ _ _ x
            (proj1 (clean_level_spec _ _ _ _ _ _ _ _ _ _ _ Hlevel))
            (proj2 (clean_level_spec _ _ _ _ _ _ _ _ _ _ _ Hlevel)) _);
  [done
  |intros ? Hp; first [discriminate Hp|injection Hp as <-; split; no_field]
  |compute_done
  |compute_done
  |first [by intros [? [=]]|intros _; compute_done]
  |done
  |intros ? Hp; first [discriminate Hp|injection Hp as <-; split; no_field]
  |compute_done
  |compute_done
  |first [by intros [? [=]]|intros _; compute_done]
  |];
  repeat (apply elem_of_cons in Hx as [->|Hx]);
  [..|by apply elem_of_nil in Hx];
  first [left; mem
        |right; left; reflexivity
        |right; right; eexists; split; [reflexivity|];
         unfold part_of_l2, part_of_l3, part_of_us_l3, part_of_us_l4; mem].

(** ** What [clean_synth_df] returns *)

Section NormalizedFrames.
Context {G : Type} `{Geometric G}.
Implicit Types (df : DataFrame G) (r : gmap string (scalar G)).

(** X6: what [clean_synth_df] returns for each of the five levels: the
    row labels are kept; the columns are those of the kept ones that
    the frame had or that were added; and row by row the identifier is
    the formatted string of the level over the old row, the common name
    is the old row's name of the level, the ancestors (below the top
    level) are their formatted string, and [source] and [geometry] are
    as they were. *)
Theorem clean_synth_df_normalized
    (na_er1 na_er2 na_er3 conus_er3 conus_er4
     na_er1' na_er2' na_er3' conus_er3' conus_er4' : DataFrame G) :
  clean_synth_df na_er1 na_er2 na_er3 conus_er3 conus_er4
  = Some (na_er1', na_er2', na_er3', conus_er3', conus_er4') →
  normalized [Lit "NA_L1CODE:"; Field "NA_L1CODE"] "NA_L1NAME" None
             keep_top na_er1 na_er1'
  ∧ normalized [Lit "NA_L2CODE:"; Field "NA_L2CODE"] "NA_L2NAME"
               (Some part_of_l2) keep_below na_er2 na_er2'
  ∧ normalized [Lit "NA_L3CODE:"; Field "NA_L3CODE"] "NA_L3NAME"
               (Some part_of_l3) keep_below na_er3 na_er3'
  ∧ normalized [Lit "US_L3CODE:"; Field "US_L3CODE"] "US_L3NAME"
               (Some part_of_us_l3) keep_below conus_er3 conus_er3'
  ∧ normalized [Lit "US_L4CODE:"; Field "US_L4CODE"] "US_L4NAME"
               (Some part_of_us_l4) keep_below conus_er4 conus_er4'.
Proof.
  intros (H1 & H2 & H3 & H4 & H5)%clean_levels.
  unfold clean_na_er1 in H1. unfold clean_na_er2 in H2.
  unfold clean_na_er3 in H3. unfold clean_conus_er3 in H4.
  unfold clean_conus_er4 in H5.
  split_and!.
  - level_spec H1.
  - level_spec H2.
  - level_spec H3.
  - level_spec H4.
  - level_spec H5.
Qed.

(** X7: [clean_synth_df] returns only if every frame has the code and
    name columns of its own level and the code columns of the levels
    above it. *)
Theorem clean_synth_df_requires
    (na_er1 na_er2 na_er3 conus_er3 conus_er4
     na_er1' na_er2' na_er3' conus_er3' conus_er4' : DataFrame G) :
  clean_synth_df na_er1 na_er2 na_er3 conus_er3 conus_er4
  = Some (na_er1', na_er2', na_er3', conus_er3', conus_er4') →
  ["NA_L1CODE"; "NA_L1NAME"] ⊆ columns na_er1
  ∧ ["NA_L2CODE"; "NA_L2NAME"; "NA_L1CODE"] ⊆ columns na_er2
  ∧ ["NA_L3CODE"; "NA_L3NAME"; "NA_L1CODE"; "NA_L2CODE"] ⊆ columns na_er3
  ∧ ["US_L3CODE"; "US_L3NAME"; "NA_L1CODE"; "NA_L2CODE"; "NA_L3CODE"]
    ⊆ columns conus_er3
  ∧ ["US_L4CODE"; "US_L4NAME"; "NA_L1CODE"; "NA_L2CODE"; "NA_L3CODE";
     "US_L3CODE"] ⊆ columns conus_er4.
Proof.
  intros (H1 & H2 & H3 & H4 & H5)%clean_levels.
  unfold clean_na_er1 in H1. unfold clean_na_er2 in H2.
  unfold clean_na_er3 in H3. unfold clean_conus_er3 in H4.
  unfold clean_conus_er4 in H5.
  split_and!.
  - required H1.
  - required H2.
  - required H3.
  - required H4.
  - required H5.
Qed.

Lemma contains_append sep (a b : string) :
  contains sep (a +:+ b) = contains sep a || contains sep b.
Proof.
  induction a as [|c a IH]; [done|].
  rewrite append_cons. simpl. by rewrite IH, orb_assoc.
Qed.

Lemma getitem_text df r c s :
  cell df r c = Str s → getitem df r c = Some (Str s).
Proof.
  intros Hc. unfold getitem. case_decide; [by rewrite Hc|].
  by rewrite cell_absent in Hc.
Qed.

Lemma parse_serialized (l : list string) :
  l ≠ [] → Forall (λ a, contains ";" a = false) l →
  parse_part_of (serialize_part_of (G:=G) l) = Some (PyList (Str <$> l)).
Proof.
  intros Hne Hf. destruct l as [|x l]; [done|].
  unfold serialize_part_of, parse_part_of. by rewrite split_join.
Qed.

(** X8: for a US level-4 record whose codes are text free of ';', the
    ancestors that [clean_synth_df] writes are parsed by the split of
    [recombine_ecoregions] into the contextual identifiers of its four
    ancestors, from level 1 down. *)
Theorem clean_synth_df_ancestors
    (na_er1 na_er2 na_er3 conus_er3 conus_er4
     na_er1' na_er2' na_er3' conus_er3' conus_er4' : DataFrame G)
    i r c1 c2 c3 c4 :
  clean_synth_df na_er1 na_er2 na_er3 conus_er3 conus_er4
  = Some (na_er1', na_er2', na_er3', conus_er3', conus_er4') →
  (i, r) ∈ rows conus_er4 →
  cell conus_er4 r "NA_L1CODE" = Str c1 →
  cell conus_er4 r "NA_L2CODE" = Str c2 →
  cell conus_er4 r "NA_L3CODE" = Str c3 →
  cell conus_er4 r "US_L3CODE" = Str c4 →
  Forall (λ a, contains ";" a = false) [c1; c2; c3; c4] →
  ∃ r' v, (i, r') ∈ rows conus_er4'
    ∧ r' !! "part_of_identifiers" = Some v
    ∧ parse_part_of v
      = Some (PyList [Str ("NA_L1CODE:" +:+ c1); Str ("NA_L2CODE:" +:+ c2);
                      Str ("NA_L3CODE:" +:+ c3); Str ("US_L3CODE:" +:+ c4)]).
Proof.
  intros (_ & _ & _ & _ & H5)%clean_levels Hin Hc1 Hc2 Hc3 Hc4 Hno.
  unfold clean_conus_er4 in H5.
  assert (normalized [Lit "US_L4CODE:"; Field "US_L4CODE"] "US_L4NAME"
            (Some part_of_us_l4) keep_below conus_er4 conus_er4')
    as (_ & _ & _ & Hr) by level_spec H5.
  destruct (rowwise_elem_of _ _ _ i r Hr Hin)
    as (r' & Hin' & _ & _ & Hp & _).
  destruct (Hp _ eq_refl) as (v & Hv & Hl).
  exists r', v. split_and!; [done..|].
  rewrite (part_of_us_l4_serialized _ c1 c2 c3 c4) in Hv
    by (by apply getitem_text).
  assert (v = serialize_part_of
                ["NA_L1CODE:" +:+ c1; "NA_L2CODE:" +:+ c2;
                 "NA_L3CODE:" +:+ c3; "US_L3CODE:" +:+ c4]) as ->
    by congruence.
  rewrite parse_serialized; [done..|].
  inversion Hno as [|?? Hn1 Hno1]; subst.
  inversion Hno1 as [|?? Hn2 Hno2]; subst.
  inversion Hno2 as [|?? Hn3 Hno3]; subst.
  inversion Hno3 as [|?? Hn4 _]; subst.
  repeat constructor; rewrite contains_append; (rewrite Hn1 || rewrite Hn2 || rewrite Hn3 || rewrite Hn4); done.
Qed.

(** X9: in the frame of [combine_source_data] the records of the top
    level come first, renumbered from 0, with their cells carried over;
    the frame has the column [part_of_identifiers], under which they
    hold [NaN]. *)
Theorem combine_source_data_top_level
    (na_er1 na_er2 na_er3 conus_er3 conus_er4 a b c d e : DataFrame G)
    j i r :
  clean_synth_df na_er1 na_er2 na_er3 conus_er3 conus_er4
  = Some (a, b, c, d, e) →
  rows a !! j = Some (i, r) →
  let ecoregions := combine_source_data a b c d e in
  "part_of_identifiers" ∈ columns ecoregions
  ∧ ∃ r', rows ecoregions !! j = Some (Pos j, r')
      ∧ r' !! "part_of_identifiers" = Some NaN
      ∧ ∀ col, col ∈ columns ecoregions → r' !! col = Some (cell a r col).
Proof.
  intros Hclean Hj ecoregions.
  apply clean_levels in Hclean as (H1 & H2 & _).
  unfold clean_na_er1 in H1. unfold clean_na_er2 in H2.
  assert (normalized [Lit "NA_L1CODE:"; Field "NA_L1CODE"] "NA_L1NAME" None
            keep_top na_er1 a) as (_ & _ & Ha & _) by level_spec H1.
  assert (normalized [Lit "NA_L2CODE:"; Field "NA_L2CODE"] "NA_L2NAME"
            (Some part_of_l2) keep_below na_er2 b) as (_ & _ & Hb & _)
    by level_spec H2.
  assert ("part_of_identifiers" ∈ columns ecoregions) as Hcol.
  { unfold ecoregions, combine_source_data. cbn [concat columns].
    apply (union_columns_elem_of _ b);
      [apply list_elem_of_further, list_elem_of_here|].
    apply Hb. split; [compute_done|]. right; right; right. by split. }
  split; [done|].
  pose proof (concat_lookup [a; b; c; d; e] 0 a j i r eq_refl Hj) as Hl.
  simpl in Hl. exists (reindex_row a (union_columns [a; b; c; d; e]) r).
  split_and!.
  - exact Hl.
  - rewrite reindex_row_lookup by exact Hcol.
    rewrite cell_absent; [done|]. rewrite Ha. compute_done.
  - intros col Hc. by rewrite reindex_row_lookup.
Qed.
End NormalizedFrames.

(** ** The split of the ancestors loses nothing *)

Section SplitLossless.
Context {G : Type} `{Geometric G}.

Lemma split_spec sep (s : string) :
  split sep s ≠ []
  ∧ join (String sep EmptyString) (split sep s) = s
  ∧ Forall (λ a, contains sep a = false) (split sep s).
Proof.
  induction s as [|c s (Hne & Hj & Hf)].
  - simpl. split_and!; [done..|]. by constructor.
  - destruct (decide (c = sep)) as [->|Hc].
    + rewrite split_sep. split_and!; [done| |by constructor].
      destruct (split sep s) as [|h t] eqn:Hs; [done|].
      rewrite join_cons_cons, Hj. done.
    + rewrite split_cons_ne by done.
      destruct (split sep s) as [|h t] eqn:Hs; [done|].
      split_and!; [done| |].
      * destruct t as [|y t].
        -- simpl in *. by rewrite Hj.
        -- rewrite join_cons_cons in *. rewrite append_cons. by rewrite Hj.
      * inversion Hf as [|?? Hh Ht]; subst. constructor; [|done].
        by apply contains_cons.
Qed.

(** X5: the split of [recombine_ecoregions] loses nothing: a text is
    parsed into parts of which there is at least one, none holds a ';',
    and joined by ';' they give the text back. *)
Theorem parse_part_of_lossless (s : string) :
  ∃ parts, parse_part_of (G:=G) (Str s) = Some (PyList (Str <$> parts))
    ∧ parts ≠ []
    ∧ Forall (λ a, contains ";" a = false) parts
    ∧ join ";" parts = s.
Proof.
  exists (split ";" s). destruct (split_spec ";" s) as (? & ? & ?). done.
Qed.
End SplitLossless.

(** ** The intersections view and the lookups over it *)

Section TheView.
Context {G : Type} `{Geometric G}.
Implicit Types (b_tab e_tab df view : DataFrame G).

Lemma select_intersecting_Some b_tab e_tab l :
  select_intersecting b_tab e_tab = Some l → l = intersecting_rows b_tab e_tab.
Proof. unfold select_intersecting. case_decide; naive_solver. Qed.

Lemma intersections_view_Some bm bp em ep view :
  intersections_view bm bp em ep = Some view →
  view = {| index_name := None;
            columns := intersection_columns;
            rows := range_index (remove_dups
              (intersecting_rows bm em ++ intersecting_rows bm ep ++
               intersecting_rows bp em ++ intersecting_rows bp ep)) |}.
Proof.
  unfold intersections_view. intros Hv.
  destruct (select_intersecting bm em) as [mm|] eqn:Hmm; [|done].
  destruct (select_intersecting bm ep) as [mp|] eqn:Hmp; [|done].
  destruct (select_intersecting bp em) as [pm|] eqn:Hpm; [|done].
  destruct (select_intersecting bp ep) as [pp|] eqn:Hpp; [|done].
  apply select_intersecting_Some in Hmm, Hmp, Hpm, Hpp.
  simpl in Hv. by simplify_eq.
Qed.

Lemma intersections_view_columns bm bp em ep view :
  intersections_view bm bp em ep = Some view →
  columns view = intersection_columns.
Proof. by intros ->%intersections_view_Some. Qed.








(** X3: over a view with the columns that the SQL selects, which has
    no [admin_id], the suite's [recombine_ecoregions] fails as soon as
    one region is stored. *)
Theorem recombine_ecoregions_over_view bm bp em ep view
    (ecoregions_m ecoregions_p : DataFrame G) :
  intersections_view bm bp em ep = Some view →
  rows ecoregions_m ≠ [] ∨ rows ecoregions_p ≠ [] →
  recombine_ecoregions ecoregions_m ecoregions_p view = None.
Proof.
  intros Hv Hne.
  pose proof (intersections_view_columns _ _ _ _ _ Hv) as Hc.
  unfold recombine_ecoregions, read_sql_union.
  destruct (select q_ecoregions ecoregions_m) as [r1|] eqn:H1; [|done].
  destruct (select q_ecoregions ecoregions_p) as [r2|] eqn:H2; [|done].
  cbn [mbind option_bind].
  unfold select in H1, H2. repeat case_decide; simplify_eq.
  set (df := {| index_name := None; columns := q_ecoregions; rows := _ |}).
  assert (rows df ≠ []) as Hrows.
  { unfold df. cbn [rows]. intros Hnil.
    apply (f_equal (fmap snd)) in Hnil. rewrite range_index_snd in Hnil.
    simpl in Hnil.
    assert (∀ x, x ∉ reindexed q_ecoregions ecoregions_m ++ reindexed q_ecoregions ecoregions_p) as Hno.
    { intros x Hx. apply elem_of_remove_dups in Hx. rewrite Hnil in Hx.
      by apply elem_of_nil in Hx. }
    unfold reindexed in Hno.
    destruct Hne as [Hne|Hne].
    - destruct (rows ecoregions_m) as [|ir ?]; [done|].
      eapply Hno. apply elem_of_app. left. rewrite fmap_cons. apply list_elem_of_here.
    - destruct (rows ecoregions_p) as [|ir ?]; [done|].
      eapply Hno. apply elem_of_app. right. rewrite fmap_cons. apply list_elem_of_here. }
  destruct (rows df) as [|ir rs] eqn:Hdf; [done|].
  cbn [mapM]. 
  assert (boundary_intersects_list view (cell df ir.2 "contextual_identifier") "admin_id" = None) as Hb.
  { unfold boundary_intersects_list.
    rewrite decide_True by (rewrite Hc; compute_done).
    rewrite decide_False; [done|]. cbn [loc columns]. rewrite Hc. compute_done. }
  rewrite Hb. by destruct (parse_part_of _).
Qed.

(** X4: the suite's lookup fails exactly when a column it reads is
    absent; its list is empty exactly when no row carries the
    identifier; and a missing identifier ([None] or [NaN]) gives the
    empty list, whatever the rows. *)
Theorem boundary_intersects_list_edges df ci column :
  (boundary_intersects_list df ci column = None
   ↔ "contextual_identifier" ∉ columns df ∨ column ∉ columns df)
  ∧ (boundary_intersects_list df ci column = Some []
     ↔ "contextual_identifier" ∈ columns df ∧ column ∈ columns df
       ∧ ∀ r, r ∈ (rows df).*2 →
              pd_eq (cell df r "contextual_identifier") ci = false)
  ∧ (notnull ci = false →
     "contextual_identifier" ∈ columns df → column ∈ columns df →
     boundary_intersects_list df ci column = Some []).
Proof.
  assert (boundary_intersects_list df ci column = Some []
          ↔ "contextual_identifier" ∈ columns df ∧ column ∈ columns df
            ∧ ∀ r, r ∈ (rows df).*2 →
                   pd_eq (cell df r "contextual_identifier") ci = false)
    as Hempty.
  { split.
    - intros Hl. assert (boundary_intersects_list df ci column ≠ None) as Hn
        by (by rewrite Hl).
      destruct (boundary_intersects_list_spec _ _ _ _ Hl) as [_ Hiff].
      unfold boundary_intersects_list in Hn. cbn [loc columns] in Hn.
      repeat case_decide; try done. split_and!; [done..|].
      intros r Hr. destruct (pd_eq _ _) eqn:Heq; [|done].
      apply list_elem_of_fmap in Hr as ([j t] & -> & Hin).
      exfalso. eapply elem_of_nil, Hiff. by exists j, t.
    - intros (Hc1 & Hc2 & Hno).
      destruct (boundary_intersects_list df ci column) as [l|] eqn:Hl.
      + destruct (boundary_intersects_list_spec _ _ _ _ Hl) as [_ Hiff].
        destruct l as [|id l]; [done|]. exfalso.
        destruct (proj1 (Hiff id)) as (j & t & Ht & Heq & _);
          [apply list_elem_of_here|].
        rewrite Hno in Heq; [done|]. apply list_elem_of_fmap. by exists (j, t).
      + exfalso. unfold boundary_intersects_list in Hl.
        cbn [loc columns] in Hl. repeat case_decide; done. }
  split_and!; [|exact Hempty|].
  - unfold boundary_intersects_list. cbn [loc columns].
    repeat case_decide; naive_solver.
  - intros Hn Hc1 Hc2. apply Hempty. split_and!; [done..|].
    intros r _. unfold pd_eq. rewrite Hn. by rewrite andb_false_r.
Qed.
End TheView.

(** ** The records of the final output *)

Section Records.
Context {G : Type} `{Geometric G}.
Implicit Types (df : DataFrame G) (r : gmap string (scalar G)).

Lemma recombine_ecoregions_record
    (ecoregions_m ecoregions_p df_intersections : DataFrame G) out :
  recombine_ecoregions ecoregions_m ecoregions_p df_intersections
  = Some out →
  ocolumns out = q_ecoregions ++ ["admin_intersects"; "country_intersects"]
  ∧ ∀ i o, (i, o) ∈ orows out →
      ∃ tab t part admin country,
        (tab = ecoregions_m ∨ tab = ecoregions_p)
        ∧ t ∈ (rows tab).*2
        ∧ parse_part_of (cell tab t "part_of_identifiers") = Some part
        ∧ boundary_intersects_list df_intersections
            (cell tab t "contextual_identifier") "admin_id" = Some admin
        ∧ boundary_intersects_list df_intersections
            (cell tab t "contextual_identifier") "country_id" = Some country
        ∧ o = <["country_intersects" := PyList country]>
                (<["admin_intersects" := PyList admin]>
                   (<["part_of_identifiers" := part]>
                      (Scalar <$> reindex_row tab q_ecoregions t))).
Proof.
  unfold recombine_ecoregions. intros Hrec.
  destruct (read_sql_union q_ecoregions ecoregions_m ecoregions_p)
    as [df|] eqn:Hdf; [|done]. simpl in Hrec.
  destruct (mapM _ (rows df)) as [records|] eqn:Hrecs; [|done].
  simpl in Hrec. injection Hrec as <-. simpl. split; [done|].
  apply mapM_Some in Hrecs.
  destruct (read_sql_union_spec _ _ _ _ Hdf) as (Hcols & Hfrom & _ & _).
  intros i o [j Hj]%list_elem_of_lookup.
  destruct (Forall2_lookup_r _ _ _ _ _ Hrecs Hj) as ([i0 r0] & Hj0 & Hf).
  simpl in Hf.
  destruct (parse_part_of _) as [part_of|] eqn:Hp; [|done]. simpl in Hf.
  destruct (boundary_intersects_list _ _ "admin_id") as [admin|] eqn:Ha;
    [|done]. simpl in Hf.
  destruct (boundary_intersects_list _ _ "country_id") as [country|] eqn:Hc;
    [|done]. simpl in Hf. injection Hf as <- <-.
  assert (∀ tab t c, c ∈ q_ecoregions →
            cell df (reindex_row tab q_ecoregions t) c = cell tab t c)
    as Hcell.
  { intros tab t c Hq. apply cell_present; [by rewrite Hcols|].
    by apply reindex_row_lookup. }
  destruct (Hfrom _ _ (list_elem_of_lookup_2 _ _ _ Hj0))
    as (t & [[Ht ->]|[Ht ->]]);
    [exists ecoregions_m|exists ecoregions_p];
    exists t, part_of, admin, country;
    rewrite !Hcell in Hp, Ha, Hc by compute_done;
    split_and!; auto.
Qed.

(** X10: the records that [cache_final_output] pickles are one per
    row of the assembled frame; each has exactly the nine keys of the
    query and of the two intersection lists, a scalar under the six
    plain columns, under [part_of_identifiers] either [None] or a list
    of at least one text without ';', and under [admin_intersects] and
    [country_intersects] two lists that hold no value but [NaN]
    twice. *)
Theorem cache_final_output_records
    (ecoregions_m ecoregions_p df_intersections : DataFrame G) final :
  recombine_ecoregions ecoregions_m ecoregions_p df_intersections
  = Some final →
  length (to_dict_records final) = length (orows final)
  ∧ ∀ o, o ∈ to_dict_records final →
      (∀ c, is_Some (o !! c) ↔
            c ∈ ["contextual_identifier"; "wikidata_id"; "source";
                 "common_name"; "part_of_identifiers"; "x"; "y";
                 "admin_intersects"; "country_intersects"])
      ∧ (∀ c, c ∈ ["contextual_identifier"; "wikidata_id"; "source";
                   "common_name"; "x"; "y"] →
              ∃ v, o !! c = Some (Scalar v))
      ∧ (o !! "part_of_identifiers" = Some (Scalar PyNone)
         ∨ ∃ parts, parts ≠ []
             ∧ Forall (λ a, contains ";" a = false) parts
             ∧ o !! "part_of_identifiers" = Some (PyList (Str <$> parts)))
      ∧ ∃ admin country,
          o !! "admin_intersects" = Some (PyList admin)
          ∧ o !! "country_intersects" = Some (PyList country)
          ∧ distinct_values admin ∧ distinct_values country.
Proof.
  intros Hrec.
  destruct (recombine_ecoregions_record _ _ _ _ Hrec) as (Hcols & Hrows).
  unfold to_dict_records. rewrite length_fmap. split; [done|].
  intros o ([i o0] & -> & Hin)%list_elem_of_fmap. simpl.
  destruct (Hrows i o0 Hin)
    as (tab & t & part & admin & country & _ & _ & Hp & Ha & Hc & ->).
  rewrite Hcols.
  pose proof (λ c (v : string → pyobj G),
    lookup_tabulated_obj v
      (q_ecoregions ++ ["admin_intersects"; "country_intersects"]) c)
    as Hlook.
  split_and!.
  - intros c. rewrite Hlook. case_decide as Hc'; split.
    + intros _. exact Hc'.
    + intros _. by eexists.
    + by intros [? ?].
    + intros Hin'. by destruct Hc'.
  - intros c Hq. rewrite Hlook.
    repeat (apply elem_of_cons in Hq as [->|Hq]);
      [..|by apply elem_of_nil in Hq];
      rewrite decide_True by compute_done;
      rewrite !lookup_insert_ne by done;
      rewrite lookup_fmap, reindex_row_lookup by compute_done;
      simpl; eauto.
  - rewrite Hlook, decide_True by compute_done.
    rewrite !lookup_insert_ne by done. rewrite lookup_insert_eq. simpl.
    destruct (cell tab t "part_of_identifiers") as [| |s| | |]; simplify_eq/=.
    + by left.
    + right. destruct (split_spec ";" s) as (? & ? & ?).
      exists (split ";" s). done.
  - exists admin, country. rewrite !Hlook.
    rewrite !decide_True by compute_done.
    rewrite lookup_insert_ne by done. rewrite !lookup_insert_eq. simpl.
    destruct (boundary_intersects_list_spec _ _ _ _ Ha) as [? _].
    destruct (boundary_intersects_list_spec _ _ _ _ Hc) as [? _].
    split_and!; [done..|by apply distinct_values_NoDup
                |by apply distinct_values_NoDup].
Qed.
End Records.

(** ** The boundaries notebook *)

Section Boundaries.
Context {G : Type} `{Geometric G}.
Implicit Types (df boundaries : DataFrame G) (r : gmap string (scalar G)).

Lemma admin_lookup_Some
    (lookup_admin_ref : scalar G → scalar G → scalar G → string → scalar G)
    return_var df r v :
  admin_lookup lookup_admin_ref return_var (getitem df r) = Some v →
  ["country"; "name"; "identifier"] ⊆ columns df
  ∧ v = lookup_admin_ref (cell df r "country") (cell df r "name")
          (cell df r "identifier") return_var.
Proof.
  unfold admin_lookup, getitem.
  destruct (decide ("country" ∈ columns df)); [|done]. simpl.
  destruct (decide ("name" ∈ columns df)); [|done]. simpl.
  destruct (decide ("identifier" ∈ columns df)); [|done]. simpl.
  intros [= <-]. split; [|done].
  intros c Hc. repeat (apply elem_of_cons in Hc as [->|Hc]); [done..|].
  by apply elem_of_nil in Hc.
Qed.

Lemma resolve_boundaries_columns
    (lookup_admin_ref : scalar G → scalar G → scalar G → string → scalar G)
    boundaries out c :
  resolve_boundaries lookup_admin_ref boundaries = Some out →
  c ∈ columns out ↔
    c ∈ columns boundaries ∨ c = "admin_id" ∨ c = "country_id".
Proof.
  unfold resolve_boundaries. intros Hres.
  destruct (apply_axis1 (admin_lookup lookup_admin_ref "wd_id") boundaries)
    as [s1|] eqn:Hs1; [|done]. simpl in Hres.
  destruct (setitem "admin_id" s1 boundaries) as [b1|] eqn:Hb1; [|done].
  simpl in Hres.
  destruct (apply_axis1 (admin_lookup lookup_admin_ref "country") b1)
    as [s2|] eqn:Hs2; [|done]. simpl in Hres.
  destruct (assign_axis1 _ _ _ _ _ Hs1 Hb1) as (_ & _ & Hc1 & _).
  destruct (assign_axis1 _ _ _ _ _ Hs2 Hres) as (_ & _ & Hc2 & _).
  rewrite Hc2, add_column_elem_of, Hc1, add_column_elem_of. tauto.
Qed.

Lemma boundary_tables_Some
    (lookup_admin_ref : scalar G → scalar G → scalar G → string → scalar G)
    (ca_states us_states mx_states us_counties boundaries_m boundaries_p
     : DataFrame G) :
  boundary_tables lookup_admin_ref ca_states us_states mx_states us_counties
  = Some (boundaries_m, boundaries_p) →
  ∃ b bm bp,
    resolve_boundaries lookup_admin_ref
      (combine_boundaries ca_states us_states mx_states us_counties) = Some b
    ∧ prep_source_for_pg b = Some (bm, bp)
    ∧ boundaries_m = where_notnull_none bm
    ∧ boundaries_p = where_notnull_none bp.
Proof.
  unfold boundary_tables. intros Ht.
  destruct (resolve_boundaries _ _) as [b|] eqn:Hres; [|done]. simpl in Ht.
  rewrite split_boundaries_eq in Ht.
  destruct (prep_source_for_pg b) as [[bm bp]|] eqn:Hsplit; [|done].
  simpl in Ht. unfold load_boundaries_to_pg in Ht. simpl in Ht.
  injection Ht as <- <-. by exists b, bm, bp.
Qed.

(** X11: the two identifier columns of the boundaries are the lookups
    made, with [return_var] "wd_id" and "country", on the same three
    cells of the row (its country, name and identifier); the other
    cells and the labels are kept; and the columns [country], [name]
    and [identifier] must be there. *)
Theorem resolve_boundaries_cells
    (lookup_admin_ref : scalar G → scalar G → scalar G → string → scalar G)
    boundaries out :
  resolve_boundaries lookup_admin_ref boundaries = Some out →
  index out = index boundaries
  ∧ ["country"; "name"; "identifier"] ⊆ columns boundaries
  ∧ (∀ c, c ∈ columns out ↔
          c ∈ columns boundaries ∨ c = "admin_id" ∨ c = "country_id")
  ∧ rowwise (λ r r',
       r' !! "admin_id"
       = Some (lookup_admin_ref (cell boundaries r "country")
                 (cell boundaries r "name")
                 (cell boundaries r "identifier") "wd_id")
       ∧ r' !! "country_id"
         = Some (lookup_admin_ref (cell boundaries r "country")
                   (cell boundaries r "name")
                   (cell boundaries r "identifier") "country")
       ∧ ∀ c, c ≠ "admin_id" → c ≠ "country_id" → r' !! c = r !! c)
      (rows boundaries) (rows out).
Proof.
  unfold resolve_boundaries. intros Hres.
  destruct (apply_axis1 (admin_lookup lookup_admin_ref "wd_id") boundaries)
    as [s1|] eqn:Hs1; [|done]. simpl in Hres.
  destruct (setitem "admin_id" s1 boundaries) as [b1|] eqn:Hb1; [|done].
  simpl in Hres.
  destruct (apply_axis1 (admin_lookup lookup_admin_ref "country") b1)
    as [s2|] eqn:Hs2; [|done]. simpl in Hres.
  destruct (assign_axis1 _ _ _ _ _ Hs1 Hb1) as (Hne & _ & Hc1 & Hr1).
  destruct (assign_axis1 _ _ _ _ _ Hs2 Hres) as (_ & _ & Hc2 & Hr2).
  assert (∀ x, x ∈ columns b1 ↔ x ∈ columns boundaries ∨ x = "admin_id")
    as Hcols1 by (intros x; by rewrite Hc1, add_column_elem_of).
  pose proof (rowwise_compose _ _ _ _ _ Hr1 Hr2) as Hr.
  split_and!.
  - unfold index. by rewrite (rowwise_index _ _ _ Hr).
  - destruct (rows boundaries) as [|[i r] rs] eqn:Hrows; [done|].
    destruct (rowwise_elem_of _ _ _ i r Hr1) as (r1 & _ & v & Hv & _);
      [apply list_elem_of_here|].
    by apply admin_lookup_Some in Hv as [? _].
  - intros c. rewrite Hc2, add_column_elem_of, Hcols1. tauto.
  - eapply rowwise_impl; [|done].
    intros r r2 (r1 & (v1 & Hv1 & ->) & (v2 & Hv2 & ->)).
    apply admin_lookup_Some in Hv1 as [_ ->].
    apply admin_lookup_Some in Hv2 as [_ ->].
    rewrite !(cell_insert_ne boundaries b1) by done.
    split_and!.
    + rewrite lookup_insert_ne by done. by rewrite lookup_insert_eq.
    + by rewrite lookup_insert_eq.
    + intros c ? ?. by rewrite !lookup_insert_ne.
Qed.

(** X12: the two boundary tables have the same columns: those of the
    four sources, without [geometry], and [admin_id], [country_id] and
    [geom]. *)
Theorem boundary_tables_columns
    (lookup_admin_ref : scalar G → scalar G → scalar G → string → scalar G)
    (ca_states us_states mx_states us_counties boundaries_m boundaries_p
     : DataFrame G) :
  boundary_tables lookup_admin_ref ca_states us_states mx_states us_counties
  = Some (boundaries_m, boundaries_p) →
  columns boundaries_m = columns boundaries_p
  ∧ ∀ c, c ∈ columns boundaries_p ↔
      c ≠ "geometry"
      ∧ ((∃ df, df ∈ [ca_states; us_states; mx_states; us_counties]
                ∧ c ∈ columns df)
         ∨ c = "admin_id" ∨ c = "country_id" ∨ c = "geom").
Proof.
  intros (b & bm & bp & Hres & Hsplit & -> & ->)%boundary_tables_Some.
  rewrite !where_columns.
  destruct (prep_source_for_pg_columns _ _ _ Hsplit) as (Hcm & Hcp).
  split; [by rewrite Hcm, Hcp|].
  intros c. rewrite Hcp, list_elem_of_filter, add_column_elem_of.
  rewrite (resolve_boundaries_columns _ _ _ _ Hres).
  unfold combine_boundaries. rewrite where_columns. cbn [concat columns].
  assert (c ∈ union_columns [ca_states; us_states; mx_states; us_counties]
          ↔ ∃ df, df ∈ [ca_states; us_states; mx_states; us_counties]
                  ∧ c ∈ columns df) as ->.
  { split; [apply union_columns_inv|].
    intros (df & ? & ?). by eapply union_columns_elem_of. }
  rewrite list_elem_of_singleton. tauto.
Qed.

(** X13: when no source of the boundaries has a [wikidata_id] column,
    the SQL of the view, which selects [b.wikidata_id], fails on the
    tables that the boundaries notebook loads. *)
Theorem intersections_view_over_boundary_tables
    (lookup_admin_ref : scalar G → scalar G → scalar G → string → scalar G)
    (ca_states us_states mx_states us_counties boundaries_m boundaries_p
     ecoregions_m ecoregions_p : DataFrame G) :
  boundary_tables lookup_admin_ref ca_states us_states mx_states us_counties
  = Some (boundaries_m, boundaries_p) →
  Forall (λ df, "wikidata_id" ∉ columns df)
         [ca_states; us_states; mx_states; us_counties] →
  intersections_view boundaries_m boundaries_p ecoregions_m ecoregions_p
  = None.
Proof.
  intros (b & bm & bp & Hres & Hsplit & -> & ->)%boundary_tables_Some Hno.
  rewrite Forall_forall in Hno.
  assert ("wikidata_id" ∉ columns (where_notnull_none bm)) as Hm.
  { rewrite where_columns.
    rewrite (proj1 (prep_source_for_pg_columns _ _ _ Hsplit)).
    rewrite list_elem_of_filter, add_column_elem_of.
    rewrite (resolve_boundaries_columns _ _ _ _ Hres).
    unfold combine_boundaries. rewrite where_columns. cbn [concat columns].
    intros (_ & [[(df & ? & ?)%union_columns_inv|[?|?]]|?]); try done.
    by apply (Hno df). }
  unfold intersections_view, select_intersecting.
  destruct (decide (_ ⊆ columns (where_notnull_none bm)
                    ∧ _ ⊆ columns ecoregions_m)) as [[Hsub _]|?]; [|done].
  exfalso. apply Hm, Hsub. compute_done.
Qed.
End Boundaries.

(** ** When the geometry partition is defined *)

Section PartitionDefined.
Context {G : Type} `{Geometric G}.
Implicit Types (df : DataFrame G) (r : gmap string (scalar G)).

Lemma add_geom_is_Some df :
  is_Some (add_geom df)
  ↔ "geometry" ∈ columns df
    ∧ ∀ i r, (i, r) ∈ rows df → ∃ g, cell df r "geometry" = Geom g.
Proof.
  unfold add_geom, apply_column. split.
  - intros [df' Hadd]. case_decide as Hc; [|done]. split; [done|].
    destruct (mapM _ (rows df)) as [s|] eqn:Hs; [|done].
    apply mapM_Some in Hs. intros i r [j Hj]%list_elem_of_lookup.
    destruct (Forall2_lookup_l _ _ _ _ _ Hs Hj) as (iv & _ & Hf).
    simpl in Hf. destruct (cell df r "geometry"); simplify_eq/=. eauto.
  - intros [Hc Hall]. rewrite decide_True by done.
    destruct (mapM (λ ir : label * gmap string (scalar G),
                      v ← to_wkt_element (cell df ir.2 "geometry");
                      Some (ir.1, v)) (rows df)) as [s|] eqn:Hs.
    + simpl.
      apply (series_spec (λ r, to_wkt_element (cell df r "geometry")))
        in Hs as [Hidx _].
      unfold setitem. rewrite decide_True by done. by eexists.
    + exfalso. apply mapM_None in Hs.
      apply list.Exists_exists in Hs as ([i r] & Hin & Hnone).
      destruct (Hall i r Hin) as [g Hg]. simpl in Hnone.
      by rewrite Hg in Hnone.
Qed.

Lemma drop_geometry_is_Some df df1 :
  add_geom df = Some df1 → is_Some (drop_columns ["geometry"] df1).
Proof.
  intros Hadd. unfold drop_columns. rewrite decide_True; [by eexists|].
  rewrite (add_geom_columns _ _ Hadd).
  assert ("geometry" ∈ columns df) as Hc.
  { by apply (proj1 (add_geom_is_Some df)); eexists. }
  intros c ->%list_elem_of_singleton. apply add_columns_elem_of. by left.
Qed.

(** X14: on a frame with unique row labels, [prep_source_for_pg]
    returns exactly when the frame has a [geometry] column and every
    row has a geometry. *)
Theorem prep_source_for_pg_defined df :
  NoDup (index df) →
  is_Some (prep_source_for_pg df)
  ↔ "geometry" ∈ columns df
    ∧ ∀ i r, (i, r) ∈ rows df → ∃ g, cell df r "geometry" = Geom g.
Proof.
  intros Hnd. unfold prep_source_for_pg, split_geometry.
  set (m0 := drop_labels (index (loc (λ r, bool_decide
                (row_geom_type df r = Str "Polygon")) df)) df).
  set (p0 := drop_labels (index (loc (λ r, bool_decide
                (row_geom_type df r = Str "MultiPolygon")) df)) df).
  assert (∀ i r, (i, r) ∈ rows m0 → (i, r) ∈ rows df) as Hm0.
  { intros i r. unfold m0, drop_labels. simpl.
    by intros [_ ?]%list_elem_of_filter. }
  assert (∀ i r, (i, r) ∈ rows p0 → (i, r) ∈ rows df) as Hp0.
  { intros i r. unfold p0, drop_labels. simpl.
    by intros [_ ?]%list_elem_of_filter. }
  split.
  - intros [[dm dp] Hprep].
    destruct (add_geom m0) as [m1|] eqn:Hm1; [|done]. simpl in Hprep.
    destruct (proj1 (add_geom_is_Some m0)) as [Hc Hall]; [by eexists|].
    split; [done|]. intros i r Hin.
    destruct (decide ((i, r) ∈ rows m0)) as [Hin0|Hout].
    + exact (Hall i r Hin0).
    + unfold m0, drop_labels in Hout. simpl in Hout.
      rewrite list_elem_of_filter in Hout.
      destruct (decide (i ∈ index (loc (λ r, bool_decide
                (row_geom_type df r = Str "Polygon")) df))) as [Hlab|Hlab];
        [|by destruct Hout].
      unfold index, loc in Hlab. simpl in Hlab.
      apply list_elem_of_fmap in Hlab
        as ([i' r'] & -> & [Ht Hin']%list_elem_of_filter). simpl in *.
      assert (r' = r) as -> by by eapply index_functional.
      apply bool_decide_eq_true in Ht. unfold row_geom_type in Ht.
      destruct (cell df r "geometry"); simplify_eq/=. eauto.
  - intros [Hc Hall].
    destruct (proj2 (add_geom_is_Some m0)) as [m1 Hm1]; [by split; eauto|].
    destruct (proj2 (add_geom_is_Some p0)) as [p1 Hp1]; [by split; eauto|].
    destruct (drop_geometry_is_Some _ _ Hm1) as [m2 Hm2].
    destruct (drop_geometry_is_Some _ _ Hp1) as [p2 Hp2].
    rewrite Hm1, Hp1. simpl. rewrite Hm2, Hp2. simpl. by eexists.
Qed.
End PartitionDefined.

(** ** Dissolve, group by group *)

Section DissolveGroups.
Context {G : Type} `{Geometric G}.
Implicit Types (df out : DataFrame G) (r : gmap string (scalar G)).

Lemma group_key_text key df ir ok k :
  key ∈ columns df → group_key key df ir = Some ok →
  ok = Some k ↔ cell df ir.2 key = Str k.
Proof.
  intros Hkey. unfold group_key. rewrite decide_True by done.
  destruct (cell df ir.2 key); intros; simplify_eq/=; naive_solver.
Qed.

Lemma keyed_groups key df k
    (rs : list (label * gmap string (scalar G))) ks :
  key ∈ columns df →
  Forall2 (λ ir ok, group_key key df ir = Some ok) rs ks →
  (filter (λ kr : option string * gmap string (scalar G), kr.1 = Some k)
          (zip ks rs.*2)).*2
  = (filter (λ ir : label * gmap string (scalar G),
               cell df ir.2 key = Str k) rs).*2.
Proof.
  intros Hkey. induction 1 as [|ir ok rs ks Hg _ IH]; [done|].
  rewrite fmap_cons. cbn [zip zip_with]. rewrite !filter_cons.
  pose proof (group_key_text key df ir ok k Hkey Hg) as Hiff.
  destruct (decide ((ok, ir.2).1 = Some k)) as [Hk|Hk];
    destruct (decide (cell df ir.2 key = Str k)) as [Hc|Hc]; simpl in Hk.
  - rewrite !fmap_cons. by rewrite IH.
  - by apply Hiff in Hk.
  - by apply Hiff in Hc.
  - done.
Qed.

Lemma keyed_texts key df k
    (rs : list (label * gmap string (scalar G))) ks :
  key ∈ columns df →
  Forall2 (λ ir ok, group_key key df ir = Some ok) rs ks →
  Some k ∈ ks ↔ ∃ ir, ir ∈ rs ∧ cell df ir.2 key = Str k.
Proof.
  intros Hkey. induction 1 as [|ir ok rs ks Hg _ IH].
  - split; [by intros ?%elem_of_nil|]. by intros (? & ?%elem_of_nil & _).
  - pose proof (group_key_text key df ir ok k Hkey Hg) as Hiff.
    rewrite elem_of_cons, IH. split.
    + intros [Hk|(ir' & ? & ?)].
      * exists ir. split; [apply list_elem_of_here|]. by apply Hiff.
      * exists ir'. split; [by apply list_elem_of_further|done].
    + intros (ir' & [->|?]%elem_of_cons & Hc).
      * left. symmetry. by apply Hiff.
      * right. by exists ir'.
Qed.

Lemma first_notnull_present (vs : list (scalar G)) :
  first_present vs (first_notnull vs).
Proof.
  unfold first_present, first_notnull.
  by destruct (filter _ vs).
Qed.

(** X15: the dissolve by a column of text keys of a frame whose rows
    all have a geometry: the result is labelled by the keys that occur,
    each once, in increasing order; it has the geometry first and then
    the other columns; and the row of a key holds the union of the
    geometries of the rows of that key, in their order, and under every
    other column the first value of those rows that is not missing, or
    a missing value when they have none. *)
Theorem dissolve_groups key df out :
  key ∈ columns df →
  Forall (λ ir : label * gmap string (scalar G),
            is_Some (geometry_of (cell df ir.2 "geometry"))) (rows df) →
  dissolve key df = Some out →
  ∃ keys,
    index out = Key <$> keys
    ∧ Sorted String.le keys ∧ NoDup keys
    ∧ (∀ k, k ∈ keys ↔ group key k df ≠ [])
    ∧ columns out
      = "geometry" :: filter (λ c, c ≠ "geometry" ∧ c ≠ key) (columns df)
    ∧ ∀ k r', (Key k, r') ∈ rows out →
        ∃ gs,
          mapM (λ r, geometry_of (cell df r "geometry")) (group key k df)
          = Some gs
          ∧ r' !! "geometry" = Some (Geom (unary_union gs))
          ∧ ∀ c, c ∈ columns df → c ≠ "geometry" → c ≠ key →
              ∃ v, r' !! c = Some v
                   ∧ first_present ((λ r, cell df r c) <$> group key k df) v.
Proof.
  intros Hkey _ (ks & _ & Hks & Hagg & _ & Hcols & Hidx)%dissolve_Some.
  cbv zeta in Hagg, Hidx.
  set (keys := merge_sort String.le (unique (omap id ks))) in *.
  apply mapM_Some in Hks, Hagg.
  exists keys. split_and!; [done| | | |done|].
  - apply Sorted_merge_sort, _.
  - apply keys_NoDup.
  - intros k. unfold keys.
    rewrite merge_sort_Permutation, elem_of_unique, list_elem_of_omap.
    unfold group. split.
    + intros (ok & Hin & Hid). simpl in Hid. subst ok.
      apply (keyed_texts key df k _ _ Hkey Hks) in Hin as (ir & Hin & Hc).
      intros Hnil. apply fmap_nil_inv in Hnil.
      assert (ir ∈ filter (λ ir : label * gmap string (scalar G),
                cell df ir.2 key = Str k) (rows df)) as Hf
        by (by apply list_elem_of_filter).
      rewrite Hnil in Hf. by apply elem_of_nil in Hf.
    + intros Hne. exists (Some k). split; [|done].
      apply (keyed_texts key df k _ _ Hkey Hks).
      destruct (filter _ (rows df)) as [|ir l] eqn:Hf; [done|].
      assert (ir ∈ filter (λ ir : label * gmap string (scalar G),
                cell df ir.2 key = Str k) (rows df)) as Hin
        by (rewrite Hf; apply list_elem_of_here).
      apply list_elem_of_filter in Hin as [? ?]. by exists ir.
  - intros k r' [j Hj]%list_elem_of_lookup.
    destruct (Forall2_lookup_r _ _ _ _ _ Hagg Hj) as (k' & _ & Ha).
    pose proof (aggregate_label _ _ _ _ _ Ha) as Hl. simpl in Hl.
    injection Hl as <-.
    unfold aggregate in Ha.
    rewrite (keyed_groups key df k _ _ Hkey Hks) in Ha.
    fold (group key k df) in Ha.
    destruct (mapM _ (group key k df)) as [gs|] eqn:Hgs; [|done].
    simpl in Ha. injection Ha as <-.
    exists gs. split_and!; [done|by rewrite lookup_insert_eq|].
    intros c Hc Hg Hk. eexists. split; [|apply first_notnull_present].
    rewrite lookup_insert_ne by done.
    rewrite lookup_tabulated, decide_True; [done|].
    by apply list_elem_of_filter.
Qed.
End DissolveGroups.

(** ** The prepared frame, row by row *)

Section Prepared.
Context {G : Type} `{Geometric G}.
Implicit Types (df d : DataFrame G) (r : gmap string (scalar G)).

Lemma add_point_and_title_rows (title : string → string) d d' :
  add_point_and_title title d = Some d' →
  index_name d' = index_name d
  ∧ "geometry" ∈ columns d ∧ "common_name" ∈ columns d
  ∧ (∀ c, c ∈ columns d' ↔ c ∈ columns d ∨ c = "x" ∨ c = "y")
  ∧ rowwise (λ r r', ∃ g,
       cell d r "geometry" = Geom g
       ∧ r' = <["common_name" :=
                  match cell d r "common_name" with
                  | Str s => Str (title s)
                  | _ => NaN
                  end]>
                (<["y" := Num (centroid g).2]>
                   (<["x" := Num (centroid g).1]> r)))
      (rows d) (rows d').
Proof.
  unfold add_point_and_title. intros Hadd.
  destruct (apply_column "geometry" centroid_x d) as [s1|] eqn:Hs1;
    [|done]. simpl in Hadd.
  destruct (setitem "x" s1 d) as [d1|] eqn:Hd1; [|done]. simpl in Hadd.
  destruct (apply_column "geometry" centroid_y d1) as [s2|] eqn:Hs2;
    [|done]. simpl in Hadd.
  destruct (setitem "y" s2 d1) as [d2|] eqn:Hd2; [|done]. simpl in Hadd.
  destruct (apply_column "common_name" (str_title title) d2)
    as [s3|] eqn:Hs3; [|done]. simpl in Hadd.
  destruct (assign_column _ _ _ _ _ _ Hs1 Hd1) as (Hg & Hn1 & Hc1 & Hr1).
  destruct (assign_column _ _ _ _ _ _ Hs2 Hd2) as (_ & Hn2 & Hc2 & Hr2).
  destruct (assign_column _ _ _ _ _ _ Hs3 Hadd) as (Hcn & Hn3 & Hc3 & Hr3).
  assert (∀ x, x ∈ columns d1 ↔ x ∈ columns d ∨ x = "x") as Hcols1
    by (intros x; by rewrite Hc1, add_column_elem_of).
  assert (∀ x, x ∈ columns d2 ↔ x ∈ columns d1 ∨ x = "y") as Hcols2
    by (intros x; by rewrite Hc2, add_column_elem_of).
  assert ("common_name" ∈ columns d) as Hcn0.
  { apply Hcols2 in Hcn as [Hcn|?]; [|done].
    apply Hcols1 in Hcn as [?|?]; done. }
  split_and!; [congruence|done|done| |].
  - intros c. rewrite Hc3, add_column_elem_of, Hcols2, Hcols1.
    split; [|tauto]. intros [[[?|?]|?]| ->]; auto.
  - eapply rowwise_impl;
      [|exact (rowwise_compose _ _ _ _ _
                 (rowwise_compose _ _ _ _ _ Hr1 Hr2) Hr3)].
    intros r r3 (r2 & (r1 & (v1 & Hv1 & ->) & (v2 & Hv2 & ->))
                 & (v3 & Hv3 & ->)).
    rewrite (cell_insert_ne d d1) in Hv2 by done.
    rewrite (cell_insert_ne d1 d2), (cell_insert_ne d d1) in Hv3 by done.
    unfold centroid_x in Hv1. unfold centroid_y in Hv2.
    destruct (cell d r "geometry") as [| | | |g|]; simplify_eq/=.
    exists g. split; [done|]. unfold str_title in Hv3. by simplify_eq.
Qed.

Lemma prepare_wikidata_info_spec (title : string → string)
    (lookup_wd : scalar G → scalar G) df out calls :
  prepare_wikidata_info title lookup_wd df = Some (out, calls) →
  ¬ (index_column df ∈ columns df)
  ∧ (∀ c, c ∈ columns out ↔
          c = index_column df ∨ c ∈ columns df
          ∨ c = "x" ∨ c = "y" ∨ c = "wikidata_id")
  ∧ length (rows out) = length (rows df)
  ∧ (∀ j i r, rows df !! j = Some (i, r) →
       ∃ g, reset_cell df i r "geometry" = Geom g
            ∧ rows out !! j
              = Some (Pos j, prepared_row title lookup_wd df i r g))
  ∧ NoDup calls.*1
  ∧ ∀ l v, (l, v) ∈ calls ↔
      ∃ j i r, rows df !! j = Some (i, r)
        ∧ isin (reset_cell df i r "source") us_levels = true
        ∧ l = Pos j
        ∧ v = reset_cell df i r "contextual_identifier".
Proof.
  unfold prepare_wikidata_info. intros Hprep.
  destruct (reset_index df) as [d1|] eqn:Hd1; [|done]. simpl in Hprep.
  destruct (add_point_and_title title d1) as [d2|] eqn:Hd2; [|done].
  simpl in Hprep.
  case_decide as Hsrc; [|done].
  set (selected := loc (λ r, isin (cell d2 r "source") us_levels) d2)
    in Hprep.
  destruct (apply_axis1 _ selected) as [s|] eqn:Hs; [|done].
  simpl in Hprep.
  destruct (setitem "wikidata_id" s d2) as [d3|] eqn:Hd3; [|done].
  simpl in Hprep. injection Hprep as <- <-.
  destruct (reset_index_rows _ _ Hd1) as (Hkey & Hn1 & Hc1 & Hr1).
  destruct (add_point_and_title_rows _ _ _ Hd2)
    as (Hn2 & Hgeo & Hcn & Hc2 & Hr2).
  assert (NoDup (index d1)) as Hnd1.
  { unfold index. rewrite Hr1. apply range_index_NoDup. }
  assert (index d2 = index d1) as Hidx2
    by (unfold index; by rewrite (rowwise_index _ _ _ Hr2)).
  assert (NoDup (index d2)) as Hnd2 by (by rewrite Hidx2).
  destruct (setitem_by_label _ _ _ _ Hnd2 Hd3) as (_ & Hc3 & Hr3).
  apply apply_axis1_series in Hs as [_ Hs].
  pose proof (series_spec
           (λ r, ci ← getitem selected r "contextual_identifier";
                 Some (lookup_wd ci)) _ _ Hs) as [Hsidx _].
  assert (NoDup s.*1) as Hnds.
  { rewrite Hsidx. unfold selected, loc. simpl.
    by apply index_filter_NoDup. }
  (* row by row *)
  assert (∀ j i r, rows df !! j = Some (i, r) →
    ∃ g, reset_cell df i r "geometry" = Geom g
      ∧ rows d2 !! j = Some (Pos j, pointed_row title df i r g)
      ∧ cell d2 (pointed_row title df i r g)
             "source" = reset_cell df i r "source"
      ∧ ("contextual_identifier" ∈ columns d2 →
         cell d2 (pointed_row title df i r g)
             "contextual_identifier"
         = reset_cell df i r "contextual_identifier")) as Hrow2.
  { intros j i r Hj.
    assert (rows d1 !! j
            = Some (Pos j, <[index_column df := label_value i]> r)) as Hj1.
    { rewrite Hr1. apply range_index_lookup. split; [done|].
      by rewrite list_lookup_fmap, Hj. }
    destruct (Forall2_lookup_l _ _ _ _ _ Hr2 Hj1)
      as ([i2 r2] & Hj2 & Hi2 & g & Hg & Hr2'). simpl in *. subst i2 r2.
    rewrite !(reset_cell_spec df d1) in * by done.
    exists g. unfold pointed_row. split_and!; [done|done| |].
    - unfold cell at 1. rewrite decide_True by done.
      rewrite !lookup_insert_ne by done.
      rewrite <-(reset_cell_spec df d1 i r "source") by done.
      unfold cell. rewrite decide_True; [done|].
      apply Hc2 in Hsrc as [?|[?|?]]; done.
    - intros Hci. unfold cell at 1. rewrite decide_True by done.
      rewrite !lookup_insert_ne by done.
      rewrite <-(reset_cell_spec df d1 i r "contextual_identifier") by done.
      unfold cell. rewrite decide_True; [done|].
      apply Hc2 in Hci as [?|[?|?]]; done. }
  assert (∀ i2 r2, (i2, r2) ∈ rows selected →
            "contextual_identifier" ∈ columns d2
            ∧ series_loc s i2
              = Some (lookup_wd (cell d2 r2 "contextual_identifier")))
    as Hsel.
  { intros i2 r2 Hin.
    destruct (series_elem
                (λ r, ci ← getitem selected r "contextual_identifier";
                      Some (lookup_wd ci)) _ _ i2 r2 Hs Hin)
      as (v & Hv & Hin').
    unfold getitem in Hv. case_decide as Hci; [|done].
    simpl in Hv. injection Hv as <-. split; [done|].
    by apply series_loc_elem. }
  split_and!.
  - done.
  - intros c. rewrite where_columns, Hc3, add_column_elem_of, Hc2, Hc1.
    rewrite elem_of_cons. tauto.
  - rewrite where_rows, length_fmap, Hr3, length_fmap.
    rewrite <-(length_fmap fst (rows d2)). fold (index d2).
    rewrite Hidx2. unfold index. rewrite Hr1, range_index_fst.
    by rewrite length_fmap, length_seq, length_fmap.
  - intros j i r Hj.
    destruct (Hrow2 j i r Hj) as (g & Hg & Hj2 & Hsrc2 & Hci2).
    exists g. split; [done|].
    rewrite where_rows, list_lookup_fmap, Hr3, list_lookup_fmap, Hj2.
    simpl. do 2 f_equal. unfold prepared_row. do 2 f_equal.
    destruct (isin (reset_cell df i r "source") us_levels) eqn:Hus.
    + destruct (Hsel (Pos j) (pointed_row title df i r g)) as [Hci ->].
      { unfold selected, loc. simpl. apply list_elem_of_filter.
        split; [simpl; by rewrite Hsrc2|]. by eapply list_elem_of_lookup_2. }
      simpl. by rewrite Hci2.
    + rewrite series_loc_not_in; [done|]. rewrite Hsidx.
      unfold index, selected, loc. simpl.
      intros ([i' r'] & Heq & [Hm Hin']%list_elem_of_filter)%list_elem_of_fmap.
      simpl in *. subst i'.
      assert (r' = pointed_row title df i r g) as ->.
      { eapply index_functional; [exact Hnd2|done|].
        by eapply list_elem_of_lookup_2. }
      rewrite Hsrc2, Hus in Hm. done.
  - rewrite (fmap_fst_relabel
               (λ ir, cell selected ir.2 "contextual_identifier")).
    by apply index_filter_NoDup.
  - intros l v. rewrite list_elem_of_fmap. split.
    + intros ([i2 r2] & [= -> ->] & Hin). simpl.
      pose proof Hin as Hin0.
      unfold selected, loc in Hin. simpl in Hin.
      apply list_elem_of_filter in Hin as [Hm Hin]. simpl in Hm.
      apply list_elem_of_lookup in Hin as [j Hj2].
      assert (is_Some (rows df !! j)) as [[i r] Hj].
      { apply lookup_lt_is_Some.
        apply lookup_lt_Some in Hj2.
        rewrite <-(length_fmap fst (rows d2)) in Hj2. fold (index d2) in Hj2.
        rewrite Hidx2 in Hj2. unfold index in Hj2.
        rewrite Hr1, range_index_fst in Hj2.
        by rewrite length_fmap, length_seq, length_fmap in Hj2. }
      destruct (Hrow2 j i r Hj) as (g & Hg & Hj2' & Hsrc2 & Hci2).
      rewrite Hj2' in Hj2. injection Hj2 as <- <-.
      exists j, i, r. split_and!; [done| |done|].
      * by rewrite <-Hsrc2.
      * destruct (Hsel _ _ Hin0) as [Hci _].
        rewrite <-Hci2 by done. done.
    + intros (j & i & r & Hj & Hus & -> & ->).
      destruct (Hrow2 j i r Hj) as (g & Hg & Hj2 & Hsrc2 & Hci2).
      assert ((Pos j, pointed_row title df i r g) ∈ rows selected) as Hin.
      { unfold selected, loc. simpl. apply list_elem_of_filter.
        split; [|by eapply list_elem_of_lookup_2]. simpl.
        by rewrite Hsrc2. }
      exists (Pos j, pointed_row title df i r g). split; [|done].
      simpl. f_equal.
      destruct (Hsel _ _ Hin) as [Hci _].
      symmetry. by apply Hci2.
Qed.

(** X16: [prepare_wikidata_info] row by row: the frame is renumbered
    and has the old label in a column, the two coordinates of the
    centroid, the name in title case, and under [wikidata_id] the
    result of the lookup on the contextual identifier for the two US
    levels; a value that is not missing is kept and a missing one stays
    missing; and a lookup is made once for each record of the two US
    levels, on its contextual identifier, and for no other. *)
Theorem prepare_wikidata_info_rows (title : string → string)
    (lookup_wd : scalar G → scalar G) df out calls :
  prepare_wikidata_info title lookup_wd df = Some (out, calls) →
  ¬ (index_column df ∈ columns df)
  ∧ (∀ c, c ∈ columns out ↔
          c = index_column df ∨ c ∈ columns df
          ∨ c = "x" ∨ c = "y" ∨ c = "wikidata_id")
  ∧ length (rows out) = length (rows df)
  ∧ (∀ j i r, rows df !! j = Some (i, r) →
       ∃ g r', reset_cell df i r "geometry" = Geom g
            ∧ rows out !! j = Some (Pos j, r')
            ∧ ∀ c, option_Forall2 kept_or_missing
                     (looked_up_row title lookup_wd df i r g !! c)
                     (r' !! c))
  ∧ NoDup calls.*1
  ∧ ∀ l v, (l, v) ∈ calls ↔
      ∃ j i r, rows df !! j = Some (i, r)
        ∧ isin (reset_cell df i r "source") us_levels = true
        ∧ l = Pos j
        ∧ v = reset_cell df i r "contextual_identifier".
Proof.
  intros (Hidx & Hcols & Hlen & Hrows & Hnd & Hcalls)
           %prepare_wikidata_info_spec.
  split_and!; [done..| |done|done].
  intros j i r Hj. destruct (Hrows j i r Hj) as (g & Hg & Hout).
  exists g, (prepared_row title lookup_wd df i r g).
  split_and!; [done..|].
  intros c. unfold prepared_row. fold (looked_up_row title lookup_wd df i r g).
  rewrite lookup_fmap.
  destruct (looked_up_row title lookup_wd df i r g !! c) as [v|];
    constructor.
  unfold kept_or_missing, where_notnull_none_cell.
  by destruct (notnull v).
Qed.
End Prepared.

(** ** One assembled record per region *)

Section OneRecord.
Context {G : Type} `{Geometric G}.
Implicit Types (df d x e : DataFrame G) (r t : gmap string (scalar G)).

Lemma stored_row_other (g : G) r c :
  c ≠ "geometry" → c ≠ "geom" → stored_row g r !! c = r !! c.
Proof.
  intros Hc1 Hc2. unfold stored_row.
  rewrite map_lookup_filter. rewrite lookup_insert_ne by done.
  destruct (r !! c) as [v|] eqn:Hv; simpl; [|done].
  rewrite option_guard_True; [done|]. simpl.
  by intros ->%list_elem_of_singleton.
Qed.

Lemma to_sql_rows x e :
  to_sql true x = Some e →
  columns e = index_column x :: columns x
  ∧ ∀ t, t ∈ (rows e).*2 ↔
         ∃ i t0, (i, t0) ∈ rows x
           ∧ t = where_notnull_none_cell
                 <$> <[index_column x := label_value i]> t0.
Proof.
  unfold to_sql. destruct (reset_index x) as [d|] eqn:Hd; [|done].
  simpl. intros [= <-].
  destruct (reset_index_rows _ _ Hd) as (_ & _ & Hc & Hr).
  rewrite where_columns, where_rows. split; [done|].
  intros t. rewrite <-list_fmap_compose, list_elem_of_fmap. split.
  - intros ([j t'] & -> & Hin). simpl. rewrite Hr in Hin.
    apply range_index_elem_of in Hin.
    apply list_elem_of_fmap in Hin as ([i t0] & -> & Hin).
    by exists i, t0.
  - intros (i & t0 & Hin & ->).
    destruct (elem_of_range_index
                ((λ ir : label * gmap string (scalar G),
                    <[index_column x := label_value ir.1]> ir.2)
                 <$> rows x) (<[index_column x := label_value i]> t0))
      as [j Hj].
    { apply list_elem_of_fmap. by exists (i, t0). }
    exists (j, <[index_column x := label_value i]> t0).
    split; [done|]. by rewrite Hr.
Qed.

Lemma stored_cell (prepared e : DataFrame G) idx lv (g : G) r0 c :
  (∀ c v, r0 !! c = Some v → where_notnull_none_cell v = v) →
  c ∈ columns prepared → c ∈ columns e →
  c ≠ idx → c ≠ "geometry" → c ≠ "geom" →
  cell e (where_notnull_none_cell <$> <[idx := lv]> (stored_row g r0)) c
  = cell prepared r0 c.
Proof.
  intros Hfix Hcp Hce ???. unfold cell. rewrite !decide_True by done.
  rewrite lookup_fmap, lookup_insert_ne by done.
  rewrite stored_row_other by done.
  destruct (r0 !! c) as [v|] eqn:Hv; simpl; [|done]. by eapply Hfix.
Qed.

Lemma recombine_ecoregions_identifiers
    (ecoregions_m ecoregions_p df_intersections : DataFrame G) final :
  recombine_ecoregions ecoregions_m ecoregions_p df_intersections
  = Some final →
  q_ecoregions ⊆ columns ecoregions_m
  ∧ q_ecoregions ⊆ columns ecoregions_p
  ∧ (λ io : label * gmap string (pyobj G),
       io.2 !! "contextual_identifier") <$> orows final
    = (λ t : gmap string (scalar G),
         Scalar <$> t !! "contextual_identifier")
      <$> remove_dups (reindexed q_ecoregions ecoregions_m
                       ++ reindexed q_ecoregions ecoregions_p).
Proof.
  unfold recombine_ecoregions, read_sql_union, select. intros Hrec.
  destruct (decide (q_ecoregions ⊆ columns ecoregions_m)) as [Hm|];
    [|done].
  destruct (decide (q_ecoregions ⊆ columns ecoregions_p)) as [Hp|];
    [|done].
  cbn [mbind option_bind] in Hrec.
  set (L := remove_dups (reindexed q_ecoregions ecoregions_m
                         ++ reindexed q_ecoregions ecoregions_p)) in *.
  set (df := {| index_name := None; columns := q_ecoregions;
                rows := range_index L |}) in *.
  destruct (mapM _ (rows df)) as [records|] eqn:Hrecs; [|done].
  simpl in Hrec. injection Hrec as <-. cbn [orows].
  split_and!; [done..|].
  apply mapM_Some in Hrecs. cbn [rows df] in Hrecs.
  rewrite <-(range_index_snd L) at 1.
  rewrite <-list_fmap_compose.
  apply list_eq_Forall2, Forall2_fmap, Forall2_flip.
  eapply Forall2_impl; [exact Hrecs|].
  intros [i r] [i' o] Hstep. simpl in *.
  destruct (parse_part_of _) as [part_of|]; [|done]. simpl in Hstep.
  destruct (boundary_intersects_list _ _ "admin_id") as [admin|];
    [|done]. simpl in Hstep.
  destruct (boundary_intersects_list _ _ "country_id") as [country|];
    [|done]. simpl in Hstep. injection Hstep as <- <-.
  rewrite !lookup_insert_ne by done. by rewrite lookup_fmap.
Qed.

Lemma label_value_inj (i j : label) :
  label_value (G:=G) i = label_value j → i = j.
Proof.
  destruct i as [n|k], j as [m|k']; simpl; intros Heq; try done.
  - injection Heq as Heq. f_equal. by apply Nat2Z.inj.
  - by injection Heq as ->.
Qed.

Lemma reindex_row_ext (d1 d2 : DataFrame G) cols r1 r2 :
  (∀ c, c ∈ cols → cell d1 r1 c = cell d2 r2 c) →
  reindex_row d1 cols r1 = reindex_row d2 cols r2.
Proof.
  intros Hext. unfold reindex_row. f_equal.
  apply Forall_fmap_ext, Forall_forall. intros c Hc. by rewrite Hext.
Qed.

Lemma q_not_index c (x : DataFrame G) :
  index_name x = None → c ∈ q_ecoregions →
  c ≠ index_column x ∧ c ≠ "geometry" ∧ c ≠ "geom".
Proof.
  intros Hn Hc. unfold index_column. rewrite Hn.
  unfold q_ecoregions in Hc.
  repeat (apply elem_of_cons in Hc as [->|Hc]);
    [..|by apply elem_of_nil in Hc]; case_decide; done.
Qed.

Lemma prepared_row_cells (title : string → string)
    (lookup_wd : scalar G → scalar G) df prepared i r g :
  index_name df = Some "contextual_identifier" →
  "contextual_identifier" ∈ columns prepared →
  "geometry" ∈ columns prepared →
  reset_cell df i r "geometry" = Geom g →
  cell prepared (prepared_row title lookup_wd df i r g)
       "contextual_identifier" = label_value i
  ∧ cell prepared (prepared_row title lookup_wd df i r g) "geometry"
    = Geom g
  ∧ ∀ c v, prepared_row title lookup_wd df i r g !! c = Some v →
           where_notnull_none_cell v = v.
Proof.
  intros Hn Hci Hgeo Hg.
  assert (index_column df = "contextual_identifier") as Hkey
    by (unfold index_column; by rewrite Hn).
  unfold prepared_row, pointed_row. rewrite Hkey. split_and!.
  - unfold cell. rewrite decide_True by done.
    rewrite lookup_fmap, !lookup_insert_ne by done.
    rewrite lookup_insert_eq. simpl. by destruct i.
  - unfold cell. rewrite decide_True by done.
    rewrite lookup_fmap, !lookup_insert_ne by done.
    unfold reset_cell in Hg. rewrite Hkey in Hg.
    rewrite decide_False in Hg by done. unfold cell in Hg.
    case_decide; [|done].
    destruct (r !! "geometry") as [v|]; simplify_eq/=. done.
  - intros c v. rewrite lookup_fmap.
    destruct (_ !! c) as [v0|]; [|done]. simpl. intros [= <-].
    by destruct v0.
Qed.

(** X17: for regions labelled by distinct contextual identifiers (as
    [combine_geometries] leaves them), the suite ends with exactly one
    record per region: the contextual identifiers of the assembled
    records are those of the regions, each once, in some order. *)
Theorem assemble_one_record_per_region (title : string → string)
    (lookup_wd : scalar G → scalar G)
    (ecoregions df_intersections : DataFrame G) final calls :
  index_name ecoregions = Some "contextual_identifier" →
  NoDup (index ecoregions) →
  assemble title lookup_wd ecoregions df_intersections
  = Some (final, calls) →
  (λ io : label * gmap string (pyobj G),
     io.2 !! "contextual_identifier") <$> orows final
  ≡ₚ (λ i, Some (Scalar (label_value i))) <$> index ecoregions.
Proof.
  intros Hname Hnd. unfold assemble. intros Hasm.
  destruct (prepare_wikidata_info title lookup_wd ecoregions)
    as [[prepared calls0]|] eqn:Hprep; [|done]. simpl in Hasm.
  destruct (prep_source_for_pg prepared) as [[dm dp]|] eqn:Hsplit; [|done].
  simpl in Hasm. unfold load_to_pg in Hasm.
  destruct (to_sql true dp) as [ep|] eqn:Hep; [|done]. simpl in Hasm.
  destruct (to_sql true dm) as [em|] eqn:Hem; [|done]. simpl in Hasm.
  destruct (recombine_ecoregions em ep df_intersections)
    as [final'|] eqn:Hrec; [|done]. simpl in Hasm.
  injection Hasm as -> ->.
  destruct (prepare_wikidata_info_spec _ _ _ _ _ Hprep)
    as (_ & Hcols & Hlen & Hrows & _).
  destruct (prepare_wikidata_info_frame _ _ _ _ _ Hprep) as (Hnp & _ & _).
  assert (index_column ecoregions = "contextual_identifier") as Hkey
    by (unfold index_column; by rewrite Hname).
  assert ("contextual_identifier" ∈ columns prepared) as Hci
    by (apply Hcols; left; by rewrite Hkey).
  (* the rows of the prepared frame *)
  assert (∀ i0 r0, (i0, r0) ∈ rows prepared →
    ∃ j i r g, rows ecoregions !! j = Some (i, r)
      ∧ rows prepared !! j = Some (i0, r0)
      ∧ cell prepared r0 "contextual_identifier" = label_value i
      ∧ cell prepared r0 "geometry" = Geom g
      ∧ ∀ c v, r0 !! c = Some v → where_notnull_none_cell v = v) as Hfrom.
  { intros i0 r0 [j Hj]%list_elem_of_lookup.
    assert (is_Some (rows ecoregions !! j)) as [[i r] Hj0].
    { apply lookup_lt_is_Some. rewrite <-Hlen. by eapply lookup_lt_Some. }
    destruct (Hrows j i r Hj0) as (g & Hg & Hj').
    rewrite Hj in Hj'. injection Hj' as -> ->.
    assert ("geometry" ∈ columns prepared) as Hgeo.
    { apply Hcols. right. left. unfold reset_cell in Hg.
      rewrite Hkey, decide_False in Hg by done.
      destruct (decide ("geometry" ∈ columns ecoregions)); [done|].
      by rewrite cell_absent in Hg. }
    destruct (prepared_row_cells title lookup_wd ecoregions prepared i r g
                Hname Hci Hgeo Hg) as (? & ? & ?).
    by exists j, i, r, g. }
  assert (NoDup (index prepared)) as Hndp.
  { apply NoDup_alt. intros j1 j2 l H1 H2. unfold index in H1, H2.
    rewrite list_lookup_fmap in H1, H2.
    destruct (rows prepared !! j1) as [[i1 r1]|] eqn:Hj1; [|done].
    destruct (rows prepared !! j2) as [[i2 r2]|] eqn:Hj2; [|done].
    simpl in H1, H2. simplify_eq.
    assert (is_Some (rows ecoregions !! j1)) as [[ia ra] Ha].
    { apply lookup_lt_is_Some. rewrite <-Hlen. by eapply lookup_lt_Some. }
    assert (is_Some (rows ecoregions !! j2)) as [[ib rb] Hb].
    { apply lookup_lt_is_Some. rewrite <-Hlen. by eapply lookup_lt_Some. }
    destruct (Hrows _ _ _ Ha) as (? & _ & Ha').
    destruct (Hrows _ _ _ Hb) as (? & _ & Hb').
    rewrite Hj1 in Ha'. rewrite Hj2 in Hb'. by simplify_eq. }
  (* the rows read back from the two tables *)
  destruct (recombine_ecoregions_identifiers _ _ _ _ Hrec)
    as (Hqm & Hqp & ->).
  destruct (to_sql_rows _ _ Hem) as (Hcm & Hrm).
  destruct (to_sql_rows _ _ Hep) as (Hcp & Hrp).
  destruct (prep_source_for_pg_columns _ _ _ Hsplit) as (Hdm & Hdp).
  destruct (prep_source_for_pg_from title lookup_wd _ _ _ Hsplit dm
              (or_introl eq_refl)) as (Hnm & _ & Hfm).
  destruct (prep_source_for_pg_from title lookup_wd _ _ _ Hsplit dp
              (or_intror eq_refl)) as (Hnpp & _ & Hfp).
  rewrite Hnp in Hnm, Hnpp.
  assert (∀ (x e : DataFrame G) i0 r0 g c,
    index_name x = None →
    columns x = filter (λ c, c ∉ ["geometry"])
                       (add_columns (columns prepared) ["geom"]) →
    columns e = index_column x :: columns x →
    q_ecoregions ⊆ columns e →
    (i0, r0) ∈ rows prepared → c ∈ q_ecoregions →
    cell e (where_notnull_none_cell
            <$> <[index_column x := label_value i0]> (stored_row g r0)) c
    = cell prepared r0 c) as Hcell.
  { intros x e i0 r0 g c Hnx Hcx Hce Hq Hin Hc.
    destruct (q_not_index c x Hnx Hc) as (? & ? & ?).
    destruct (Hfrom _ _ Hin) as (_ & _ & _ & _ & _ & _ & _ & _ & Hfix).
    apply stored_cell; [done| |by apply Hq|done..].
    pose proof (Hq c Hc) as Hin'. rewrite Hce, Hcx in Hin'.
    apply elem_of_cons in Hin' as [?|Hin']; [done|].
    apply list_elem_of_filter in Hin' as [_ Hin'].
    apply add_column_elem_of in Hin' as [?|?]; done. }
  set (Q := λ r0 : gmap string (scalar G),
              reindex_row prepared q_ecoregions r0).
  assert (∀ t', t' ∈ reindexed q_ecoregions em ++ reindexed q_ecoregions ep
                ↔ ∃ i0 r0, (i0, r0) ∈ rows prepared ∧ t' = Q r0) as HL.
  { intros t'. rewrite elem_of_app. unfold reindexed. split.
    - intros [Hin|Hin];
        apply list_elem_of_fmap in Hin as ([j t] & -> & Hin); simpl.
      + assert (t ∈ (rows em).*2) as Ht
          by (apply list_elem_of_fmap; by exists (j, t)).
        apply Hrm in Ht as (i0 & t0 & Hin0 & ->).
        destruct (Hfm _ _ Hin0) as (r0 & g & Hin1 & ->).
        exists i0, r0. split; [done|]. apply reindex_row_ext.
        intros c Hc. by eapply Hcell.
      + assert (t ∈ (rows ep).*2) as Ht
          by (apply list_elem_of_fmap; by exists (j, t)).
        apply Hrp in Ht as (i0 & t0 & Hin0 & ->).
        destruct (Hfp _ _ Hin0) as (r0 & g & Hin1 & ->).
        exists i0, r0. split; [done|]. apply reindex_row_ext.
        intros c Hc. by eapply Hcell.
    - intros (i0 & r0 & Hin & ->).
      destruct (Hfrom _ _ Hin) as (_ & _ & _ & g & _ & _ & _ & Hg & _).
      destruct (prep_source_for_pg_rows _ _ _ i0 r0 g Hsplit Hndp Hin Hg)
        as (Hm & Hp & _).
      destruct (decide (geom_type g = "Polygon")) as [Hpoly|Hpoly].
      + right.
        assert (where_notnull_none_cell
                <$> <[index_column dp := label_value i0]> (stored_row g r0)
                ∈ (rows ep).*2) as Ht.
        { apply Hrp. exists i0, (stored_row g r0). split; [|done].
          apply Hp. by rewrite Hpoly. }
        apply list_elem_of_fmap in Ht as ([j t] & Heq & Ht). simpl in Heq.
        apply list_elem_of_fmap. exists (j, t). split; [|done]. simpl.
        subst t. unfold Q. symmetry. apply reindex_row_ext.
        intros c Hc. by eapply Hcell.
      + left.
        assert (where_notnull_none_cell
                <$> <[index_column dm := label_value i0]> (stored_row g r0)
                ∈ (rows em).*2) as Ht.
        { apply Hrm. exists i0, (stored_row g r0). split; [|done].
          by apply Hm. }
        apply list_elem_of_fmap in Ht as ([j t] & Heq & Ht). simpl in Heq.
        apply list_elem_of_fmap. exists (j, t). split; [|done]. simpl.
        subst t. unfold Q. symmetry. apply reindex_row_ext.
        intros c Hc. by eapply Hcell. }
  assert (∀ i0 r0, (i0, r0) ∈ rows prepared →
    ∃ j i r, rows ecoregions !! j = Some (i, r)
      ∧ rows prepared !! j = Some (i0, r0)
      ∧ Scalar <$> Q r0 !! "contextual_identifier"
        = Some (Scalar (label_value i))) as HQ.
  { intros i0 r0 Hin.
    destruct (Hfrom _ _ Hin) as (j & i & r & _ & Hj & Hj' & Hc & _).
    exists j, i, r. split_and!; [done..|]. unfold Q.
    rewrite reindex_row_lookup by compute_done. simpl. by rewrite Hc. }
  apply NoDup_Permutation.
  - apply NoDup_fmap_2_strong; [|apply NoDup_remove_dups].
    intros t1 t2 Ht1 Ht2 Heq.
    apply elem_of_remove_dups, HL in Ht1 as (i1 & r1 & Hin1 & ->).
    apply elem_of_remove_dups, HL in Ht2 as (i2 & r2 & Hin2 & ->).
    destruct (HQ _ _ Hin1) as (j1 & ia & ra & Ha & Ha' & Hca).
    destruct (HQ _ _ Hin2) as (j2 & ib & rb & Hb & Hb' & Hcb).
    rewrite Hca, Hcb in Heq. injection Heq as Heq.
    apply label_value_inj in Heq. subst ib.
    assert (j1 = j2) as ->.
    { apply (proj1 (NoDup_alt _) Hnd j1 j2 ia); unfold index;
        rewrite list_lookup_fmap; [by rewrite Ha|by rewrite Hb]. }
    rewrite Ha' in Hb'. by simplify_eq.
  - apply NoDup_fmap_2_strong; [|done].
    intros i j _ _ [= Heq]. by apply label_value_inj.
  - intros v. rewrite !list_elem_of_fmap. split.
    + intros (t & -> & (i0 & r0 & Hin & ->)%elem_of_remove_dups%HL).
      destruct (HQ _ _ Hin) as (j & i & r & Hj & _ & ->).
      exists i. split; [done|]. unfold index.
      apply list_elem_of_fmap. exists (i, r). split; [done|].
      by eapply list_elem_of_lookup_2.
    + intros (i & -> & ([i' r] & -> & [j Hj]%list_elem_of_lookup)%list_elem_of_fmap).
      simpl.
      destruct (Hrows j i' r Hj) as (g & _ & Hj').
      assert ((Pos j, prepared_row title lookup_wd ecoregions i' r g)
              ∈ rows prepared) as Hin by (by eapply list_elem_of_lookup_2).
      exists (Q (prepared_row title lookup_wd ecoregions i' r g)). split.
      * destruct (HQ _ _ Hin) as (j2 & i2 & r2 & Hj2 & Hj2' & ->).
        assert (j2 = j) as ->.
        { apply (proj1 (NoDup_alt _) Hndp j2 j (Pos j)); unfold index;
            rewrite list_lookup_fmap; [by rewrite Hj2'|by rewrite Hj']. }
        rewrite Hj in Hj2. by simplify_eq.
      * apply elem_of_remove_dups, HL. by eexists _, _.
Qed.
End OneRecord.

(** ** The first notebook *)

Section FirstNotebook.
Context {G : Type} `{Geometric G}.
Implicit Types (df d : DataFrame G) (r : gmap string (scalar G)).

(** X18: the first notebook's cell gives every North American level-3
    record the level-1 tag before its level-3 code, and keeps the row
    labels. *)
Theorem notebook_clean_na_er3_tag df df' :
  notebook_clean_na_er3 df = Some df' →
  index df' = index df
  ∧ rowwise (λ r r', ∃ v code,
       getitem df r "NA_L3CODE" = Some v ∧ format v = Some code
       ∧ r' !! "contextual_identifier"
         = Some (Str ("NA_L1CODE:" +:+ code)))
      (rows df) (rows df').
Proof.
  unfold notebook_clean_na_er3. intros Hclean.
  pose proof (clean_level_contextual_identifier _ _ _ _ _ _ Hclean) as Hr.
  assert (rowwise (λ r r', ∃ v,
            fstring [Lit "NA_L1CODE:"; Field "NA_L3CODE"] (getitem df r)
            = Some v ∧ r' !! "contextual_identifier" = Some v)
          (rows df) (rows df')) as Hr' by (apply Hr; compute_done).
  split.
  - unfold index. by rewrite (rowwise_index _ _ _ Hr').
  - eapply rowwise_impl; [|exact Hr'].
    intros r r' (v & Hv & Hl).
    apply (fstring_tag "NA_L1CODE" "NA_L3CODE") in Hv
      as (c & code & Hc & Hf & ->).
    by exists c, code.
Qed.

(** X19: the first notebook looks up every record, of every level, by
    its name in title case: one call per row, in order, and its result
    under [wikidata_id]. *)
Theorem notebook_wikidata_info_every_record (title : string → string)
    (lookup_wd_named : string → scalar G → scalar G → scalar G)
    df out calls :
  notebook_wikidata_info title lookup_wd_named df = Some (out, calls) →
  index out = index df
  ∧ calls.*1 = index df
  ∧ rowwise (λ r r',
       let name := match cell df r "common_name" with
                   | Str s => Str (title s)
                   | _ => NaN
                   end in
       r' !! "common_name" = Some name
       ∧ r' !! "wikidata_id"
         = Some (lookup_wd_named "Ecoregions" name PyNone))
      (rows df) (rows out)
  ∧ Forall2 (λ (ir : label * gmap string (scalar G)) (call : label * scalar G),
       call = (ir.1, match cell df ir.2 "common_name" with
                     | Str s => Str (title s)
                     | _ => NaN
                     end)) (rows df) calls.
Proof.
  unfold notebook_wikidata_info. intros Hnb.
  destruct (add_point_and_title title df) as [d|] eqn:Hd; [|done].
  simpl in Hnb.
  destruct (apply_axis1 _ d) as [s|] eqn:Hs; [|done]. simpl in Hnb.
  destruct (setitem "wikidata_id" s d) as [d3|] eqn:Hd3; [|done].
  simpl in Hnb. injection Hnb as <- <-.
  destruct (add_point_and_title_rows _ _ _ Hd) as (_ & _ & Hcn & Hcols & Hr).
  destruct (assign_axis1 _ _ _ _ _ Hs Hd3) as (_ & _ & _ & Hr3).
  pose proof (rowwise_compose _ _ _ _ _ Hr Hr3) as Hr13.
  assert (index d = index df) as Hidx
    by (unfold index; by rewrite (rowwise_index _ _ _ Hr)).
  assert ("common_name" ∈ columns d) as Hcnd by (apply Hcols; by left).
  split_and!.
  - unfold index. by rewrite (rowwise_index _ _ _ Hr13).
  - rewrite (fmap_fst_relabel (λ ir, cell d ir.2 "common_name")). done.
  - eapply rowwise_impl; [|exact Hr13].
    intros r r3 (r1 & (g & _ & ->) & (v & Hv & ->)). cbv zeta.
    unfold getitem in Hv. rewrite decide_True in Hv by done.
    simpl in Hv. injection Hv as <-.
    assert (cell d (<["common_name" :=
                        match cell df r "common_name" with
                        | Str s0 => Str (title s0)
                        | _ => NaN
                        end]>
                      (<["y" := Num (centroid g).2]>
                         (<["x" := Num (centroid g).1]> r))) "common_name"
            = match cell df r "common_name" with
              | Str s0 => Str (title s0)
              | _ => NaN
              end) as ->.
    { unfold cell at 1. rewrite decide_True by done.
      by rewrite lookup_insert_eq. }
    split; [|by rewrite lookup_insert_eq].
    rewrite lookup_insert_ne by done. by rewrite lookup_insert_eq.
  - apply Forall2_fmap_r. apply Forall2_flip.
    eapply Forall2_impl; [apply Forall2_flip; exact Hr|].
    intros [i r] [i1 r1] [Hi (g & _ & ->)]. simpl in *. subst i1.
    f_equal. unfold cell at 1. rewrite decide_True by done.
    by rewrite lookup_insert_eq.
Qed.


End FirstNotebook.

(** ** The strip geometry obeys the law assumed of shapely *)

Section StripLaws.
Import Strip.

Lemma remove_dups_NoDup (l : list nat) : NoDup l → remove_dups l = l.
Proof.
  induction 1 as [|x l Hx _ IH]; [done|]. simpl.
  destruct (decide_rel _ x l); [done|]. by rewrite IH.
Qed.

Lemma union_idempotent (ss : list shape) : union [union ss] = union ss.
Proof.
  unfold union. f_equal. simpl. rewrite app_nil_r.
  set (l := remove_dups (ss ≫= cells)).
  assert (NoDup (merge_sort Nat.le l)) as Hnd.
  { rewrite merge_sort_Permutation. apply NoDup_remove_dups. }
  rewrite remove_dups_NoDup by done.
  apply (Sorted_unique Nat.le).
  - apply Sorted_merge_sort, _.
  - apply Sorted_merge_sort, _.
  - apply merge_sort_Permutation.
Qed.

End StripLaws.

(** ** The properties on the sample data *)

Section Examples.
Import Strip Samples.

Ltac run := vm_compute; reflexivity.

(** C1 on the mixed frame: the polygon row is stored in the polygon
    frame only. *)
Lemma prep_source_for_pg_partition_witness :
  prep_source_for_pg mixed = Some (mixed_multi, mixed_poly)
  ∧ NoDup (index mixed)
  ∧ (Pos 0, polygon_row) ∈ rows mixed
  ∧ cell mixed polygon_row "geometry" = Geom (Cells [1])
  ∧ (geom_type (Cells [1]) = "Polygon"
     ∨ geom_type (Cells [1]) = "MultiPolygon")
  ∧ (Pos 0, stored_row (Cells [1]) polygon_row) ∈ rows mixed_poly
  ∧ Pos 0 ∉ index mixed_multi.
Proof.
  refine ((λ Hprep Hnd Hin Hg Ht,
             conj Hprep (conj Hnd (conj Hin (conj Hg (conj Ht
               match proj1 (prep_source_for_pg_partition
                              mixed _ _ (Pos 0) polygon_row (Cells [1])
                              Hprep Hnd Hin Hg Ht) with
               | or_introl (conj Hm _) => _
               | or_intror (conj _ Hp) => Hp
               end))))) _ _ _ _ _).
  - discriminate Hm.
  - run.
  - compute_done.
  - compute_done.
  - run.
  - by left.
Defined.

(** The claim of C1 fails on the same frame: the row whose geometry is
    a point is stored in both frames. *)
Lemma point_row_in_both_frames :
  prep_source_for_pg mixed = Some (mixed_multi, mixed_poly)
  ∧ (Pos 2, point_row) ∈ rows mixed
  ∧ cell mixed point_row "geometry" = Geom (Point 6)
  ∧ (Pos 2, stored_row (Point 6) point_row) ∈ rows mixed_multi
  ∧ (Pos 2, stored_row (Point 6) point_row) ∈ rows mixed_poly.
Proof. split; [run|]. split_and!; compute_done. Qed.

(** C2 on the stored sample regions and the sample intersections *)
Lemma recombine_ecoregions_intersects_witness :
  recombine_ecoregions stored_m stored_p df_intersections = Some assembled
  ∧ (∀ i o, (i, o) ∈ orows assembled →
       ∃ ci admin country,
         o !! "contextual_identifier" = Some (Scalar ci)
         ∧ o !! "admin_intersects" = Some (PyList admin)
         ∧ o !! "country_intersects" = Some (PyList country)
         ∧ distinct_values admin ∧ distinct_values country
         ∧ (∀ id, id ∈ admin ↔
                  shares_identifier df_intersections ci "admin_id" id)
         ∧ (∀ id, id ∈ country ↔
                  shares_identifier df_intersections ci "country_id" id))
  ∧ (∀ t, t ∈ (rows stored_m).*2 →
       ∃ i o, (i, o) ∈ orows assembled
         ∧ o !! "contextual_identifier"
           = Some (Scalar (cell stored_m t "contextual_identifier")))
  ∧ (∀ t, t ∈ (rows stored_p).*2 →
       ∃ i o, (i, o) ∈ orows assembled
         ∧ o !! "contextual_identifier"
           = Some (Scalar (cell stored_p t "contextual_identifier"))).
Proof.
  refine ((λ Hout, conj Hout
             (recombine_ecoregions_intersects
                stored_m stored_p df_intersections assembled Hout)) _).
  run.
Defined.

(** C3, the first notebook: the North American level-3 record with code
    9.4.5 is given the level-1 tag. *)
Lemma notebook_clean_na_er3_level1_tag :
  cells_of ["contextual_identifier"; "source"]
    <$> notebook_clean_na_er3 na_er3
  = Some [(Pos 0, [Str "NA_L1CODE:9.4.5"; Str "NA_CEC_Eco_Level3"])].
Proof. run. Qed.

(** C3, the suite, on the five sample sources *)
Lemma clean_synth_df_contextual_identifier_witness :
  clean_synth_df na_er1 na_er2 na_er3 conus_er3 conus_er4
  = Some cleaned
  ∧ tagged_by "NA_L3CODE" na_er3 cleaned.1.1.2
  ∧ cells_of ["contextual_identifier"] cleaned.1.1.2
    = [(Pos 0, [Str "NA_L3CODE:9.4.5"])].
Proof.
  refine ((λ Hc, conj Hc (conj
             (proj1 (proj2 (proj2
                (clean_synth_df_contextual_identifier
                   na_er1 na_er2 na_er3 conus_er3 conus_er4
                   cleaned.1.1.1.1 cleaned.1.1.1.2 cleaned.1.1.2
                   cleaned.1.2 cleaned.2 Hc)))) _)) _).
  - run.
  - run.
Defined.

(** C4 on the sample regions: the lookups of the suite are those of the
    two US regions, and the other assembled records have no external
    identifier. *)
Lemma assemble_us_only_witness :
  prepare_wikidata_info as_is known regions = Some (prepared, calls)
  ∧ assemble as_is known regions df_intersections = Some (assembled, calls)
  ∧ calls = [(Pos 3, Str "US_L3CODE:29"); (Pos 4, Str "US_L4CODE:29b")]
  ∧ calls = calls
  ∧ ∀ i o src, (i, o) ∈ orows assembled →
      o !! "source" = Some (Scalar src) → isin src us_levels = false →
      o !! "wikidata_id" = Some (Scalar PyNone)
      ∧ ∃ i0 r0, (i0, r0) ∈ rows prepared ∧ ¬ (i0 ∈ calls.*1)
          ∧ ∀ c, c ∈ q_ecoregions → c ≠ "part_of_identifiers" →
                 o !! c = Some (Scalar (cell prepared r0 c)).
Proof.
  refine ((λ Hp Ha Hc, conj Hp (conj Ha (conj Hc
             (assemble_us_only as_is known regions df_intersections
                prepared assembled calls calls Hp Ha)))) _ _ _).
  - run.
  - run.
  - run.
Defined.

(** The claim of C4 fails on the first notebook: a lookup is made for
    every record, and the North American level-3 record gets an
    external identifier. *)
Lemma notebook_looks_up_every_record :
  notebook_wikidata_info as_is known_by_name notebook_regions
  = Some (notebook_prepared, notebook_calls)
  ∧ cells_of ["source"; "common_name"; "wikidata_id"] notebook_prepared
    = [(Key "NA_L1CODE:9",
        [Str "NA_CEC_Eco_Level1"; Str "GREAT PLAINS"; PyNone]);
       (Key "NA_L1CODE:9.4.5",
        [Str "NA_CEC_Eco_Level3"; Str "Cross Timbers"; Str "Q5188529"]);
       (Key "NA_L2CODE:9.4",
        [Str "NA_CEC_Eco_Level2"; Str "SOUTH CENTRAL PRAIRIES"; PyNone]);
       (Key "US_L3CODE:29",
        [Str "US_Eco_Level3"; Str "Cross Timbers"; Str "Q5188529"]);
       (Key "US_L4CODE:29b",
        [Str "US_Eco_Level4"; Str "Eastern Cross Timbers"; PyNone])]
  ∧ notebook_calls
    = [(Key "NA_L1CODE:9", Str "GREAT PLAINS");
       (Key "NA_L1CODE:9.4.5", Str "Cross Timbers");
       (Key "NA_L2CODE:9.4", Str "SOUTH CENTRAL PRAIRIES");
       (Key "US_L3CODE:29", Str "Cross Timbers");
       (Key "US_L4CODE:29b", Str "Eastern Cross Timbers")]
  ∧ isin (G:=shape) (Str "NA_CEC_Eco_Level3") us_levels = false.
Proof. split_and!; run. Qed.

(** C5 on the ancestors of a level-3 record, and on none *)
Lemma part_of_identifiers_roundtrip_witness :
  Forall (λ a, contains ";" a = false) ["NA_L1CODE:9"; "NA_L2CODE:9.4"]
  ∧ parse_part_of
      (serialize_part_of (G:=shape) ["NA_L1CODE:9"; "NA_L2CODE:9.4"])
    = Some (PyList [Str "NA_L1CODE:9"; Str "NA_L2CODE:9.4"]).
Proof.
  refine ((λ H, conj H
             (part_of_identifiers_roundtrip (G:=shape)
                ["NA_L1CODE:9"; "NA_L2CODE:9.4"] H)) _).
  repeat constructor.
Defined.

(** C6 on the seven combined sample records, which have five
    identifiers *)
Lemma dissolve_one_row_per_key_witness :
  "geometry" ∈ columns combined
  ∧ "contextual_identifier" ∈ columns combined
  ∧ keyed_shapes "contextual_identifier" combined = true
  ∧ length (rows combined) = 7
  ∧ ∃ out, dissolve "contextual_identifier" combined = Some out
      ∧ NoDup (index out)
      ∧ length (rows out)
        = size (list_to_set
                  ((λ ir : label * gmap string (scalar shape),
                      cell combined ir.2 "contextual_identifier")
                   <$> rows combined) : gset (scalar shape))
      ∧ (∀ i r, (i, r) ∈ rows combined →
           ∃ k, cell combined r "contextual_identifier" = Str k
                ∧ Key k ∈ index out)
      ∧ (∀ l, l ∈ index out →
           ∃ k i r, l = Key k ∧ (i, r) ∈ rows combined
                    ∧ cell combined r "contextual_identifier" = Str k).
Proof.
  refine ((λ Hg Hk Hs Hl, conj Hg (conj Hk (conj Hs (conj Hl
             (dissolve_one_row_per_key "contextual_identifier" combined
                Hg Hk (keyed_shapes_spec _ _ Hs)))))) _ _ _ _).
  - compute_done.
  - compute_done.
  - run.
  - run.
Defined.

(** C7 on the sample regions: they are the dissolve of the combined
    records, and dissolving them again gives them back. *)
Lemma dissolve_idempotent_witness :
  (∀ gs : list shape, unary_union [unary_union gs] = unary_union gs)
  ∧ dissolve "contextual_identifier" combined = Some regions
  ∧ dissolve "contextual_identifier" regions = Some regions.
Proof.
  refine ((λ Hu Hd, conj Hu (conj Hd
             (dissolve_idempotent "contextual_identifier" combined regions
                Hu Hd))) _ _).
  - exact union_idempotent.
  - run.
Defined.

(** The claim of C7 fails on a frame that has one row for its one
    identifier, the parts of its multipolygon overlapping: the dissolve
    gives another geometry. *)
Lemma dissolve_changes_one_row_frame :
  cells_of ["contextual_identifier"; "geometry"] overlapping
  = [(Pos 0, [Str "US_L3CODE:7"; Geom (Cells [3; 3])])]
  ∧ cells_of ["geometry"; "source"]
      <$> dissolve "contextual_identifier" overlapping
    = Some [(Key "US_L3CODE:7", [Geom (Cells [3]); Str "US_Eco_Level3"])]
  ∧ dissolve "contextual_identifier" overlapping ≠ Some overlapping.
Proof.
  split_and!; [run|run|].
  intros Heq.
  apply (f_equal (fmap (cells_of ["geometry"]))) in Heq.
  vm_compute in Heq. discriminate Heq.
Qed.



(** Where both collections carry the columns of both roles the
    exchanged query runs, and reads other identifiers: the pairs
    differ. *)
Lemma intersections_view_twins_exchanged :
  elements <$> (id_pairs <$> intersections_view
                  twin_empty twin_boundaries twin_regions twin_empty)
  = Some [(Str "Q1439", Str "US_L3CODE:29")]
  ∧ elements <$> (id_pairs <$> intersections_view
                    twin_regions twin_empty twin_empty twin_boundaries)
    = Some [(Str "Q5188529", Str "US-TX")].
Proof. split; run. Qed.

(** C9 on the sample intersections, for the US level-3 region, which
    two states and two counties intersect *)
Lemma boundary_intersects_list_refines_witness :
  notebook_boundary_intersects_list df_intersections (Str "US_L3CODE:29")
  = Some [Str "Q1439"; Str "Q1649"; PyNone; PyNone]
  ∧ boundary_intersects_list df_intersections (Str "US_L3CODE:29")
      "wikidata_id"
    = Some [Str "Q1649"; Str "Q1439"; PyNone]
  ∧ (∀ id : scalar shape,
       id ∈ [Str "Q1649"; Str "Q1439"; PyNone]
       ↔ id ∈ [Str "Q1439"; Str "Q1649"; PyNone; PyNone])
  ∧ distinct_values [Str (G:=shape) "Q1649"; Str "Q1439"; PyNone]
  ∧ (NaN ∉ [Str (G:=shape) "Q1439"; Str "Q1649"; PyNone; PyNone] →
     ([Str (G:=shape) "Q1649"; Str "Q1439"; PyNone]
      ≡ₚ [Str "Q1439"; Str "Q1649"; PyNone; PyNone]
      ↔ NoDup [Str (G:=shape) "Q1439"; Str "Q1649"; PyNone; PyNone])).
Proof.
  pose proof (boundary_intersects_list_refines
                df_intersections (Str "US_L3CODE:29")) as Href.
  assert (notebook_boundary_intersects_list df_intersections
            (Str "US_L3CODE:29")
          = Some [Str "Q1439"; Str "Q1649"; PyNone; PyNone]) as Hn by run.
  assert (boundary_intersects_list df_intersections (Str "US_L3CODE:29")
            "wikidata_id"
          = Some [Str "Q1649"; Str "Q1439"; PyNone]) as Hs by run.
  rewrite Hn, Hs in Href. exact (conj Hn (conj Hs Href)).
Defined.

(** The claim of C9 fails on the sample intersections: for the US
    level-3 region the first notebook lists the missing identifier of
    its two counties twice, the suite once. *)
Lemma boundary_intersects_list_differs :
  notebook_boundary_intersects_list df_intersections (Str "US_L3CODE:29")
  = Some [Str "Q1439"; Str "Q1649"; PyNone; PyNone]
  ∧ boundary_intersects_list df_intersections (Str "US_L3CODE:29")
      "wikidata_id"
    = Some [Str "Q1649"; Str "Q1439"; PyNone]
  ∧ boundary_intersects_list df_intersections (Str "US_L3CODE:29")
      "admin_id"
    = Some [Str "Q1649"; Str "Q1439"; PyNone].
Proof. split_and!; run. Qed.

(** C10 on the sample boundaries: the Canadian province, whose source
    has no [identifier], holds [None] there. *)
Lemma combine_boundaries_no_NaN_witness :
  text_column "identifier" [ca_states; us_states; mx_states; us_counties]
  = true
  ∧ ∃ r', rows (combine_boundaries ca_states us_states mx_states us_counties)
            !! 0 = Some (Pos 0, r')
          ∧ r' !! "identifier" = Some PyNone.
Proof.
  assert (text_column "identifier"
            [ca_states; us_states; mx_states; us_counties] = true) as Ht
    by run.
  destruct (proj2 (proj2 (combine_boundaries_no_NaN
                            ca_states us_states mx_states us_counties
                            "identifier" Ht))
              0 ca_states 0 (Pos 0) alberta eq_refl eq_refl)
    as (r' & Hr & Hnone & _).
  split; [exact Ht|]. exists r'. split; [exact Hr|].
  apply Hnone. compute_done.
Defined.

Lemma combine_boundaries_cells :
  cells_of ["name"; "identifier"; "abbreviation"]
    (combine_boundaries ca_states us_states mx_states us_counties)
  = [(Pos 0, [Str "Alberta"; PyNone; Str "Alta."]);
     (Pos 1, [Str "Texas"; Str "48"; Str "TX"]);
     (Pos 2, [Str "Sonora"; Str "MX26"; Str "MEX-SON"]);
     (Pos 3, [Str "Cooke"; Str "48097"; PyNone])].
Proof. run. Qed.

End Examples.

(** ** The further properties on the sample data *)

Section MoreExamples.
Import Strip Samples.

Ltac run := vm_compute; reflexivity.



(** X3 on the stored regions *)
Lemma recombine_ecoregions_over_view_witness :
  intersections_view boundaries_m boundaries_p ecoregions_m ecoregions_p
  = Some view
  ∧ (rows stored_m ≠ [] ∨ rows stored_p ≠ [])
  ∧ recombine_ecoregions stored_m stored_p view = None.
Proof.
  refine ((λ Hv Hne, conj Hv (conj Hne
             (recombine_ecoregions_over_view
                boundaries_m boundaries_p ecoregions_m ecoregions_p
                view stored_m stored_p Hv Hne))) _ _).
  - run.
  - left. compute_done.
Defined.

(** X4 on the sample intersections: a missing identifier matches no
    row *)
Lemma boundary_intersects_list_edges_witness :
  notnull (G:=shape) NaN = false
  ∧ "contextual_identifier" ∈ columns df_intersections
  ∧ "admin_id" ∈ columns df_intersections
  ∧ boundary_intersects_list df_intersections NaN "admin_id" = Some [].
Proof.
  refine ((λ Hn Hc Ha, conj Hn (conj Hc (conj Ha
             (proj2 (proj2
                (boundary_intersects_list_edges df_intersections NaN
                   "admin_id")) Hn Hc Ha)))) _ _ _).
  - run.
  - compute_done.
  - compute_done.
Defined.

(** X6 on the five sample sources *)
Lemma clean_synth_df_normalized_witness :
  clean_synth_df na_er1 na_er2 na_er3 conus_er3 conus_er4 = Some cleaned
  ∧ normalized [Lit "US_L4CODE:"; Field "US_L4CODE"] "US_L4NAME"
               (Some part_of_us_l4) keep_below conus_er4 cleaned.2.
Proof.
  refine ((λ Hc, conj Hc
             (proj2 (proj2 (proj2 (proj2
                (clean_synth_df_normalized
                   na_er1 na_er2 na_er3 conus_er3 conus_er4
                   cleaned.1.1.1.1 cleaned.1.1.1.2 cleaned.1.1.2 cleaned.1.2
                   cleaned.2 Hc)))))) _).
  run.
Defined.

(** X7 on the five sample sources *)
Lemma clean_synth_df_requires_witness :
  clean_synth_df na_er1 na_er2 na_er3 conus_er3 conus_er4 = Some cleaned
  ∧ ["NA_L1CODE"; "NA_L1NAME"] ⊆ columns na_er1.
Proof.
  refine ((λ Hc, conj Hc
             (proj1
                (clean_synth_df_requires
                   na_er1 na_er2 na_er3 conus_er3 conus_er4
                   cleaned.1.1.1.1 cleaned.1.1.1.2 cleaned.1.1.2 cleaned.1.2
                   cleaned.2 Hc))) _).
  run.
Defined.

(** X8 on the US level-4 record of the sources *)
Lemma clean_synth_df_ancestors_witness :
  clean_synth_df na_er1 na_er2 na_er3 conus_er3 conus_er4 = Some cleaned
  ∧ (Pos 0, eastern_cross_timbers) ∈ rows conus_er4
  ∧ ∃ r' v, (Pos 0, r') ∈ rows cleaned.2
      ∧ r' !! "part_of_identifiers" = Some v
      ∧ parse_part_of v
        = Some (PyList [Str "NA_L1CODE:9"; Str "NA_L2CODE:9.4";
                        Str "NA_L3CODE:9.4.5"; Str "US_L3CODE:29"]).
Proof.
  refine ((λ Hc Hin H1 H2 H3 H4 Hsep, conj Hc (conj Hin
             (clean_synth_df_ancestors
                na_er1 na_er2 na_er3 conus_er3 conus_er4
                cleaned.1.1.1.1 cleaned.1.1.1.2 cleaned.1.1.2 cleaned.1.2
                cleaned.2 (Pos 0) eastern_cross_timbers
                "9" "9.4" "9.4.5" "29" Hc Hin H1 H2 H3 H4 Hsep)))
            _ _ _ _ _ _ _).
  - run.
  - vm_compute. apply list_elem_of_here.
  - run.
  - run.
  - run.
  - run.
  - vm_compute. repeat constructor.
Defined.

(** X9 on the first record of the top level *)
Lemma combine_source_data_top_level_witness :
  clean_synth_df na_er1 na_er2 na_er3 conus_er3 conus_er4 = Some cleaned
  ∧ rows cleaned.1.1.1.1 !! 0 = Some (Pos 0, great_plains)
  ∧ "part_of_identifiers"
    ∈ columns (combine_source_data cleaned.1.1.1.1 cleaned.1.1.1.2
                 cleaned.1.1.2 cleaned.1.2 cleaned.2)
  ∧ ∃ r',
      rows (combine_source_data cleaned.1.1.1.1 cleaned.1.1.1.2
              cleaned.1.1.2 cleaned.1.2 cleaned.2) !! 0 = Some (Pos 0, r')
      ∧ r' !! "part_of_identifiers" = Some NaN
      ∧ ∀ col,
          col ∈ columns (combine_source_data cleaned.1.1.1.1 cleaned.1.1.1.2
                           cleaned.1.1.2 cleaned.1.2 cleaned.2) →
          r' !! col = Some (cell cleaned.1.1.1.1 great_plains col).
Proof.
  refine ((λ Hc Hj, conj Hc (conj Hj
             (combine_source_data_top_level
                na_er1 na_er2 na_er3 conus_er3 conus_er4
                cleaned.1.1.1.1 cleaned.1.1.1.2 cleaned.1.1.2 cleaned.1.2
                cleaned.2 0 (Pos 0) great_plains Hc Hj))) _ _).
  - run.
  - run.
Defined.

(** X10 on the assembled sample regions *)
Lemma cache_final_output_records_witness :
  recombine_ecoregions stored_m stored_p df_intersections = Some assembled
  ∧ length (to_dict_records assembled) = length (orows assembled)
  ∧ ∀ o, o ∈ to_dict_records assembled →
      (∀ c, is_Some (o !! c) ↔
            c ∈ ["contextual_identifier"; "wikidata_id"; "source";
                 "common_name"; "part_of_identifiers"; "x"; "y";
                 "admin_intersects"; "country_intersects"])
      ∧ (∀ c, c ∈ ["contextual_identifier"; "wikidata_id"; "source";
                   "common_name"; "x"; "y"] →
              ∃ v, o !! c = Some (Scalar v))
      ∧ (o !! "part_of_identifiers" = Some (Scalar PyNone)
         ∨ ∃ parts, parts ≠ []
             ∧ Forall (λ a, contains ";" a = false) parts
             ∧ o !! "part_of_identifiers" = Some (PyList (Str <$> parts)))
      ∧ ∃ admin country,
          o !! "admin_intersects" = Some (PyList admin)
          ∧ o !! "country_intersects" = Some (PyList country)
          ∧ distinct_values admin ∧ distinct_values country.
Proof.
  refine ((λ Hr, conj Hr
             (cache_final_output_records
                stored_m stored_p df_intersections assembled Hr)) _).
  run.
Defined.

(** X11 on the four sample sources *)
Lemma resolve_boundaries_cells_witness :
  resolve_boundaries admin_ref
    (combine_boundaries ca_states us_states mx_states us_counties)
  = Some resolved
  ∧ index resolved
    = index (combine_boundaries ca_states us_states mx_states us_counties).
Proof.
  refine ((λ Hr, conj Hr
             (proj1 (resolve_boundaries_cells admin_ref
                       (combine_boundaries ca_states us_states mx_states
                          us_counties) resolved Hr))) _).
  run.
Defined.

(** X12 on the four sample sources *)
Lemma boundary_tables_columns_witness :
  boundary_tables admin_ref ca_states us_states mx_states us_counties
  = Some (tables_m, tables_p)
  ∧ columns tables_m = columns tables_p.
Proof.
  refine ((λ Ht, conj Ht
             (proj1 (boundary_tables_columns admin_ref
                       ca_states us_states mx_states us_counties
                       tables_m tables_p Ht))) _).
  run.
Defined.

(** X13 on the four sample sources and the stored regions *)
Lemma intersections_view_over_boundary_tables_witness :
  boundary_tables admin_ref ca_states us_states mx_states us_counties
  = Some (tables_m, tables_p)
  ∧ Forall (λ df : DataFrame shape, "wikidata_id" ∉ columns df)
           [ca_states; us_states; mx_states; us_counties]
  ∧ intersections_view tables_m tables_p stored_m stored_p = None.
Proof.
  refine ((λ Ht Hno, conj Ht (conj Hno
             (intersections_view_over_boundary_tables admin_ref
                ca_states us_states mx_states us_counties
                tables_m tables_p stored_m stored_p Ht Hno))) _ _).
  - run.
  - compute_done.
Defined.

(** X14 on the mixed frame *)
Lemma prep_source_for_pg_defined_witness :
  NoDup (index mixed)
  ∧ (is_Some (prep_source_for_pg mixed)
     ↔ "geometry" ∈ columns mixed
       ∧ ∀ i r, (i, r) ∈ rows mixed →
                ∃ g, cell mixed r "geometry" = Geom g).
Proof.
  refine ((λ Hnd, conj Hnd (prep_source_for_pg_defined mixed Hnd)) _).
  compute_done.
Defined.

(** X15 on the combined sample sources *)
Lemma dissolve_groups_witness :
  "contextual_identifier" ∈ columns combined
  ∧ Forall (λ ir : label * gmap string (scalar shape),
              is_Some (geometry_of (cell combined ir.2 "geometry")))
           (rows combined)
  ∧ dissolve "contextual_identifier" combined = Some regions
  ∧ ∃ keys,
      index regions = Key <$> keys
      ∧ Sorted String.le keys ∧ NoDup keys
      ∧ (∀ k, k ∈ keys ↔ group "contextual_identifier" k combined ≠ [])
      ∧ columns regions
        = "geometry" :: filter (λ c, c ≠ "geometry"
                                     ∧ c ≠ "contextual_identifier")
                          (columns combined)
      ∧ ∀ k r', (Key k, r') ∈ rows regions →
          ∃ gs,
            mapM (λ r, geometry_of (cell combined r "geometry"))
                 (group "contextual_identifier" k combined)
            = Some gs
            ∧ r' !! "geometry" = Some (Geom (unary_union gs))
            ∧ ∀ c, c ∈ columns combined → c ≠ "geometry" →
                c ≠ "contextual_identifier" →
                ∃ v, r' !! c = Some v
                     ∧ first_present
                         ((λ r, cell combined r c)
                          <$> group "contextual_identifier" k combined) v.
Proof.
  refine ((λ Hk Hg Hd, conj Hk (conj Hg (conj Hd
             (dissolve_groups "contextual_identifier" combined regions
                Hk Hg Hd)))) _ _ _).
  - compute_done.
  - compute_done.
  - run.
Defined.

(** X16 on the sample regions *)
Lemma prepare_wikidata_info_rows_witness :
  prepare_wikidata_info as_is known regions = Some (prepared, calls)
  ∧ ¬ (index_column regions ∈ columns regions)
  ∧ (∀ c, c ∈ columns prepared ↔
          c = index_column regions ∨ c ∈ columns regions
          ∨ c = "x" ∨ c = "y" ∨ c = "wikidata_id")
  ∧ length (rows prepared) = length (rows regions)
  ∧ (∀ j i r, rows regions !! j = Some (i, r) →
       ∃ g r', reset_cell regions i r "geometry" = Geom g
            ∧ rows prepared !! j = Some (Pos j, r')
            ∧ ∀ c, option_Forall2 kept_or_missing
                     (looked_up_row as_is known regions i r g !! c)
                     (r' !! c))
  ∧ NoDup calls.*1
  ∧ ∀ l v, (l, v) ∈ calls ↔
      ∃ j i r, rows regions !! j = Some (i, r)
        ∧ isin (reset_cell regions i r "source") us_levels = true
        ∧ l = Pos j
        ∧ v = reset_cell regions i r "contextual_identifier".
Proof.
  refine ((λ Hp, conj Hp
             (prepare_wikidata_info_rows as_is known regions
                prepared calls Hp)) _).
  run.
Defined.

(** X17 on the sample regions *)
Lemma assemble_one_record_per_region_witness :
  index_name regions = Some "contextual_identifier"
  ∧ NoDup (index regions)
  ∧ assemble as_is known regions df_intersections = Some (assembled, calls)
  ∧ (λ io : label * gmap string (pyobj shape),
       io.2 !! "contextual_identifier") <$> orows assembled
    ≡ₚ (λ i, Some (Scalar (label_value i))) <$> index regions.
Proof.
  refine ((λ Hn Hnd Ha, conj Hn (conj Hnd (conj Ha
             (assemble_one_record_per_region as_is known regions
                df_intersections assembled calls Hn Hnd Ha)))) _ _ _).
  - run.
  - compute_done.
  - run.
Defined.

(** X18 on the North American level-3 source *)
Lemma notebook_clean_na_er3_tag_witness :
  notebook_clean_na_er3 na_er3 = Some notebook_na_er3
  ∧ index notebook_na_er3 = index na_er3.
Proof.
  refine ((λ Hc, conj Hc
             (proj1 (notebook_clean_na_er3_tag na_er3 notebook_na_er3 Hc)))
            _).
  run.
Defined.

(** X19 on the first notebook's regions *)
Lemma notebook_wikidata_info_every_record_witness :
  notebook_wikidata_info as_is known_by_name notebook_regions
  = Some (notebook_prepared, notebook_calls)
  ∧ notebook_calls.*1 = index notebook_regions.
Proof.
  refine ((λ Hp, conj Hp
             (proj1 (proj2
                (notebook_wikidata_info_every_record as_is known_by_name
                   notebook_regions notebook_prepared notebook_calls Hp))))
            _).
  run.
Defined.


End MoreExamples.
